(** * harp.js: decoded-tile emitter, tile object renderer, road picker and data source

  A shallow embedding of the parts of harp.js that the specification's
  testable properties talk about:

  - [OmvDecodedTileEmitter]  the decoder's emitter (line labels, polygons,
                             mesh buffers, final geometry creation),
  - [TileObjectRenderer]     the per-frame object pass, the draw-order
                             comparator and the stencil allocator,
  - [RoadPicker]             road picking data,
  - [DataSource]             the base class of the data sources.

  The tile key / offset codec ([TileOffsetUtils]) and the composition of
  render orders ([TextElementBuilder.composeRenderOrder]) are not among
  the sources, only their tests are; they are not modelled.

  JavaScript numbers are IEEE 754 binary64 values; they are modelled by
  Rocq's primitive [float] wherever the code computes with measurements
  (world coordinates, render orders, depths), and by [Z] where the code
  counts (buffer offsets, stencil values).  Exceptions are explicit: a
  computation returns a [Completion]. *)

From Stdlib Require Import ZArith List Bool String Floats Uint63 Lia.
From stdpp Require Import base option list gmap pretty.

Import ListNotations.
Local Open Scope Z_scope.

(** ** JavaScript runtime conventions *)

Module JS.

(** A JavaScript [number]. *)
Definition number : Set := float.

(** [a < b], [a > b], [a <= b], [a >= b], [a === b] and [a !== b] on
    numbers: every comparison with NaN is false, except [!==]. *)
Definition lt (a b : number) : bool := PrimFloat.ltb a b.
Definition gt (a b : number) : bool := PrimFloat.ltb b a.
Definition le (a b : number) : bool := PrimFloat.leb a b.
Definition ge (a b : number) : bool := PrimFloat.leb b a.
Definition strict_eq (a b : number) : bool := PrimFloat.eqb a b.
Definition strict_ne (a b : number) : bool := negb (PrimFloat.eqb a b).

(** [Number.MAX_SAFE_INTEGER], [Number.MIN_SAFE_INTEGER] and
    [Number.MAX_VALUE]. *)
Definition MAX_SAFE_INTEGER : number := 9007199254740991%float.
Definition MIN_SAFE_INTEGER : number := (-9007199254740991)%float.
Definition MAX_VALUE : number := 0x1.fffffffffffffp+1023%float.

(** [Math.max(a, b)]: NaN when either argument is NaN. *)
Definition Math_max (a b : number) : number :=
  if PrimFloat.is_nan a then a
  else if PrimFloat.is_nan b then b
  else if PrimFloat.ltb a b then b else a.

(** The length of an array or string as a number. *)
Definition of_nat (n : nat) : number := PrimFloat.of_uint63 (Uint63.of_Z (Z.of_nat n)).

(** The result of running a piece of code that may throw. *)
Inductive Completion (A : Type) : Type :=
| Normal (a : A)
| Throw (message : string).
Arguments Normal {A} a.
Arguments Throw {A} message.

Definition isThrow {A} (c : Completion A) : bool :=
  match c with Throw _ => true | Normal _ => false end.

(** Comparisons of numbers are antisymmetric: [a < b] excludes [a >= b]. *)
Lemma SFcompare_antisym (a b : SpecFloat.spec_float) :
  SpecFloat.SFcompare b a = option_map CompOpp (SpecFloat.SFcompare a b).
Proof.
  destruct a as [sa|sa| |sa ma ea], b as [sb|sb| |sb mb eb]; cbn;
    try reflexivity; try (destruct sa; reflexivity); try (destruct sb; reflexivity);
    try (destruct sa, sb; reflexivity).
  destruct sa, sb; cbn; try reflexivity.
  - rewrite (Z.compare_antisym ea eb). destruct (ea ?= eb)%Z; cbn; try reflexivity.
    rewrite (Pos.compare_cont_antisym ma mb Eq). cbn. reflexivity.
  - rewrite (Z.compare_antisym ea eb). destruct (ea ?= eb)%Z; cbn; try reflexivity.
    rewrite (Pos.compare_cont_antisym ma mb Eq). cbn.
    now destruct (Pos.compare_cont Eq ma mb).
Qed.


(** A number compares equal to itself unless it is NaN, and NaN is below
    nothing. *)
Lemma SFcompare_refl (a : SpecFloat.spec_float) :
  SpecFloat.SFcompare a a = Some Eq \/ forall b, SpecFloat.SFcompare a b = None.
Proof.
  destruct a as [sa|sa| |sa ma ea]; cbn.
  - now left.
  - left. now destruct sa.
  - now right.
  - left. rewrite Z.compare_refl, Pos.compare_cont_refl. now destruct sa.
Qed.

Lemma nan_lt (a b : number) : PrimFloat.is_nan a = true -> lt a b = false.
Proof.
  unfold PrimFloat.is_nan, lt. rewrite FloatAxioms.eqb_spec, FloatAxioms.ltb_spec.
  unfold SpecFloat.SFeqb, SpecFloat.SFltb.
  destruct (SFcompare_refl (Prim2SF a)) as [->|Hnan]; [discriminate|].
  intros _. now rewrite (Hnan (Prim2SF b)).
Qed.

Lemma lt_asym (a b : number) : lt a b = true -> lt b a = false.
Proof.
  unfold lt. rewrite !FloatAxioms.ltb_spec. unfold SpecFloat.SFltb.
  rewrite (SFcompare_antisym (Prim2SF a) (Prim2SF b)).
  destruct (SpecFloat.SFcompare (Prim2SF a) (Prim2SF b)) as [[]|]; cbn; congruence.
Qed.

(** [Math.max(1, b)] is never below 1, also when it is NaN. *)
Lemma Math_max_1 (b : number) : lt (Math_max 1%float b) 1%float = false.
Proof.
  unfold Math_max. change (PrimFloat.is_nan 1%float) with false. cbv iota.
  destruct (PrimFloat.is_nan b) eqn:Hnan; [now apply nan_lt|].
  destruct (PrimFloat.ltb 1%float b) eqn:Hlt; [now apply lt_asym | reflexivity].
Qed.

(** [<] is transitive and irreflexive. *)
Lemma SFcompare_lt_trans (a b c : SpecFloat.spec_float) :
  SpecFloat.SFcompare a b = Some Lt -> SpecFloat.SFcompare b c = Some Lt ->
  SpecFloat.SFcompare a c = Some Lt.
Proof.
  destruct a as [[]|[]| |[] ma ea], b as [[]|[]| |[] mb eb], c as [[]|[]| |[] mc ec];
    cbn; try congruence;
    change (Pos.compare_cont Eq ?p ?q) with (Pos.compare p q);
    destruct (Z.compare_spec ea eb), (Z.compare_spec eb ec), (Z.compare_spec ea ec);
    cbn; try congruence; try lia;
    destruct (Pos.compare_spec ma mb), (Pos.compare_spec mb mc), (Pos.compare_spec ma mc);
    cbn; try congruence; lia.
Qed.

Lemma lt_trans (a b c : number) : lt a b = true -> lt b c = true -> lt a c = true.
Proof.
  unfold lt. rewrite !FloatAxioms.ltb_spec. unfold SpecFloat.SFltb.
  destruct (SpecFloat.SFcompare (Prim2SF a) (Prim2SF b)) as [[]|] eqn:Hab; try discriminate.
  destruct (SpecFloat.SFcompare (Prim2SF b) (Prim2SF c)) as [[]|] eqn:Hbc; try discriminate.
  now rewrite (SFcompare_lt_trans _ _ _ Hab Hbc).
Qed.

Lemma lt_irrefl (a : number) : lt a a = false.
Proof.
  destruct (lt a a) eqn:Hlt; [|reflexivity]. now rewrite (lt_asym a a Hlt) in Hlt.
Qed.

(** A JavaScript string is a sequence of UTF-16 code units.  The model
    holds a string by its UTF-8 encoding, the form of Rocq's string
    literals (a lone surrogate by the three bytes of its code point):
    [===] and [+] agree on the two forms, [length] does not.
    [String_length text] is [text.length], the number of UTF-16 code
    units: a byte that opens a sequence of one, two or three bytes stands
    for one code unit, a byte that opens a sequence of four bytes for the
    two code units of a surrogate pair, a continuation byte for none. *)
Definition code_units (byte : Ascii.ascii) : nat :=
  match byte with
  | Ascii.Ascii _ _ _ _ _ _ _ false => 1
  | Ascii.Ascii _ _ _ _ _ _ false true => 0
  | Ascii.Ascii _ _ _ _ true true true true => 2
  | Ascii.Ascii _ _ _ _ _ _ true true => 1
  end.

Fixpoint String_length (text : string) : nat :=
  match text with
  | EmptyString => 0
  | String byte rest => code_units byte + String_length rest
  end.

(** "Köln" has four code units in five bytes, a character beyond the
    basic plane two code units in four bytes. *)
Example String_length_examples :
  (String_length "Main Street", String_length "Köln", String.length "Köln",
   String_length "日本", String_length "𝄞")
  = (11, 4, 5, 2, 2)%nat.
Proof. reflexivity. Qed.

Lemma String_length_app (a b : string) :
  String_length (a ++ b) = (String_length a + String_length b)%nat.
Proof.
  induction a as [|byte a IH]; [reflexivity|].
  change (String_length (String byte (a ++ b))
          = (code_units byte + String_length a + String_length b)%nat).
  cbn [String_length]. rewrite IH. lia.
Qed.

(** For a text of ASCII characters it is the number of characters. *)
Lemma String_length_ascii (text : string) :
  Forall (fun byte => (Ascii.nat_of_ascii byte < 128)%nat) (list_ascii_of_string text) ->
  String_length text = String.length text.
Proof.
  induction text as [|byte rest IH]; cbn [list_ascii_of_string String_length String.length];
    [reflexivity|].
  intros Hall. apply Forall_cons in Hall. destruct Hall as [Hbyte Hrest].
  rewrite (IH Hrest).
  destruct byte as [b0 b1 b2 b3 b4 b5 b6 [|]]; [|now destruct b4, b5, b6].
  exfalso. revert Hbyte. destruct b0, b1, b2, b3, b4, b5, b6; vm_compute; lia.
Qed.

End JS.

(** ** The decoder's emitter *)

Module OmvDecodedTileEmitter.
Import JS.

(** *** Data of the datasource protocol *)

(** [GeometryType], the kinds of geometry a decoded tile carries. *)
Inductive GeometryType : Set :=
| Point | Line | SolidLine | Polygon | ExtrudedLine | ExtrudedPolygon.

#[global] Instance GeometryType_eq_dec : EqDecision GeometryType.
Proof. solve_decision. Defined.

(** The names of the techniques of a style.  The predicates
    [isTextTechnique], [isPoiTechnique], ... of the datasource protocol
    test the technique's [name]. *)
Inductive TechniqueName : Set :=
| line_technique | solid_line_technique | dashed_line_technique | text_technique
| labeled_icon_technique | line_marker_technique | extruded_line_technique
| fill_technique | extruded_polygon_technique | standard_technique
| squares_technique | circles_technique | none_technique.

#[global] Instance TechniqueName_eq_dec : EqDecision TechniqueName.
Proof. solve_decision. Defined.

(** A [Value] of a feature's environment. *)
Inductive Value : Type :=
| VString (s : string)
| VNumber (n : number)
| VBoolean (b : bool)
| VNull.

(** [env.entries]: the attributes of a feature. *)
Definition ValueMap : Type := list (string * Value).

Record MapEnv : Type := mkMapEnv { entries : ValueMap }.

Fixpoint lookup_entry (key : string) (m : ValueMap) : option Value :=
  match m with
  | [] => None
  | (k, v) :: m' => if String.eqb k key then Some v else lookup_entry key m'
  end.

(** [env.lookup(name)]. *)
Definition env_lookup (env : MapEnv) (name : string) : option Value :=
  lookup_entry name (entries env).

(** The fields of an [IndexedTechnique] that the emitter reads. *)
Record Technique : Type := mkTechnique {
  name : TechniqueName;
  _index : Z;
  label : option string;
  useAbbreviation : bool;
  useIsoCode : bool;
  imageTexture : option string;
  imageTextureField : option string;
  imageTexturePrefix : option string;
  imageTexturePostfix : option string;
  lineWidth : option number;
  caps : option string;
  renderOrderBiasProperty : option string;
  transient : bool;
  boundaryWalls : option bool
}.

Definition isTextTechnique (t : Technique) : bool := bool_decide (name t = text_technique).
Definition isPoiTechnique (t : Technique) : bool := bool_decide (name t = labeled_icon_technique).
Definition isLineMarkerTechnique (t : Technique) : bool := bool_decide (name t = line_marker_technique).
Definition isExtrudedLineTechnique (t : Technique) : bool := bool_decide (name t = extruded_line_technique).
Definition isExtrudedPolygonTechnique (t : Technique) : bool :=
  bool_decide (name t = extruded_polygon_technique).
Definition isFillTechnique (t : Technique) : bool := bool_decide (name t = fill_technique).
Definition isStandardTechnique (t : Technique) : bool :=
  bool_decide (name t = standard_technique).

(** A group of a geometry: a range of the index buffer drawn with one
    technique. *)
Record Group : Type := mkGroup {
  start : number;
  count : number;
  technique : Z;
  featureId : option number;
  renderOrderOffset : option number
}.

(** Typed arrays: the numbers they were built from (the conversion to 32
    bit is the consumer's). *)
Inductive ArrayBuffer : Type :=
| Float32Array (elements : list number)
| Uint32Array (elements : list number).

Record BufferAttribute : Type := mkBufferAttribute {
  attr_name : string;
  buffer : ArrayBuffer;
  itemCount : Z;
  attr_type : string
}.

Record InterleavedBufferAttribute : Type := mkInterleavedBufferAttribute {
  ia_type : string;
  ia_stride : number;
  ia_buffer : ArrayBuffer;
  ia_attributes : list string
}.

Record Geometry : Type := mkGeometry {
  geo_type : GeometryType;
  vertexAttributes : list BufferAttribute;
  interleavedVertexAttributes : list InterleavedBufferAttribute;
  geo_groups : list Group;
  index : option BufferAttribute;
  edgeIndex : option BufferAttribute;
  geo_featureIds : option (list (option number));
  geo_featureStarts : option (list number);
  geo_objInfos : option (list ValueMap)
}.

Record TextGeometry : Type := mkTextGeometry {
  tg_positions : BufferAttribute;
  tg_texts : list number;
  tg_technique : Z;
  tg_featureId : option number;
  tg_stringCatalog : list (option string);
  tg_objInfos : option (list ValueMap)
}.

Record PoiGeometry : Type := mkPoiGeometry {
  poi_positions : BufferAttribute;
  poi_texts : list number;
  poi_technique : Z;
  poi_featureId : option number;
  poi_stringCatalog : list (option string);
  poi_imageTextures : list number;
  poi_objInfos : option (list ValueMap)
}.

Record TextPathGeometry : Type := mkTextPathGeometry {
  tp_technique : Z;
  tp_path : list number;
  tp_pathLengthSqr : number;
  tp_text : string;
  tp_featureId : option number;
  tp_objInfos : option ValueMap
}.

(** *** Mesh buffers *)

(** [MeshBuffers]: the accumulator of one technique during a decode. *)
Record MeshBuffers : Type := mkMeshBuffers {
  mb_type : GeometryType;
  positions : list number;
  normals : list number;
  textureCoordinates : list number;
  colors : list number;
  extrusionAxis : list number;
  indices : list number;
  edgeIndices : list number;
  groups : list Group;
  texts : list number;
  stringCatalog : list (option string);
  imageTextures : list number;
  featureIds : list (option number);
  featureStarts : list number;
  objInfos : list ValueMap
}.

(** [new MeshBuffers(type)]. *)
Definition new_MeshBuffers (type : GeometryType) : MeshBuffers :=
  {| mb_type := type; positions := []; normals := []; textureCoordinates := [];
     colors := []; extrusionAxis := []; indices := []; edgeIndices := [];
     groups := []; texts := []; stringCatalog := []; imageTextures := [];
     featureIds := []; featureStarts := []; objInfos := [] |}.

(** [m_meshBuffers : Map<number, MeshBuffers>].  A JavaScript [Map]
    iterates in insertion order, which [createGeometries] observes, so the
    map is the list of its entries in that order, one per key. *)
Definition MeshBuffersMap : Type := list (Z * MeshBuffers).

Fixpoint map_get (index : Z) (m : MeshBuffersMap) : option MeshBuffers :=
  match m with
  | [] => None
  | (k, b) :: m' => if Z.eqb k index then Some b else map_get index m'
  end.

(** [map.set(index, buffers)]: an existing key keeps its place. *)
Fixpoint map_set (index : Z) (buffers : MeshBuffers) (m : MeshBuffersMap) : MeshBuffersMap :=
  match m with
  | [] => [(index, buffers)]
  | (k, b) :: m' =>
      if Z.eqb k index then (k, buffers) :: m' else (k, b) :: map_set index buffers m'
  end.

(** What the logger received. *)
Inductive LogEntry : Type :=
| log_error (message : string)
| log_warn (message : string).

(** [findOrCreateMeshBuffers(index, type)]: the buffers of the technique
    [index], created on first use; [undefined] (and an error in the log)
    when they exist with another geometry type.  The result is the map
    after the call, the log entries written, and the buffers returned. *)
Definition findOrCreateMeshBuffers (index : Z) (type : GeometryType) (m : MeshBuffersMap)
  : MeshBuffersMap * list LogEntry * option MeshBuffers :=
  match map_get index m with
  | Some buffers =>
      if bool_decide (mb_type buffers <> type)
      then (m, [log_error "MeshBuffer has been created with wrong type"], None)
      else (m, [], Some buffers)
  | None =>
      let buffers := new_MeshBuffers type in
      (map_set index buffers m, [], Some buffers)
  end.

(** A decode session as far as the mesh buffers go: a sequence of calls
    [findOrCreateMeshBuffers(index, type)], each followed by the caller
    filling the arrays of the buffers it got, which never touches their
    [type] (a [readonly] field).  [fill] is what the caller writes. *)
Definition retype_free (fill : MeshBuffers -> MeshBuffers) : Prop :=
  forall b, mb_type (fill b) = mb_type b.

Definition session_step (fill : Z -> MeshBuffers -> MeshBuffers)
    (m : MeshBuffersMap) (call : Z * GeometryType) : MeshBuffersMap :=
  match findOrCreateMeshBuffers (fst call) (snd call) m with
  | (m', _, Some buffers) => map_set (fst call) (fill (fst call) buffers) m'
  | (m', _, None) => m'
  end.

Definition session (fill : Z -> MeshBuffers -> MeshBuffers)
    (calls : list (Z * GeometryType)) (m : MeshBuffersMap) : MeshBuffersMap :=
  fold_left (session_step fill) calls m.

(** The type the map holds for a technique index. *)
Definition stored_type (index : Z) (m : MeshBuffersMap) : option GeometryType :=
  mb_type <$> map_get index m.

(** The geometry type of the first call for [index] in a session. *)
Fixpoint first_requested_type (index : Z) (calls : list (Z * GeometryType))
  : option GeometryType :=
  match calls with
  | [] => None
  | (i, ty) :: calls' => if Z.eqb i index then Some ty else first_requested_type index calls'
  end.

(** *** Mesh buffers: the geometry type of a technique index is fixed *)

Lemma map_get_set_eq (i : Z) (b : MeshBuffers) (m : MeshBuffersMap) :
  map_get i (map_set i b m) = Some b.
Proof.
  induction m as [|[k b'] m IH]; cbn.
  - now rewrite Z.eqb_refl.
  - destruct (Z.eqb k i) eqn:E; cbn; rewrite E; [reflexivity | exact IH].
Qed.

Lemma map_get_set_ne (i j : Z) (b : MeshBuffers) (m : MeshBuffersMap) :
  i <> j -> map_get j (map_set i b m) = map_get j m.
Proof.
  intros Hne. induction m as [|[k b'] m IH]; cbn.
  - destruct (Z.eqb i j) eqn:E; [apply Z.eqb_eq in E; contradiction | reflexivity].
  - destruct (Z.eqb k i) eqn:E; cbn.
    + apply Z.eqb_eq in E. subst k.
      destruct (Z.eqb i j) eqn:E'; [apply Z.eqb_eq in E'; contradiction | reflexivity].
    + destruct (Z.eqb k j); [reflexivity | exact IH].
Qed.

Lemma stored_type_set_eq (i : Z) (b : MeshBuffers) (m : MeshBuffersMap) :
  stored_type i (map_set i b m) = Some (mb_type b).
Proof. unfold stored_type. now rewrite map_get_set_eq. Qed.

Lemma stored_type_set_ne (i j : Z) (b : MeshBuffers) (m : MeshBuffersMap) :
  i <> j -> stored_type j (map_set i b m) = stored_type j m.
Proof. intros H. unfold stored_type. now rewrite map_get_set_ne. Qed.

(** One call: what is returned has the requested type and is what the map
    holds; a refusal leaves the map as it was; the buffers stored before
    the call stay as they are. *)
Lemma findOrCreateMeshBuffers_spec (index : Z) (type : GeometryType) (m : MeshBuffersMap) :
  match findOrCreateMeshBuffers index type m with
  | (m', _, Some buffers) =>
      mb_type buffers = type /\ map_get index m' = Some buffers
      /\ (forall j, j <> index -> map_get j m' = map_get j m)
      /\ (forall b0, map_get index m = Some b0 -> b0 = buffers)
  | (m', _, None) =>
      m' = m /\ exists b0, map_get index m = Some b0 /\ mb_type b0 <> type
  end.
Proof.
  unfold findOrCreateMeshBuffers.
  destruct (map_get index m) as [b0|] eqn:Hget.
  - destruct (bool_decide (mb_type b0 <> type)) eqn:Hty.
    + apply bool_decide_eq_true in Hty. split; [reflexivity|]. now exists b0.
    + apply bool_decide_eq_false in Hty.
      split; [destruct (decide (mb_type b0 = type)); [assumption | contradiction]|].
      split; [assumption|]. split; [reflexivity | congruence].
  - split; [reflexivity|]. split; [apply map_get_set_eq|].
    split; [|discriminate].
    intros j Hne. apply map_get_set_ne. congruence.
Qed.

Lemma session_step_stored_type (fill : Z -> MeshBuffers -> MeshBuffers)
    (m : MeshBuffersMap) (call : Z * GeometryType) (index : Z) :
  (forall i, retype_free (fill i)) ->
  stored_type index (session_step fill m call)
  = match stored_type index m with
    | Some t => Some t
    | None => if Z.eqb (fst call) index then Some (snd call) else None
    end.
Proof.
  intros Hfill. destruct call as [i ty]. unfold session_step. cbn [fst snd].
  pose proof (findOrCreateMeshBuffers_spec i ty m) as Hspec.
  destruct (findOrCreateMeshBuffers i ty m) as [[m' lg] [b|]].
  - destruct Hspec as (Hty & Hget & Hother & Hsame).
    destruct (Z.eqb i index) eqn:E.
    + apply Z.eqb_eq in E. subst index.
      rewrite stored_type_set_eq, Hfill, Hty.
      unfold stored_type. destruct (map_get i m) as [b0|] eqn:Hb0; cbn; [|reflexivity].
      specialize (Hsame b0 eq_refl). congruence.
    + apply Z.eqb_neq in E. rewrite stored_type_set_ne by assumption.
      unfold stored_type. rewrite Hother by congruence.
      now destruct (map_get index m).
  - destruct Hspec as (-> & b0 & Hb0 & Hne).
    destruct (stored_type index m) eqn:Hst; [reflexivity|].
    destruct (Z.eqb i index) eqn:E; [|reflexivity].
    apply Z.eqb_eq in E. subst index. unfold stored_type in Hst.
    rewrite Hb0 in Hst. discriminate.
Qed.

Lemma session_stored_type (fill : Z -> MeshBuffers -> MeshBuffers)
    (calls : list (Z * GeometryType)) (m : MeshBuffersMap) (index : Z) :
  (forall i, retype_free (fill i)) ->
  stored_type index (session fill calls m)
  = match stored_type index m with
    | Some t => Some t
    | None => first_requested_type index calls
    end.
Proof.
  intros Hfill. revert m. unfold session.
  induction calls as [|[i ty] calls IH]; intros m.
  - cbn [fold_left]. now destruct (stored_type index m).
  - cbn [fold_left]. rewrite IH.
    rewrite (session_step_stored_type fill m (i, ty) index Hfill). cbn [fst snd].
    destruct (stored_type index m); [reflexivity|].
    cbn [first_requested_type]. now destruct (Z.eqb i index).
Qed.

(** C10.  Within a decode session the geometry type of the mesh buffers of
    a technique index is fixed by the first [findOrCreateMeshBuffers] call
    for that index: whatever calls follow, the map holds the type of the
    first one (or the type it held before the session).  A call returns
    buffers of exactly the requested type, and they are the ones the map
    holds; a call for an index whose buffers have another type returns
    [undefined], writes an error to the log and leaves the map, and so the
    stored buffers and their type, unchanged. *)
Theorem meshBuffers_type_fixed (fill : Z -> MeshBuffers -> MeshBuffers)
    (calls : list (Z * GeometryType)) (m : MeshBuffersMap) (index : Z)
    (type : GeometryType) :
  (forall i, retype_free (fill i)) ->
  stored_type index (session fill calls m)
    = match stored_type index m with
      | Some t => Some t
      | None => first_requested_type index calls
      end
  /\ match findOrCreateMeshBuffers index type (session fill calls m) with
     | (m', _, Some buffers) =>
         mb_type buffers = type /\ map_get index m' = Some buffers
         /\ stored_type index m' = Some type
     | (m', lg, None) =>
         m' = session fill calls m /\ lg <> []
         /\ exists t, stored_type index m' = Some t /\ t <> type
     end.
Proof.
  intros Hfill. split; [now apply session_stored_type|].
  pose proof (findOrCreateMeshBuffers_spec index type (session fill calls m)) as Hspec.
  unfold findOrCreateMeshBuffers in *.
  destruct (map_get index (session fill calls m)) as [b0|] eqn:Hget.
  - destruct (bool_decide (mb_type b0 <> type)) eqn:Hty.
    + destruct Hspec as (_ & b1 & Hb1 & Hne).
      split; [reflexivity|]. split; [discriminate|].
      exists (mb_type b1). unfold stored_type. rewrite Hget.
      split; [cbn; congruence | assumption].
    + destruct Hspec as (Ht & Hg & _). split; [assumption|]. split; [assumption|].
      unfold stored_type. rewrite Hg. cbn. now rewrite Ht.
  - destruct Hspec as (Ht & Hg & _). split; [assumption|]. split; [assumption|].
    unfold stored_type. rewrite Hg. reflexivity.
Qed.

(** A session that asks for the buffers of technique 7 as polygon, then as
    extruded polygon (refused), then for technique 2 as point. *)
Definition example_calls : list (Z * GeometryType) :=
  [(7, Polygon); (7, ExtrudedPolygon); (2, Point)].

Definition example_fill (i : Z) (b : MeshBuffers) : MeshBuffers :=
  {| mb_type := mb_type b; positions := positions b ++ [0; 0; 0]%float;
     normals := normals b; textureCoordinates := textureCoordinates b;
     colors := colors b; extrusionAxis := extrusionAxis b; indices := indices b;
     edgeIndices := edgeIndices b; groups := groups b; texts := texts b;
     stringCatalog := stringCatalog b; imageTextures := imageTextures b;
     featureIds := featureIds b; featureStarts := featureStarts b;
     objInfos := objInfos b |}.

Lemma meshBuffers_type_fixed_witness :
  stored_type 7 (session example_fill example_calls []) = Some Polygon
  /\ snd (findOrCreateMeshBuffers 7 ExtrudedPolygon (session example_fill example_calls []))
     = None.
Proof.
  pose proof (meshBuffers_type_fixed example_fill example_calls [] 7 ExtrudedPolygon
                (fun i b => eq_refl)) as [H1 H2].
  split; [exact H1 | reflexivity].
Defined.

(** *** The emitter's state and its computations *)

(** A [LineGroup] of harp-lines, as far as the emitter reads it. *)
Record LineGroup : Type := mkLineGroup {
  lg_vertices : list number;
  lg_indices : list number;
  lg_stride : number;
  lg_vertexAttributes : list string
}.

Record LinesGeometry : Type := mkLinesGeometry {
  lines_type : GeometryType;
  lines_lines : LineGroup;
  lines_technique : Z;
  lines_renderOrderOffset : option number;
  lines_featureIds : option (list (option number));
  lines_featureStarts : option (list number)
}.

(** The mutable members of [OmvDecodedTileEmitter], and the log. *)
Record Emitter : Type := mkEmitter {
  m_meshBuffers : MeshBuffersMap;
  m_geometries : list Geometry;
  m_textGeometries : list TextGeometry;
  m_textPathGeometries : list TextPathGeometry;
  m_poiGeometries : list PoiGeometry;
  m_simpleLines : list LinesGeometry;
  m_solidLines : list LinesGeometry;
  m_dashedLines : list LinesGeometry;
  m_sources : list string;
  m_log : list LogEntry
}.

Definition new_Emitter : Emitter :=
  {| m_meshBuffers := []; m_geometries := []; m_textGeometries := [];
     m_textPathGeometries := []; m_poiGeometries := []; m_simpleLines := [];
     m_solidLines := []; m_dashedLines := []; m_sources := []; m_log := [] |}.

Definition set_meshBuffers (f : MeshBuffersMap -> MeshBuffersMap) (e : Emitter) : Emitter :=
  {| m_meshBuffers := f (m_meshBuffers e); m_geometries := m_geometries e;
     m_textGeometries := m_textGeometries e;
     m_textPathGeometries := m_textPathGeometries e;
     m_poiGeometries := m_poiGeometries e; m_simpleLines := m_simpleLines e;
     m_solidLines := m_solidLines e; m_dashedLines := m_dashedLines e;
     m_sources := m_sources e; m_log := m_log e |}.

Definition push_geometry (g : Geometry) (e : Emitter) : Emitter :=
  {| m_meshBuffers := m_meshBuffers e; m_geometries := m_geometries e ++ [g];
     m_textGeometries := m_textGeometries e;
     m_textPathGeometries := m_textPathGeometries e;
     m_poiGeometries := m_poiGeometries e; m_simpleLines := m_simpleLines e;
     m_solidLines := m_solidLines e; m_dashedLines := m_dashedLines e;
     m_sources := m_sources e; m_log := m_log e |}.

Definition push_textGeometry (g : TextGeometry) (e : Emitter) : Emitter :=
  {| m_meshBuffers := m_meshBuffers e; m_geometries := m_geometries e;
     m_textGeometries := m_textGeometries e ++ [g];
     m_textPathGeometries := m_textPathGeometries e;
     m_poiGeometries := m_poiGeometries e; m_simpleLines := m_simpleLines e;
     m_solidLines := m_solidLines e; m_dashedLines := m_dashedLines e;
     m_sources := m_sources e; m_log := m_log e |}.

Definition push_textPathGeometry (g : TextPathGeometry) (e : Emitter) : Emitter :=
  {| m_meshBuffers := m_meshBuffers e; m_geometries := m_geometries e;
     m_textGeometries := m_textGeometries e;
     m_textPathGeometries := m_textPathGeometries e ++ [g];
     m_poiGeometries := m_poiGeometries e; m_simpleLines := m_simpleLines e;
     m_solidLines := m_solidLines e; m_dashedLines := m_dashedLines e;
     m_sources := m_sources e; m_log := m_log e |}.

Definition push_poiGeometry (g : PoiGeometry) (e : Emitter) : Emitter :=
  {| m_meshBuffers := m_meshBuffers e; m_geometries := m_geometries e;
     m_textGeometries := m_textGeometries e;
     m_textPathGeometries := m_textPathGeometries e;
     m_poiGeometries := m_poiGeometries e ++ [g]; m_simpleLines := m_simpleLines e;
     m_solidLines := m_solidLines e; m_dashedLines := m_dashedLines e;
     m_sources := m_sources e; m_log := m_log e |}.

Definition set_lines (simple solid dashed : list LinesGeometry) (e : Emitter) : Emitter :=
  {| m_meshBuffers := m_meshBuffers e; m_geometries := m_geometries e;
     m_textGeometries := m_textGeometries e;
     m_textPathGeometries := m_textPathGeometries e;
     m_poiGeometries := m_poiGeometries e; m_simpleLines := simple;
     m_solidLines := solid; m_dashedLines := dashed;
     m_sources := m_sources e; m_log := m_log e |}.

Definition push_source (source : string) (e : Emitter) : Emitter :=
  {| m_meshBuffers := m_meshBuffers e; m_geometries := m_geometries e;
     m_textGeometries := m_textGeometries e;
     m_textPathGeometries := m_textPathGeometries e;
     m_poiGeometries := m_poiGeometries e; m_simpleLines := m_simpleLines e;
     m_solidLines := m_solidLines e; m_dashedLines := m_dashedLines e;
     m_sources := m_sources e ++ [source]; m_log := m_log e |}.

Definition push_log (entries : list LogEntry) (e : Emitter) : Emitter :=
  {| m_meshBuffers := m_meshBuffers e; m_geometries := m_geometries e;
     m_textGeometries := m_textGeometries e;
     m_textPathGeometries := m_textPathGeometries e;
     m_poiGeometries := m_poiGeometries e; m_simpleLines := m_simpleLines e;
     m_solidLines := m_solidLines e; m_dashedLines := m_dashedLines e;
     m_sources := m_sources e; m_log := m_log e ++ entries |}.

(** A method of the emitter: it runs on the emitter's state, changes it,
    and either returns or throws.  What was changed before a throw stays
    changed, as in JavaScript. *)
Definition M (A : Type) : Type := Emitter -> Completion A * Emitter.

Definition ret {A} (a : A) : M A := fun e => (Normal a, e).

Definition bind {A B} (c : M A) (k : A -> M B) : M B :=
  fun e =>
    match c e with
    | (Normal a, e') => k a e'
    | (Throw msg, e') => (Throw msg, e')
    end.

Definition throw {A} (message : string) : M A := fun e => (Throw message, e).

Definition modify (f : Emitter -> Emitter) : M unit := fun e => (Normal tt, f e).

Definition read {A} (f : Emitter -> A) : M A := fun e => (Normal (f e), e).

Definition lift {A} (c : Completion A) : M A := fun e => (c, e).

(** [try { body } catch (err) { handler(err) }]. *)
Definition try_catch {A} (body : M A) (handler : string -> M A) : M A :=
  fun e =>
    match body e with
    | (Normal a, e') => (Normal a, e')
    | (Throw msg, e') => handler msg e'
    end.

Declare Scope emitter_scope.
Delimit Scope emitter_scope with emitter.
Notation "x <- c ;; k" := (bind c (fun x => k))
  (at level 100, c at next level, right associativity) : emitter_scope.
Notation "c ;;; k" := (bind c (fun _ => k))
  (at level 100, right associativity) : emitter_scope.

(** [for (const x of xs) body(x)] and [xs.forEach(body)]: a throw of the
    body ends the loop and propagates. *)
Fixpoint for_each {A} (xs : list A) (body : A -> M unit) : M unit :=
  match xs with
  | [] => ret tt
  | x :: xs' => bind (body x) (fun _ => for_each xs' body)
  end.

Definition when (b : bool) (c : M unit) : M unit := if b then c else ret tt.

(** The result of a decode. *)
Record DecodedTile : Type := mkDecodedTile {
  dt_techniques : option (list (option Technique));
  dt_geometries : list Geometry;
  dt_textGeometries : option (list TextGeometry);
  dt_poiGeometries : option (list PoiGeometry);
  dt_textPathGeometries : option (list TextPathGeometry);
  dt_copyrightHolderIds : option (list string)
}.

Definition nonempty {A} (l : list A) : bool :=
  match l with [] => false | _ => true end.

Definition some_if_nonempty {A} (l : list A) : option (list A) :=
  if nonempty l then Some l else None.

(** [array[i]] for an index that is a number: [undefined] outside the
    array, and for a hole of a sparse array. *)
Definition element_at {A} (l : list (option A)) (i : Z) : option A :=
  if Z.ltb i 0 then None else mjoin (l !! Z.to_nat i).

Definition set_groups (gs : list Group) (b : MeshBuffers) : MeshBuffers :=
  {| mb_type := mb_type b; positions := positions b; normals := normals b;
     textureCoordinates := textureCoordinates b; colors := colors b;
     extrusionAxis := extrusionAxis b; indices := indices b;
     edgeIndices := edgeIndices b; groups := gs; texts := texts b;
     stringCatalog := stringCatalog b; imageTextures := imageTextures b;
     featureIds := featureIds b; featureStarts := featureStarts b;
     objInfos := objInfos b |}.

(** *** Final geometry creation *)

Section GeometryCreation.

Local Open Scope emitter_scope.

(** [assert(condition, message)] of harp-utils, which is not among the
    sources: whether it returns or throws is the assertion's business. *)
Variable assert : bool -> string -> Completion unit.

(** [m_styleSetEvaluator.techniques], the technique catalog, and the
    option [m_gatherFeatureIds]. *)
Variable techniques : option (list (option Technique)).
Variable m_gatherFeatureIds : bool.

Definition position_attribute (positionElements : ArrayBuffer) : BufferAttribute :=
  {| attr_name := "position"; buffer := positionElements; itemCount := 3;
     attr_type := "float" |}.

(** An optional vertex attribute of [createGeometries]: present when the
    array is not empty, after the assertion on its length. *)
Definition optional_attribute (values : list number) (lengthMatches : bool)
    (message name : string) (items : Z) : M (list BufferAttribute) :=
  if nonempty values then
    lift (assert lengthMatches message) ;;;
    ret [ {| attr_name := name; buffer := Float32Array values; itemCount := items;
             attr_type := "float" |} ]
  else ret [].

Definition index_attribute (name : string) (values : list number) : option BufferAttribute :=
  if nonempty values then
    Some {| attr_name := name; buffer := Uint32Array values; itemCount := 1;
            attr_type := "uint32" |}
  else None.

(** The callback of [this.m_meshBuffers.forEach] in [createGeometries]. *)
Definition createGeometries_entry (entry : Z * MeshBuffers) : M unit :=
  let techniqueIdx := fst entry in
  let meshBuffers := snd entry in
  if Nat.eqb (length (positions meshBuffers)) 0 then ret tt (* nothing to do *)
  else
    match techniques with
    | None => throw "Invalid technique index"
    | Some catalog =>
      if Z.leb (Z.of_nat (length catalog)) techniqueIdx
      then throw "Invalid technique index"
      else
        match element_at catalog techniqueIdx with
        | None => ret tt
        | Some technique =>
          let positionElements := Float32Array (positions meshBuffers) in
          if nonempty (texts meshBuffers) && isTextTechnique technique then
            modify (push_textGeometry
              {| tg_positions := position_attribute positionElements;
                 tg_texts := texts meshBuffers;
                 tg_technique := techniqueIdx;
                 tg_featureId := mjoin (head (featureIds meshBuffers));
                 tg_stringCatalog := stringCatalog meshBuffers;
                 tg_objInfos :=
                   if m_gatherFeatureIds then Some (objInfos meshBuffers) else None |})
          else if nonempty (texts meshBuffers) && isPoiTechnique technique then
            modify (push_poiGeometry
              {| poi_positions := position_attribute positionElements;
                 poi_texts := texts meshBuffers;
                 poi_technique := techniqueIdx;
                 poi_featureId := mjoin (head (featureIds meshBuffers));
                 poi_stringCatalog := stringCatalog meshBuffers;
                 poi_imageTextures := imageTextures meshBuffers;
                 poi_objInfos := Some (objInfos meshBuffers) |})
          else
            (* a default group containing all the vertices *)
            let groups' :=
              if nonempty (groups meshBuffers) then groups meshBuffers
              else [ {| start := 0%float;
                        count := (of_nat (length (positions meshBuffers)) / 3)%float;
                        technique := techniqueIdx; featureId := None;
                        renderOrderOffset := None |} ] in
            modify (set_meshBuffers (map_set techniqueIdx (set_groups groups' meshBuffers))) ;;;
            let positionCount := length (positions meshBuffers) in
            normalAttr <- optional_attribute (normals meshBuffers)
              (Nat.eqb (length (normals meshBuffers)) positionCount)
              "length of normals buffer is different than the length of the position buffer"
              "normal" 3 ;;
            colorAttr <- optional_attribute (colors meshBuffers)
              (Nat.eqb (length (colors meshBuffers)) positionCount)
              "length of colors buffer is different than the length of the position buffer"
              "color" 3 ;;
            uvAttr <- optional_attribute (textureCoordinates meshBuffers)
              (PrimFloat.eqb (of_nat (length (textureCoordinates meshBuffers)) / 2)
                             (of_nat positionCount / 3))
              "length of textureCoordinates buffer is different than the length of theposition buffer"
              "uv" 2 ;;
            axisAttr <- optional_attribute (extrusionAxis meshBuffers)
              (Nat.eqb (length (extrusionAxis meshBuffers)) positionCount)
              "length of extrusionAxis buffer is different than the length of the position buffer"
              "extrusionAxis" 3 ;;
            modify (push_geometry
              {| geo_type := mb_type meshBuffers;
                 vertexAttributes :=
                   position_attribute positionElements
                     :: normalAttr ++ colorAttr ++ uvAttr ++ axisAttr;
                 interleavedVertexAttributes := [];
                 geo_groups := groups';
                 index := index_attribute "index" (indices meshBuffers);
                 edgeIndex := index_attribute "edgeIndex" (edgeIndices meshBuffers);
                 geo_featureIds :=
                   if m_gatherFeatureIds then Some (featureIds meshBuffers) else None;
                 geo_featureStarts :=
                   if m_gatherFeatureIds then Some (featureStarts meshBuffers) else None;
                 geo_objInfos :=
                   if m_gatherFeatureIds then Some (objInfos meshBuffers) else None |})
        end
    end.

(** [createGeometries()]: one step per entry of the map, in insertion
    order.  Each step changes the buffers of its own key only, so the
    entries are those the map has when the loop starts. *)
Definition createGeometries : M unit :=
  entries <- read m_meshBuffers ;;
  for_each entries createGeometries_entry.

(** The callback of [processLines] and [processSimpleLines]. *)
Definition lines_geometry (simple : bool) (linesGeometry : LinesGeometry) : Geometry :=
  let lg := lines_lines linesGeometry in
  {| geo_type := if simple then Line else SolidLine;
     vertexAttributes :=
       if simple then [position_attribute (Float32Array (lg_vertices lg))] else [];
     interleavedVertexAttributes :=
       if simple then []
       else [ {| ia_type := "float"; ia_stride := lg_stride lg;
                 ia_buffer := Float32Array (lg_vertices lg);
                 ia_attributes := lg_vertexAttributes lg |} ];
     geo_groups :=
       [ {| start := 0%float; count := of_nat (length (lg_indices lg));
            technique := lines_technique linesGeometry; featureId := None;
            renderOrderOffset := lines_renderOrderOffset linesGeometry |} ];
     index := Some {| attr_name := "index"; buffer := Uint32Array (lg_indices lg);
                      itemCount := 1; attr_type := "uint32" |};
     edgeIndex := None;
     geo_featureIds := if m_gatherFeatureIds then lines_featureIds linesGeometry else None;
     geo_featureStarts :=
       if m_gatherFeatureIds then lines_featureStarts linesGeometry else None;
     geo_objInfos := None |}.

Definition processLines (linesArray : list LinesGeometry) : M unit :=
  for_each linesArray (fun linesGeometry => modify (push_geometry (lines_geometry false linesGeometry))).

Definition processSimpleLines (linesArray : list LinesGeometry) : M unit :=
  for_each linesArray (fun linesGeometry => modify (push_geometry (lines_geometry true linesGeometry))).

(** [getDecodedTile()]: the end of a tile's decode. *)
Definition getDecodedTile : M DecodedTile :=
  createGeometries ;;;
  simpleLines <- read m_simpleLines ;;
  processSimpleLines simpleLines ;;;
  solidLines <- read m_solidLines ;;
  processLines solidLines ;;;
  dashedLines <- read m_dashedLines ;;
  processLines dashedLines ;;;
  e <- read id ;;
  ret {| dt_techniques := techniques;
         dt_geometries := m_geometries e;
         dt_textGeometries := some_if_nonempty (m_textGeometries e);
         dt_poiGeometries := some_if_nonempty (m_poiGeometries e);
         dt_textPathGeometries := some_if_nonempty (m_textPathGeometries e);
         dt_copyrightHolderIds := some_if_nonempty (m_sources e) |}.

End GeometryCreation.

(** *** An invalid technique index is fatal *)

Lemma for_each_throws {A} (xs : list A) (body : A -> M unit) (x : A) :
  In x xs ->
  (forall e, isThrow (fst (body x e)) = true) ->
  forall e, isThrow (fst (for_each xs body e)) = true.
Proof.
  intros Hin Hbody. induction xs as [|y xs IH]; intros e; [destruct Hin|].
  cbn [for_each]. unfold bind.
  destruct Hin as [->|Hin].
  - specialize (Hbody e). destruct (body x e) as [[u|msg] e']; [discriminate | reflexivity].
  - destruct (body y e) as [[u|msg] e']; [now apply IH | reflexivity].
Qed.

Lemma createGeometries_entry_throws (assert : bool -> string -> Completion unit)
    (techniques : option (list (option Technique))) (gather : bool)
    (techniqueIdx : Z) (meshBuffers : MeshBuffers) (e : Emitter) :
  positions meshBuffers <> [] ->
  match techniques with
  | None => True
  | Some catalog => Z.of_nat (length catalog) <= techniqueIdx
  end ->
  createGeometries_entry assert techniques gather (techniqueIdx, meshBuffers) e
  = (Throw "Invalid technique index", e).
Proof.
  intros Hpos Hidx. unfold createGeometries_entry. cbn [fst snd].
  destruct (positions meshBuffers) as [|p ps]; [contradiction|]. cbn [length Nat.eqb].
  destruct techniques as [catalog|]; [|reflexivity].
  apply Z.leb_le in Hidx. now rewrite Hidx.
Qed.

(** C8.  If, when the final geometries are created, a mesh buffer with at
    least one position belongs to a technique index outside the technique
    catalog (the index is at or beyond the catalog's length, or there is
    no catalog), [createGeometries] throws, and with it [getDecodedTile]:
    the decode of the tile ends with an error instead of a decoded tile;
    the buffer is neither skipped nor is the error caught. *)
Theorem invalid_technique_index_is_fatal (assert : bool -> string -> Completion unit)
    (techniques : option (list (option Technique))) (gather : bool)
    (e : Emitter) (techniqueIdx : Z) (meshBuffers : MeshBuffers) :
  In (techniqueIdx, meshBuffers) (m_meshBuffers e) ->
  positions meshBuffers <> [] ->
  match techniques with
  | None => True
  | Some catalog => Z.of_nat (length catalog) <= techniqueIdx
  end ->
  exists message e',
    createGeometries assert techniques gather e = (Throw message, e')
    /\ getDecodedTile assert techniques gather e = (Throw message, e').
Proof.
  intros Hin Hpos Hidx.
  assert (Hthrow : isThrow (fst (createGeometries assert techniques gather e)) = true).
  { unfold createGeometries, bind, read.
    apply (for_each_throws _ _ (techniqueIdx, meshBuffers) Hin).
    intros e0. now rewrite createGeometries_entry_throws. }
  unfold getDecodedTile. unfold bind at 1.
  destruct (createGeometries assert techniques gather e) as [[u|message] e'];
    [discriminate|].
  now exists message, e'.
Qed.

(** An emitter whose only mesh buffers, of technique index 5, hold one
    position, decoded against an empty technique catalog. *)
Definition example_orphan_buffers : MeshBuffers :=
  example_fill 5 (new_MeshBuffers Polygon).

Definition example_orphan_emitter : Emitter :=
  set_meshBuffers (fun _ => [(5, example_orphan_buffers)]) new_Emitter.

Lemma invalid_technique_index_is_fatal_witness :
  exists message e',
    createGeometries (fun _ _ => Normal tt) (Some []) true example_orphan_emitter
      = (Throw message, e')
    /\ getDecodedTile (fun _ _ => Normal tt) (Some []) true example_orphan_emitter
      = (Throw message, e').
Proof.
  apply (invalid_technique_index_is_fatal _ (Some []) true example_orphan_emitter
           5 example_orphan_buffers).
  - left. reflexivity.
  - discriminate.
  - cbn. lia.
Defined.

(** *** When the final geometries are created *)

(** What [createGeometries] makes of the buffers of a technique index:
    nothing, a text geometry, a POI geometry or a mesh geometry. *)
Inductive Output : Type := text_output | poi_output | mesh_output.

#[global] Instance Output_eq_dec : EqDecision Output.
Proof. solve_decision. Defined.

Definition output_of (catalog : list (option Technique)) (entry : Z * MeshBuffers)
  : option Output :=
  let meshBuffers := snd entry in
  if Nat.eqb (length (positions meshBuffers)) 0 then None
  else
    match element_at catalog (fst entry) with
    | None => None
    | Some technique =>
        Some (if nonempty (texts meshBuffers) && isTextTechnique technique then text_output
              else if nonempty (texts meshBuffers) && isPoiTechnique technique then poi_output
              else mesh_output)
    end.

Definition outputs_of (kind : Output) (catalog : list (option Technique))
    (entries : MeshBuffersMap) : nat :=
  length (List.filter (fun entry => bool_decide (output_of catalog entry = Some kind)) entries).

(** The conditions that [createGeometries] asserts on the arrays of mesh
    buffers, each for an array that is not empty. *)
Definition lengths_agree (meshBuffers : MeshBuffers) : bool :=
  let positionCount := length (positions meshBuffers) in
  (negb (nonempty (normals meshBuffers))
   || Nat.eqb (length (normals meshBuffers)) positionCount)
  && (negb (nonempty (colors meshBuffers))
      || Nat.eqb (length (colors meshBuffers)) positionCount)
  && (negb (nonempty (textureCoordinates meshBuffers))
      || PrimFloat.eqb (of_nat (length (textureCoordinates meshBuffers)) / 2)
                       (of_nat positionCount / 3))
  && (negb (nonempty (extrusionAxis meshBuffers))
      || Nat.eqb (length (extrusionAxis meshBuffers)) positionCount).

(** The sizes of the three lists that [createGeometries] appends to. *)
Definition emitted (e : Emitter) : nat * nat * nat :=
  (length (m_textGeometries e), length (m_poiGeometries e), length (m_geometries e)).

Definition emitted_plus (sizes : nat * nat * nat) (output : option Output) : nat * nat * nat :=
  match sizes, output with
  | (t, p, g), Some text_output => (S t, p, g)
  | (t, p, g), Some poi_output => (t, S p, g)
  | (t, p, g), Some mesh_output => (t, p, S g)
  | _, None => sizes
  end.

Lemma optional_attribute_passes (assert : bool -> string -> Completion unit)
    (values : list number) (lengthMatches : bool) (message name : string) (items : Z)
    (e : Emitter) :
  (forall msg, assert true msg = Normal tt) ->
  negb (nonempty values) || lengthMatches = true ->
  exists attrs, optional_attribute assert values lengthMatches message name items e
                = (Normal attrs, e).
Proof.
  intros Hassert Hok. unfold optional_attribute.
  destruct (nonempty values); cbn in Hok; [|now eexists].
  subst lengthMatches. unfold bind, lift. rewrite Hassert. now eexists.
Qed.

Lemma createGeometries_entry_emits (assert : bool -> string -> Completion unit)
    (catalog : list (option Technique)) (gather : bool) (entry : Z * MeshBuffers)
    (e : Emitter) :
  (forall msg, assert true msg = Normal tt) ->
  (positions (snd entry) <> [] ->
   fst entry < Z.of_nat (length catalog) /\ lengths_agree (snd entry) = true) ->
  exists e',
    createGeometries_entry assert (Some catalog) gather entry e = (Normal tt, e')
    /\ emitted e' = emitted_plus (emitted e) (output_of catalog entry)
    /\ (m_textPathGeometries e', m_simpleLines e', m_solidLines e', m_dashedLines e',
        m_sources e', m_log e')
       = (m_textPathGeometries e, m_simpleLines e, m_solidLines e, m_dashedLines e,
          m_sources e, m_log e).
Proof.
  intros Hassert Hpre. unfold createGeometries_entry, output_of.
  destruct entry as [techniqueIdx meshBuffers]. cbn [fst snd] in *.
  destruct (Nat.eqb (length (positions meshBuffers)) 0) eqn:Hempty.
  { exists e. now destruct e. }
  destruct Hpre as [Hidx Hlen]; [intros Hnil; now rewrite Hnil in Hempty|].
  apply Z.leb_gt in Hidx. rewrite Hidx.
  destruct (element_at catalog techniqueIdx) as [technique|]; [|exists e; now destruct e].
  destruct (nonempty (texts meshBuffers) && isTextTechnique technique).
  { eexists. split; [reflexivity|]. unfold emitted. cbn. rewrite length_app. cbn.
    rewrite Nat.add_1_r. now destruct e. }
  destruct (nonempty (texts meshBuffers) && isPoiTechnique technique).
  { eexists. split; [reflexivity|]. unfold emitted. cbn. rewrite length_app. cbn.
    rewrite Nat.add_1_r. now destruct e. }
  unfold lengths_agree in Hlen.
  apply andb_prop in Hlen. destruct Hlen as [Hlen Haxis].
  apply andb_prop in Hlen. destruct Hlen as [Hlen Huv].
  apply andb_prop in Hlen. destruct Hlen as [Hnormal Hcolor].
  unfold bind at 1. unfold modify at 1.
  set (e1 := set_meshBuffers _ e).
  unfold bind at 1.
  destruct (optional_attribute_passes assert (normals meshBuffers) _
              "length of normals buffer is different than the length of the position buffer"
              "normal" 3 e1 Hassert Hnormal) as [normalAttr ->].
  unfold bind at 1.
  destruct (optional_attribute_passes assert (colors meshBuffers) _
              "length of colors buffer is different than the length of the position buffer"
              "color" 3 e1 Hassert Hcolor) as [colorAttr ->].
  unfold bind at 1.
  destruct (optional_attribute_passes assert (textureCoordinates meshBuffers) _
              "length of textureCoordinates buffer is different than the length of theposition buffer"
              "uv" 2 e1 Hassert Huv) as [uvAttr ->].
  unfold bind at 1.
  destruct (optional_attribute_passes assert (extrusionAxis meshBuffers) _
              "length of extrusionAxis buffer is different than the length of the position buffer"
              "extrusionAxis" 3 e1 Hassert Haxis) as [axisAttr ->].
  eexists. split; [reflexivity|]. subst e1. unfold emitted. cbn. rewrite length_app. cbn.
  rewrite Nat.add_1_r. now destruct e.
Qed.

Lemma outputs_of_cons (kind : Output) (catalog : list (option Technique))
    (entry : Z * MeshBuffers) (entries : MeshBuffersMap) :
  outputs_of kind catalog (entry :: entries)
  = ((if bool_decide (output_of catalog entry = Some kind) then 1 else 0)
     + outputs_of kind catalog entries)%nat.
Proof.
  unfold outputs_of. cbn [List.filter].
  now destruct (bool_decide (output_of catalog entry = Some kind)).
Qed.

(** X6.  When every buffer that holds positions has a technique index
    below the length of the catalog and arrays that pass the length
    assertions, [createGeometries] returns normally and makes exactly one
    geometry of every such buffer whose technique is defined: a text
    geometry for a text technique with texts, a POI geometry for a POI
    technique with texts, a mesh geometry otherwise.  Buffers without
    positions and buffers of an undefined technique (a hole of the
    catalog, a negative index) give nothing; text paths, lines, sources
    and the log are not touched. *)
Theorem one_geometry_per_buffer (assert : bool -> string -> Completion unit)
    (catalog : list (option Technique)) (gather : bool) (e : Emitter) :
  (forall msg, assert true msg = Normal tt) ->
  Forall (fun entry => positions (snd entry) <> [] ->
            fst entry < Z.of_nat (length catalog) /\ lengths_agree (snd entry) = true)
         (m_meshBuffers e) ->
  exists e',
    createGeometries assert (Some catalog) gather e = (Normal tt, e')
    /\ emitted e' =
         ((length (m_textGeometries e) + outputs_of text_output catalog (m_meshBuffers e))%nat,
          (length (m_poiGeometries e) + outputs_of poi_output catalog (m_meshBuffers e))%nat,
          (length (m_geometries e) + outputs_of mesh_output catalog (m_meshBuffers e))%nat)
    /\ (m_textPathGeometries e', m_simpleLines e', m_solidLines e', m_dashedLines e',
        m_sources e', m_log e')
       = (m_textPathGeometries e, m_simpleLines e, m_solidLines e, m_dashedLines e,
          m_sources e, m_log e).
Proof.
  intros Hassert Hall. unfold createGeometries, bind, read.
  change (length (m_textGeometries e)) with (fst (fst (emitted e))).
  change (length (m_poiGeometries e)) with (snd (fst (emitted e))).
  change (length (m_geometries e)) with (snd (emitted e)).
  generalize dependent (m_meshBuffers e). intros entries. revert e.
  induction entries as [|entry rest IH]; intros e Hall; cbn [for_each].
  - exists e. split; [reflexivity|]. split; [|reflexivity].
    unfold outputs_of. cbn [List.filter length]. rewrite !Nat.add_0_r.
    now destruct (emitted e) as [[t p] g].
  - apply Forall_cons in Hall. destruct Hall as [Hentry Hrest].
    destruct (createGeometries_entry_emits assert catalog gather entry e Hassert Hentry)
      as (e1 & Hrun & Hsize & Hframe).
    destruct (IH e1 Hrest) as (e2 & Hrun2 & Hsize2 & Hframe2).
    exists e2. unfold bind. rewrite Hrun. split; [exact Hrun2|].
    split; [|congruence].
    rewrite Hsize2, Hsize, !outputs_of_cons.
    destruct (emitted e) as [[t p] g].
    destruct (output_of catalog entry) as [[]|]; repeat case_bool_decide; try congruence;
      cbn; repeat f_equal; lia.
Qed.

Definition example_text_technique : Technique :=
  {| name := text_technique; _index := 0; label := None; useAbbreviation := false;
     useIsoCode := false; imageTexture := None; imageTextureField := None;
     imageTexturePrefix := None; imageTexturePostfix := None; lineWidth := None;
     caps := None; renderOrderBiasProperty := None; transient := false;
     boundaryWalls := None |}.

(** Point buffers with one position and one text, for a text technique. *)
Definition example_text_buffers : MeshBuffers :=
  {| mb_type := Point; positions := [0%float; 0%float; 0%float]; normals := [];
     textureCoordinates := []; colors := []; extrusionAxis := []; indices := [];
     edgeIndices := []; groups := []; texts := [0%float]; stringCatalog := [Some "name"%string];
     imageTextures := [(-1)%float]; featureIds := []; featureStarts := [];
     objInfos := [] |}.

Definition example_text_emitter : Emitter :=
  set_meshBuffers (fun _ => [(0, example_text_buffers); (1, new_MeshBuffers Polygon)])
    new_Emitter.

Lemma one_geometry_per_buffer_witness :
  exists e',
    createGeometries (fun _ _ => Normal tt) (Some [Some example_text_technique]) true
      example_text_emitter = (Normal tt, e')
    /\ emitted e' = (1%nat, 0%nat, 0%nat)
    /\ (m_textPathGeometries e', m_simpleLines e', m_solidLines e', m_dashedLines e',
        m_sources e', m_log e')
       = ([], [], [], [], [], []).
Proof.
  apply (one_geometry_per_buffer (fun _ _ => Normal tt) [Some example_text_technique] true
           example_text_emitter).
  - reflexivity.
  - repeat constructor; cbn; try lia; try reflexivity; try contradiction.
Defined.

(** *** The decoded tile *)

Definition add_geometries (gs : list Geometry) (e : Emitter) : Emitter :=
  {| m_meshBuffers := m_meshBuffers e; m_geometries := m_geometries e ++ gs;
     m_textGeometries := m_textGeometries e;
     m_textPathGeometries := m_textPathGeometries e;
     m_poiGeometries := m_poiGeometries e; m_simpleLines := m_simpleLines e;
     m_solidLines := m_solidLines e; m_dashedLines := m_dashedLines e;
     m_sources := m_sources e; m_log := m_log e |}.

Lemma push_geometries {A} (f : A -> Geometry) (xs : list A) (e : Emitter) :
  for_each xs (fun x => modify (push_geometry (f x))) e
  = (Normal tt, add_geometries (map f xs) e).
Proof.
  revert e. induction xs as [|x xs IH]; intros e; cbn [for_each map].
  - unfold ret, add_geometries. rewrite app_nil_r. now destruct e.
  - unfold bind, modify. rewrite IH. unfold add_geometries, push_geometry. cbn.
    now rewrite <- app_assoc.
Qed.

(** X7.  [getDecodedTile] throws what [createGeometries] throws, before
    any line is turned into a geometry.  When [createGeometries] returns,
    the decoded tile lists the geometries of the mesh buffers first, then
    one geometry for every group of simple lines, of solid lines and of
    dashed lines, in this order and in the order of each list; the text,
    POI and text path geometries and the copyright holders are present
    exactly when they are not empty. *)
Theorem decoded_tile_contents (assert : bool -> string -> Completion unit)
    (techniques : option (list (option Technique))) (gather : bool) (e : Emitter) :
  match createGeometries assert techniques gather e with
  | (Normal _, e1) =>
      let lineGeometries :=
        map (lines_geometry gather true) (m_simpleLines e1)
        ++ map (lines_geometry gather false) (m_solidLines e1)
        ++ map (lines_geometry gather false) (m_dashedLines e1) in
      getDecodedTile assert techniques gather e
      = (Normal {| dt_techniques := techniques;
                   dt_geometries := m_geometries e1 ++ lineGeometries;
                   dt_textGeometries := some_if_nonempty (m_textGeometries e1);
                   dt_poiGeometries := some_if_nonempty (m_poiGeometries e1);
                   dt_textPathGeometries := some_if_nonempty (m_textPathGeometries e1);
                   dt_copyrightHolderIds := some_if_nonempty (m_sources e1) |},
         add_geometries lineGeometries e1)
      /\ length lineGeometries
         = (length (m_simpleLines e1) + length (m_solidLines e1)
            + length (m_dashedLines e1))%nat
  | (Throw message, e1) =>
      getDecodedTile assert techniques gather e = (Throw message, e1)
  end.
Proof.
  destruct (createGeometries assert techniques gather e) as [[[]|message] e1] eqn:Hcreate;
    unfold getDecodedTile; unfold bind at 1; rewrite Hcreate; [|reflexivity].
  cbv zeta. split; [|rewrite !length_app, !length_map; lia].
  unfold processSimpleLines, processLines, bind, read, ret.
  rewrite !push_geometries. unfold add_geometries. cbn.
  rewrite <- !app_assoc. reflexivity.
Qed.

(** *** Feature processing *)

Record Vector2 : Type := mkVector2 { v2_x : number; v2_y : number }.
Record Vector3 : Type := mkVector3 { v3_x : number; v3_y : number; v3_z : number }.

(** [ILineGeometry]: a polyline in tile-local coordinates. *)
Record ILineGeometry : Type := mkLineGeometry { line_positions : list Vector2 }.

(** [OmvDecoder.DecodeInfo], as far as the emitter reads it. *)
Record DecodeInfo : Type := mkDecodeInfo {
  tileKey_level : Z;
  tileSizeOnScreen : number;
  projectedTileBounds_min : Vector2;
  projectedTileBounds_max : Vector2;
  center : Vector3;
  isSpherical : bool
}.

Inductive TextureCoordinateType : Set :=
| TileSpace | EquirectangularSpace | FeatureSpace.

#[global] Instance TextureCoordinateType_eq_dec : EqDecision TextureCoordinateType.
Proof. solve_decision. Defined.

Inductive LineType : Set := Simple | Complex.

#[global] Instance LineType_eq_dec : EqDecision LineType.
Proof. solve_decision. Defined.

(** Minimum number of pixels per character, and the estimation "fudge
    factor" of the label filter. *)
Definition MIN_AVERAGE_CHAR_WIDTH : number := 5%float.
Definition SIZE_ESTIMATION_FACTOR : number := 0.5%float.

(** Used to identify an invalid (or better: unused) array index. *)
Definition INVALID_ARRAY_INDEX : number := (-1)%float.

(** The bounding box that the label filter computes for a line, a flat
    array of [x, y, z] triples: the loop
    [for (let i = 0; i < aLine.length; i += 3)] reads [aLine[i]] and
    [aLine[i + 1]]; a missing [y] is [undefined] and compares false. *)
Record BoundingBox : Type := mkBoundingBox {
  minX : number; maxX : number; minY : number; maxY : number
}.

Definition empty_box : BoundingBox :=
  {| minX := MAX_SAFE_INTEGER; maxX := MIN_SAFE_INTEGER;
     minY := MAX_SAFE_INTEGER; maxY := MIN_SAFE_INTEGER |}.

Definition extend_x (x : number) (box : BoundingBox) : BoundingBox :=
  {| minX := if lt x (minX box) then x else minX box;
     maxX := if gt x (maxX box) then x else maxX box;
     minY := minY box; maxY := maxY box |}.

Definition extend_y (y : number) (box : BoundingBox) : BoundingBox :=
  {| minX := minX box; maxX := maxX box;
     minY := if lt y (minY box) then y else minY box;
     maxY := if gt y (maxY box) then y else maxY box |}.

Fixpoint line_bounding_box (aLine : list number) (box : BoundingBox) : BoundingBox :=
  match aLine with
  | [] => box
  | [x] => extend_x x box
  | [x; y] => extend_y y (extend_x x box)
  | x :: y :: _ :: rest => line_bounding_box rest (extend_y y (extend_x x box))
  end.

(** The squared diagonal of the bounding box of a line. *)
Definition diagonal_sqr (aLine : list number) : number :=
  let box := line_bounding_box aLine empty_box in
  ((maxX box - minX box) * (maxX box - minX box)
   + (maxY box - minY box) * (maxY box - minY box))%float.

(** [minTileSpace] of [processLineFeature] for a label whose [length] is
    [textLength]. *)
Definition minTileSpace (tileSizeInMeters tileSizeOnScreen : number) (textLength : nat)
  : number :=
  let metersPerPixel := (tileSizeInMeters / tileSizeOnScreen)%float in
  (MIN_AVERAGE_CHAR_WIDTH * of_nat textLength * metersPerPixel * SIZE_ESTIMATION_FACTOR)%float.

(** The test that keeps a line for labelling. *)
Definition long_enough (threshold : number) (aLine : list number) : bool :=
  ge (diagonal_sqr aLine) (threshold * threshold)%float.

(** The filter loop: [validLines] collects the lines that pass. *)
Fixpoint filter_lines (threshold : number) (lines : list (list number))
    (validLines : list (list number)) : list (list number) :=
  match lines with
  | [] => validLines
  | aLine :: rest =>
      filter_lines threshold rest
        (if long_enough threshold aLine then validLines ++ [aLine] else validLines)
  end.

Definition push_buffers (i : Z) (f : MeshBuffers -> MeshBuffers) : M unit :=
  modify (set_meshBuffers (fun m =>
    match map_get i m with Some b => map_set i (f b) m | None => m end)).

(** [findOrCreateMeshBuffers] as a method: the map and the log are the
    emitter's. *)
Definition findOrCreateMeshBuffersM (index : Z) (type : GeometryType) : M (option MeshBuffers) :=
  fun e =>
    match findOrCreateMeshBuffers index type (m_meshBuffers e) with
    | (m', lg, r) => (Normal r, push_log lg (set_meshBuffers (fun _ => m') e))
    end.

(** *** The string catalog of mesh buffers *)

(** [stringCatalog.indexOf(text)]: the first index that holds the text. *)
Fixpoint indexOf (text : string) (catalog : list (option string)) : option nat :=
  match catalog with
  | [] => None
  | entry :: rest =>
      if bool_decide (entry = Some text) then Some 0%nat else S <$> indexOf text rest
  end.

Definition set_stringCatalog (catalog : list (option string)) (b : MeshBuffers) : MeshBuffers :=
  {| mb_type := mb_type b; positions := positions b; normals := normals b;
     textureCoordinates := textureCoordinates b; colors := colors b;
     extrusionAxis := extrusionAxis b; indices := indices b;
     edgeIndices := edgeIndices b; groups := groups b; texts := texts b;
     stringCatalog := catalog; imageTextures := imageTextures b;
     featureIds := featureIds b; featureStarts := featureStarts b;
     objInfos := objInfos b |}.

(** [meshBuffers.addText(text)]: the index of the text in the catalog,
    which gets the text appended if it does not hold it yet. *)
Definition addText (text : string) (b : MeshBuffers) : nat * MeshBuffers :=
  match indexOf text (stringCatalog b) with
  | Some index => (index, b)
  | None => (length (stringCatalog b), set_stringCatalog (stringCatalog b ++ [Some text]) b)
  end.

Lemma indexOf_Some (text : string) (catalog : list (option string)) (i : nat) :
  indexOf text catalog = Some i ->
  catalog !! i = Some (Some text) /\ forall j, (j < i)%nat -> catalog !! j <> Some (Some text).
Proof.
  revert i. induction catalog as [|entry rest IH]; intros i; cbn; [discriminate|].
  case_bool_decide as Hentry.
  - intros [= <-]. split; [now rewrite Hentry | intros j Hj; lia].
  - destruct (indexOf text rest) as [i'|]; cbn; [|discriminate].
    intros [= <-]. destruct (IH i' eq_refl) as [Hi Hbefore]. split; [exact Hi|].
    intros [|j] Hj; cbn; [congruence | apply Hbefore; lia].
Qed.

Lemma indexOf_None (text : string) (catalog : list (option string)) :
  indexOf text catalog = None <-> Some text ∉ catalog.
Proof.
  induction catalog as [|entry rest IH]; cbn.
  - split; [intros _; apply not_elem_of_nil | reflexivity].
  - rewrite not_elem_of_cons. case_bool_decide as Hentry.
    + split; [discriminate | intros [Hne _]; congruence].
    + destruct (indexOf text rest) as [i|]; cbn.
      * split; [discriminate|]. intros [_ Hnot]. now apply IH in Hnot.
      * split; [|reflexivity]. intros _. split; [congruence | now apply IH].
Qed.

Lemma indexOf_app_fresh (text : string) (catalog : list (option string)) :
  indexOf text catalog = None ->
  indexOf text (catalog ++ [Some text]) = Some (length catalog).
Proof.
  induction catalog as [|entry rest IH]; cbn.
  - intros _. now rewrite bool_decide_eq_true_2.
  - case_bool_decide; [discriminate|].
    destruct (indexOf text rest); cbn; [discriminate|]. intros _. now rewrite IH.
Qed.

(** X1.  [addText] returns an index at which the catalog holds the text,
    and it is the first such index; the entries that the catalog held stay
    where they are, so indices handed out earlier stay valid; adding the
    same text again returns the same index and changes nothing, so a
    catalog without duplicates stays without duplicates; nothing but the
    catalog is written. *)
Theorem addText_index (text : string) (b : MeshBuffers) :
  let index := fst (addText text b) in
  let b' := snd (addText text b) in
  stringCatalog b' !! index = Some (Some text)
  /\ (forall j, (j < index)%nat -> stringCatalog b' !! j <> Some (Some text))
  /\ (exists added, stringCatalog b' = stringCatalog b ++ added)
  /\ addText text b' = (index, b')
  /\ (NoDup (stringCatalog b) -> NoDup (stringCatalog b'))
  /\ b' = set_stringCatalog (stringCatalog b') b.
Proof.
  cbv zeta. unfold addText.
  destruct (indexOf text (stringCatalog b)) as [i|] eqn:Hfind; cbn [fst snd].
  - destruct (indexOf_Some _ _ _ Hfind) as [Hi Hbefore].
    split; [exact Hi|]. split; [exact Hbefore|].
    split; [exists []; now rewrite app_nil_r|].
    split; [now rewrite Hfind|]. split; [auto | now destruct b].
  - pose proof (indexOf_app_fresh _ _ Hfind) as Hnew.
    destruct (indexOf_Some _ _ _ Hnew) as [Hi Hbefore].
    split; [exact Hi|]. split; [exact Hbefore|].
    split; [now exists [Some text]|].
    split; [cbn [stringCatalog set_stringCatalog]; now rewrite Hnew|].
    split; [|reflexivity].
    intros Hnd. cbn. apply NoDup_app. split; [assumption|].
    split; [|apply NoDup_singleton].
    intros x Hx Hin. apply list_elem_of_singleton in Hin. subst x.
    now apply indexOf_None in Hfind.
Qed.




Section FeatureProcessing.

Local Open Scope emitter_scope.

(** The emitter's constructor arguments. *)
Variable m_decodeInfo : DecodeInfo.
Variable m_gatherFeatureIds : bool.
Variable m_skipShortLabels : bool.
Variable m_enableElevationOverlay : bool.
Variable m_languages : option (list string).

(** Collaborators that are not among the sources: the assertion of
    harp-utils, the projection of a tile-local position to the target
    world, the decoder's feature names, JavaScript's conversions between
    strings and numbers, the line length of [Math2D], the texture
    coordinate type of a technique, the equirectangular texture
    coordinates, [triangulateLine] and [LineGroup] of harp-lines. *)
Variable assert : bool -> string -> Completion unit.
Variable webMercatorTile2TargetWorld : number -> DecodeInfo -> Vector2 -> Vector3.
Variable getFeatureName : MapEnv -> bool -> bool -> option (list string) -> option string.
Variable String_of_number : number -> string.
Variable Number_of_string : string -> number.
Variable computeSquaredLineLength : list number -> number.
Variable textureCoordinateType : Technique -> option TextureCoordinateType.
Variable equirectangularTexCoords : DecodeInfo -> Vector2 -> number -> number * number.
Variable triangulateLine :
  list number -> number -> list number -> list number -> bool -> list number * list number.
Variable LineGroup_new : bool -> bool -> LineGroup.
Variable LineGroup_add : Vector3 -> list number -> option (list number) -> LineGroup -> LineGroup.

(** [String(value)] and [Number(value)]. *)
Definition String_ (v : Value) : string :=
  match v with
  | VString s => s
  | VNumber n => String_of_number n
  | VBoolean true => "true"
  | VBoolean false => "false"
  | VNull => "null"
  end.

Definition Number_ (v : Value) : number :=
  match v with
  | VString s => Number_of_string s
  | VNumber n => n
  | VBoolean true => 1%float
  | VBoolean false => 0%float
  | VNull => 0%float
  end.

Definition processFeatureCommon (env : MapEnv) : M unit :=
  match env_lookup env "source" with
  | Some (VString source) =>
      if negb (String.eqb source "") then
        sources <- read m_sources ;;
        when (negb (existsb (String.eqb source) sources)) (modify (push_source source))
      else ret tt
  | _ => ret tt
  end.

Definition getTextureCoordinateType (technique : Technique) : option TextureCoordinateType :=
  if (isFillTechnique technique
      || bool_decide (name technique = solid_line_technique)
      || bool_decide (name technique = dashed_line_technique)
      || isExtrudedPolygonTechnique technique)
     && m_enableElevationOverlay
  then Some TileSpace
  else textureCoordinateType technique.

(** [getComputeTexCoordsFunc]: the function is identified by the
    coordinate type it computes; [undefined] for the other types. *)
Definition getComputeTexCoordsFunc (technique : Technique) : option TextureCoordinateType :=
  match getTextureCoordinateType technique with
  | Some TileSpace => Some TileSpace
  | Some EquirectangularSpace => Some EquirectangularSpace
  | _ => None
  end.

Definition computeTexCoords (func : TextureCoordinateType) (tilePos : Vector2)
    (tileExtents : number) : number * number :=
  match func with
  | EquirectangularSpace => equirectangularTexCoords m_decodeInfo tilePos tileExtents
  | _ => ((v2_x tilePos / tileExtents)%float, (1 - v2_y tilePos / tileExtents)%float)
  end.

(** The first loop of [processLineFeature]: only one type of texture
    coordinates is supported, which an assertion checks. *)
Fixpoint selectTexCoords (techniques : list (option Technique))
    (computeTexCoords texCoordinateType : option TextureCoordinateType)
  : Completion (option TextureCoordinateType * option TextureCoordinateType) :=
  match techniques with
  | [] => Normal (computeTexCoords, texCoordinateType)
  | None :: rest => selectTexCoords rest computeTexCoords texCoordinateType
  | Some technique :: rest =>
      match computeTexCoords with
      | None =>
          selectTexCoords rest (getComputeTexCoordsFunc technique)
            (getTextureCoordinateType technique)
      | Some _ =>
          match assert (bool_decide (texCoordinateType = getTextureCoordinateType technique))
                  "" with
          | Normal _ => selectTexCoords rest computeTexCoords texCoordinateType
          | Throw msg => Throw msg
          end
      end
  end.

(** The world-space line and the texture coordinates of a polyline. *)
Definition world_line (extents : number) (polyline : ILineGeometry) : list number :=
  flat_map (fun pos =>
    let w := webMercatorTile2TargetWorld extents m_decodeInfo pos in
    [v3_x w; v3_y w; v3_z w]) (line_positions polyline).

Definition line_uvs (func : option TextureCoordinateType) (extents : number)
    (polyline : ILineGeometry) : list number :=
  match func with
  | None => []
  | Some f =>
      flat_map (fun pos => let uv := computeTexCoords f pos extents in [fst uv; snd uv])
        (line_positions polyline)
  end.

(** The label of a feature for a text, POI or line marker technique:
    [undefined], or the text converted with [String]. *)
Definition resolveText (env : MapEnv) (technique : Technique) : option string :=
  String_ <$>
    match label technique with
    | Some textLabel => env_lookup env textLabel
    | None =>
        VString <$> getFeatureName env (useAbbreviation technique) (useIsoCode technique)
                      m_languages
    end.

Definition tileSizeInMeters : number :=
  let tileWidth :=
    (v2_x (projectedTileBounds_max m_decodeInfo) - v2_x (projectedTileBounds_min m_decodeInfo))%float in
  let tileHeight :=
    (v2_y (projectedTileBounds_max m_decodeInfo) - v2_y (projectedTileBounds_min m_decodeInfo))%float in
  Math_max tileWidth tileHeight.

(** The threshold of the label filter for a text; [text.length] counts
    UTF-16 code units. *)
Definition label_threshold (text : string) : number :=
  minTileSpace tileSizeInMeters (tileSizeOnScreen m_decodeInfo) (String_length text).

(** [validLines]: with [m_skipShortLabels], the lines that are long enough
    for the label; all lines otherwise. *)
Definition validLines (text : string) (lines : list (list number)) : list (list number) :=
  if m_skipShortLabels then filter_lines (label_threshold text) lines [] else lines.

Definition textPathGeometry (techniqueIndex : Z) (text : string) (featureId : option number)
    (env : MapEnv) (aLine : list number) : TextPathGeometry :=
  {| tp_technique := techniqueIndex;
     tp_path := aLine;
     tp_pathLengthSqr := computeSquaredLineLength aLine;
     tp_text := text;
     tp_featureId := featureId;
     tp_objInfos := if m_gatherFeatureIds then Some (entries env) else None |}.

(** The image texture of a line marker: [imageTexture], or the value of
    [imageTextureField] with prefix and postfix (string concatenation
    turns a missing value into "undefined"). *)
Definition markerImageTexture (env : MapEnv) (technique : Technique) : option string :=
  match imageTextureField technique with
  | Some field =>
      let value := String_ <$> env_lookup env field in
      let withPrefix :=
        match imageTexturePrefix technique with
        | Some prefix => Some (prefix ++ default "undefined" value)%string
        | None => value
        end in
      match imageTexturePostfix technique with
      | Some postfix => Some (default "undefined" withPrefix ++ postfix)%string
      | None => withPrefix
      end
  | None => imageTexture technique
  end.

Definition markerGeometry (techniqueIndex : Z) (text : string) (imageTexture : option string)
    (featureId : option number) (env : MapEnv) (aLine : list number) : PoiGeometry :=
  {| poi_positions := {| attr_name := "position"; attr_type := "float";
                         buffer := Float32Array aLine; itemCount := 3 |};
     poi_technique := techniqueIndex;
     poi_texts := [0%float];
     poi_stringCatalog := [Some text; imageTexture];
     poi_imageTextures := [1%float];
     poi_featureId := featureId;
     poi_objInfos := if m_gatherFeatureIds then Some [entries env] else None |}.

(** The branch of [processLineFeature] for text, POI and line marker
    techniques. *)
Definition processLineLabels (technique : Technique) (lines : list (list number))
    (env : MapEnv) (featureId : option number) : M unit :=
  match resolveText env technique with
  | None => ret tt
  | Some text =>
      let validLines := validLines text lines in
      if Nat.eqb (length validLines) 0 then ret tt
      else if isTextTechnique technique then
        for_each validLines (fun aLine =>
          modify (push_textPathGeometry
                    (textPathGeometry (_index technique) text featureId env aLine)))
      else
        let imageTexture := markerImageTexture env technique in
        for_each validLines (fun aLine =>
          modify (push_poiGeometry
                    (markerGeometry (_index technique) text imageTexture featureId env aLine)))
  end.

(** [applyLineTechnique]: the lines of a feature join the line group of
    their technique and render order offset, which is created on first
    use. *)
Definition same_renderOrderOffset (stored : option number) (renderOrderOffset : option Value)
  : bool :=
  match stored, renderOrderOffset with
  | None, None => true
  | Some a, Some (VNumber b) => strict_eq a b
  | _, _ => false
  end.

Fixpoint add_lines (lines : list (list number)) (uvs : option (list (list number)))
    (lineGroup : LineGroup) : LineGroup :=
  match lines with
  | [] => lineGroup
  | aLine :: rest =>
      match uvs with
      | Some uvLists =>
          add_lines rest (Some (tail uvLists))
            (LineGroup_add (center m_decodeInfo) aLine (head uvLists) lineGroup)
      | None => add_lines rest None (LineGroup_add (center m_decodeInfo) aLine None lineGroup)
      end
  end.

Definition set_lineGroup (lineGroup : LineGroup) (g : LinesGeometry) : LinesGeometry :=
  {| lines_type := lines_type g; lines_lines := lineGroup; lines_technique := lines_technique g;
     lines_renderOrderOffset := lines_renderOrderOffset g;
     lines_featureIds := lines_featureIds g; lines_featureStarts := lines_featureStarts g |}.

(** The line geometry found by [linesGeometry.find], with the new feature
    recorded and the lines added; [None] when no geometry matches. *)
Fixpoint extend_linesGeometry (linesGeometry : list LinesGeometry) (techniqueIndex : Z)
    (renderOrderOffset : option Value) (gatherFeatureIds : bool) (featureId : option number)
    (lines : list (list number)) (uvs : option (list (list number)))
  : option (list LinesGeometry) :=
  match linesGeometry with
  | [] => None
  | aLine :: rest =>
      if Z.eqb (lines_technique aLine) techniqueIndex
         && same_renderOrderOffset (lines_renderOrderOffset aLine) renderOrderOffset
      then
        let lineGroup := lines_lines aLine in
        let tagged :=
          match gatherFeatureIds, lines_featureIds aLine, lines_featureStarts aLine with
          | true, Some ids, Some starts =>
              {| lines_type := lines_type aLine; lines_lines := lineGroup;
                 lines_technique := lines_technique aLine;
                 lines_renderOrderOffset := lines_renderOrderOffset aLine;
                 lines_featureIds := Some (ids ++ [featureId]);
                 lines_featureStarts :=
                   Some (starts ++ [of_nat (length (lg_indices lineGroup))]) |}
          | _, _, _ => aLine
          end in
        Some (set_lineGroup (add_lines lines uvs lineGroup) tagged :: rest)
      else
        cons aLine <$> extend_linesGeometry rest techniqueIndex renderOrderOffset
                         gatherFeatureIds featureId lines uvs
  end.

Definition applyLineTechnique (linesGeometry : list LinesGeometry) (technique : Technique)
    (techniqueIndex : Z) (gatherFeatureIds : bool) (lineType : LineType)
    (featureId : option number) (lines : list (list number)) (env : MapEnv)
    (uvs : option (list (list number))) : list LinesGeometry :=
  let renderOrderOffset :=
    match renderOrderBiasProperty technique with
    | Some property =>
        if String.eqb property "" then Some (VNumber 0%float) else env_lookup env property
    | None => Some (VNumber 0%float)
    end in
  match extend_linesGeometry linesGeometry techniqueIndex renderOrderOffset gatherFeatureIds
          featureId lines uvs with
  | Some linesGeometry' => linesGeometry'
  | None =>
      let hasNormalsAndUvs := bool_decide (is_Some uvs) in
      let lineGroup := LineGroup_new hasNormalsAndUvs (bool_decide (lineType = Simple)) in
      let recordIds := gatherFeatureIds && negb (transient technique) in
      linesGeometry ++
        [ {| lines_type := match lineType with Complex => SolidLine | Simple => Line end;
             lines_technique := techniqueIndex;
             lines_renderOrderOffset := Number_ <$> renderOrderOffset;
             lines_lines := add_lines lines uvs lineGroup;
             lines_featureIds := if recordIds then Some [featureId] else None;
             lines_featureStarts := if recordIds then Some [0%float] else None |} ]
  end.

(** The three line arrays of the emitter, addressed by technique name. *)
Definition applyLineTechniqueM (technique : Technique) (featureId : option number)
    (lines : list (list number)) (env : MapEnv) (uvs : option (list (list number)))
  : M unit :=
  let lineType :=
    if bool_decide (name technique = line_technique) then Simple else Complex in
  let apply linesGeometry :=
    applyLineTechnique linesGeometry technique (_index technique) m_gatherFeatureIds
      lineType featureId lines env uvs in
  modify (fun e =>
    if bool_decide (name technique = line_technique)
    then set_lines (apply (m_simpleLines e)) (m_solidLines e) (m_dashedLines e) e
    else if bool_decide (name technique = solid_line_technique)
    then set_lines (m_simpleLines e) (apply (m_solidLines e)) (m_dashedLines e) e
    else set_lines (m_simpleLines e) (m_solidLines e) (apply (m_dashedLines e)) e).

(** The callback of [lines.forEach] in the extruded line branch. *)
Definition extrude_line (lineWidth : number) (addCircle : bool) (start : number)
    (featureId : option number) (env : MapEnv) (aLine : list number) (b : MeshBuffers)
  : MeshBuffers :=
  let r := triangulateLine aLine lineWidth (positions b) (indices b) addCircle in
  {| mb_type := mb_type b; positions := fst r; normals := normals b;
     textureCoordinates := textureCoordinates b; colors := colors b;
     extrusionAxis := extrusionAxis b; indices := snd r;
     edgeIndices := edgeIndices b; groups := groups b; texts := texts b;
     stringCatalog := stringCatalog b; imageTextures := imageTextures b;
     featureIds := if m_gatherFeatureIds then featureIds b ++ [featureId] else featureIds b;
     featureStarts := if m_gatherFeatureIds then featureStarts b ++ [start] else featureStarts b;
     objInfos := if m_gatherFeatureIds then objInfos b ++ [entries env] else objInfos b |}.

Definition push_group (g : Group) (b : MeshBuffers) : MeshBuffers :=
  set_groups (groups b ++ [g]) b.

(** The branch of [processLineFeature] for extruded lines. *)
Definition processExtrudedLine (technique : Technique) (lines : list (list number))
    (env : MapEnv) (featureId : option number) (wantCircle : bool) : M unit :=
  let techniqueIndex := _index technique in
  meshBuffers <- findOrCreateMeshBuffersM techniqueIndex ExtrudedLine ;;
  match meshBuffers with
  | None => ret tt
  | Some meshBuffers =>
      let start := of_nat (length (indices meshBuffers)) in
      match lineWidth technique with
      | None => ret tt
      | Some lineWidth =>
          let addCircle :=
            wantCircle
            && match caps technique with
               | None => true
               | Some c => String.eqb c "Circle"
               end in
          let filled :=
            fold_left (fun b aLine => extrude_line lineWidth addCircle start featureId env aLine b)
              lines meshBuffers in
          let count := (of_nat (length (indices filled)) - start)%float in
          push_buffers techniqueIndex (fun _ =>
            push_group {| start := start; count := count; technique := techniqueIndex;
                          featureId := featureId; renderOrderOffset := None |} filled)
      end
  end.

(** The body of the main loop of [processLineFeature]. *)
Definition processLineTechnique (lines uvs : list (list number)) (env : MapEnv)
    (featureId : option number) (wantCircle : bool) (technique : option Technique) : M unit :=
  match technique with
  | None => ret tt
  | Some technique =>
      if bool_decide (name technique = line_technique)
         || bool_decide (name technique = solid_line_technique)
         || bool_decide (name technique = dashed_line_technique)
      then
        applyLineTechniqueM technique featureId lines env
          (if bool_decide (is_Some (getTextureCoordinateType technique)) then Some uvs else None)
      else if isTextTechnique technique || isPoiTechnique technique
              || isLineMarkerTechnique technique
      then processLineLabels technique lines env featureId
      else if isExtrudedLineTechnique technique
      then processExtrudedLine technique lines env featureId wantCircle
      else modify (push_log [log_warn "OmvDecodedTileEmitter#processLineFeature: Invalid line technique"])
  end.

(** [processLineFeature(layer, extents, geometry, env, techniques,
    featureId)]. *)
Definition processLineFeature (extents : number) (geometry : list ILineGeometry)
    (env : MapEnv) (techniques : list (option Technique)) (featureId : option number)
  : M unit :=
  processFeatureCommon env ;;;
  tc <- lift (selectTexCoords techniques None None) ;;
  let lines := map (world_line extents) geometry in
  let uvs := map (line_uvs (fst tc) extents) geometry in
  let wantCircle := Z.leb 11 (tileKey_level m_decodeInfo) in
  for_each techniques (processLineTechnique lines uvs env featureId wantCircle).

(** *** Short labels: what a line feature adds to the text paths *)



(** [c] returns normally from [e] and appends [added] to the text paths. *)
Definition appends_paths (c : M unit) (e : Emitter) (added : list TextPathGeometry) : Prop :=
  exists e', c e = (Normal tt, e')
             /\ m_textPathGeometries e' = m_textPathGeometries e ++ added.

Lemma appends_paths_ret (e : Emitter) : appends_paths (ret tt) e [].
Proof. exists e. split; [reflexivity | now rewrite app_nil_r]. Qed.




(** *** The bounding box of a line *)














Lemma processFeatureCommon_paths (env : MapEnv) (e : Emitter) :
  appends_paths (processFeatureCommon env) e [].
Proof.
  unfold processFeatureCommon.
  destruct (env_lookup env "source") as [[source| | |]|]; try apply appends_paths_ret.
  destruct (negb (String.eqb source "")); [|apply appends_paths_ret].
  unfold appends_paths, bind, read, when.
  destruct (negb (existsb (String.eqb source) (m_sources e))).
  - eexists. split; [reflexivity | cbn; now rewrite app_nil_r].
  - eexists. split; [reflexivity | now rewrite app_nil_r].
Qed.



(** *** Polygons *)

(** A [Ring] of the decoder: a contour of [vertexStride] numbers per
    vertex ([x], [y] and, with texture coordinates, [u], [v]) and its
    winding. *)
Record Ring : Type := mkRing {
  ring_extents : number;
  ring_vertexStride : nat;
  contour : list number;
  winding : bool
}.

(** [IPolygonGeometry]: the rings of a polygon in tile-local coordinates. *)
Record IPolygonGeometry : Type := mkPolygonGeometry { rings : list (list Vector2) }.

(** More collaborators that are not among the sources: the winding that
    [new Ring] computes for a contour, and the triangulation [earcut],
    which may throw on a footprint it cannot handle. *)
Variable Ring_winding : list number -> nat -> bool.
Variable earcut : list number -> list number -> nat -> Completion (list number).

(** What follows the triangulation inside the [try] block of
    [applyPolygonTechnique]: the subdivision for spherical projections,
    the assembly of the vertex, index and edge buffers, [addEdges] and
    [addWalls].  It reads and writes the emitter's mesh buffers and may
    throw.  Its arguments are the technique and its index, the feature's
    environment, the extents, [polygonBaseVertex], the footprint's vertices
    and the triangles. *)
Variable emitRingGroup :
  Technique -> Z -> MapEnv -> number -> number -> list number -> list number -> M unit.

(** [array[i]] of an array of numbers, in arithmetic: NaN outside. *)
Definition at_ (l : list number) (i : nat) : number := nth i l PrimFloat.nan.

(** Whether the edge from the current to the next vertex lies inside the
    tile's extents. *)
Definition insideExtents (currX currY nextX nextY extents : number) : bool :=
  negb ((le currX 0%float && le nextX 0%float)
        || (ge currX extents && ge nextX extents)
        || (le currY 0%float && le nextY 0%float)
        || (ge currY extents && ge nextY extents)).

(** The vertices that [applyPolygonTechnique] pushes for the vertex [i]
    of a contour: the feature's numbers with the Y component inverted,
    then [nextEdge] and [nextWall]. *)
Definition contour_vertex (contour : list number) (featureStride vertexOffset : nat)
    (extents : number) (boundaryWalls : bool) (i : nat) : list number :=
  let count := (length contour / featureStride)%nat in
  let nextIdx := ((i + 1) mod count)%nat in
  let currX := at_ contour (i * featureStride) in
  let currY := at_ contour (i * featureStride + 1) in
  let nextX := at_ contour (nextIdx * featureStride) in
  let nextY := at_ contour (nextIdx * featureStride + 1) in
  let inside := insideExtents currX currY nextX nextY extents in
  let next := of_nat (vertexOffset + nextIdx) in
  map (fun j => ((if Nat.eqb j 1 then -1 else 1) * at_ contour (i * featureStride + j))%float)
      (List.seq 0 featureStride)
  ++ [ if inside then next else (-1)%float;
       if boundaryWalls || inside then next else (-1)%float ].

Definition contour_vertices (contour : list number) (featureStride vertexOffset : nat)
    (extents : number) (boundaryWalls : bool) : list number :=
  flat_map (contour_vertex contour featureStride vertexOffset extents boundaryWalls)
    (List.seq 0 (length contour / featureStride)).

(** The inner [while] loop: the rings that follow an outer ring with the
    opposite winding are its holes. *)
Fixpoint add_holes (holeRings : list Ring) (featureStride : nat) (extents : number)
    (boundaryWalls : bool) (vertices holes : list number) : list number * list number :=
  match holeRings with
  | [] => (vertices, holes)
  | hole :: rest =>
      let vertexStride := (featureStride + 2)%nat in
      let vertexOffset := (length vertices / vertexStride)%nat in
      add_holes rest featureStride extents boundaryWalls
        (vertices ++ contour_vertices (contour hole) featureStride vertexOffset extents
                       boundaryWalls)
        (holes ++ [of_nat vertexOffset])
  end.

(** The ring groups of a polygon, in the order in which the loop over
    [ringIndex] meets them: an outer ring and its holes. *)
Fixpoint ring_groups_from (outer : Ring) (holeRings rest : list Ring)
  : list (Ring * list Ring) :=
  match rest with
  | [] => [(outer, holeRings)]
  | ring :: rest' =>
      if negb (Bool.eqb (winding ring) (winding outer))
      then ring_groups_from outer (holeRings ++ [ring]) rest'
      else (outer, holeRings) :: ring_groups_from ring [] rest'
  end.

Definition ring_groups (polygon : list Ring) : list (Ring * list Ring) :=
  match polygon with
  | [] => []
  | outer :: rest => ring_groups_from outer [] rest
  end.

Definition buffers_of (techniqueIndex : Z) (e : Emitter) : MeshBuffers :=
  default (new_MeshBuffers Polygon) (map_get techniqueIndex (m_meshBuffers e)).

(** The footprint of a ring group: the vertices of the outer ring and of
    its holes, and the vertex offsets of the holes. *)
Definition footprint (technique : Technique) (extents : number) (group : Ring * list Ring)
  : list number * list number :=
  let texCoordType := getTextureCoordinateType technique in
  let featureStride := if bool_decide (is_Some texCoordType) then 4%nat else 2%nat in
  let boundaryWalls := negb (bool_decide (boundaryWalls technique = Some false)) in
  let outer := contour_vertices (contour (fst group)) featureStride 0 extents boundaryWalls in
  add_holes (snd group) featureStride extents boundaryWalls outer [].

(** The [try] block: triangulate the footprint, then emit it. *)
Definition tryTriangulate (technique : Technique) (techniqueIndex : Z) (env : MapEnv)
    (extents polygonBaseVertex : number) (group : Ring * list Ring) : M unit :=
  let texCoordType := getTextureCoordinateType technique in
  let featureStride := if bool_decide (is_Some texCoordType) then 4%nat else 2%nat in
  let vertexStride := (featureStride + 2)%nat in
  let vertices := fst (footprint technique extents group) in
  let holes := snd (footprint technique extents group) in
  triangles <- lift (earcut vertices holes vertexStride) ;;
  emitRingGroup technique techniqueIndex env extents polygonBaseVertex vertices triangles.

(** The [catch] block. *)
Definition logTriangulationError (err : string) : M unit :=
  modify (push_log [log_error "cannot triangulate geometry"]).

(** One turn of the loop over the ring groups of a polygon. *)
Definition triangulateRingGroup (technique : Technique) (techniqueIndex : Z) (env : MapEnv)
    (extents : number) (group : Ring * list Ring) : M unit :=
  meshBuffers <- read (buffers_of techniqueIndex) ;;
  let polygonBaseVertex := (of_nat (length (positions meshBuffers)) / 3)%float in
  try_catch (tryTriangulate technique techniqueIndex env extents polygonBaseVertex group)
    logTriangulationError.

(** What closes the turn of a polygon: the feature is recorded and a group
    covers the indices that the polygon added. *)
Definition finish_polygon (techniqueIndex : Z) (featureId : option number) (env : MapEnv)
    (startIndexCount : number) (b : MeshBuffers) : MeshBuffers :=
  let count := (of_nat (length (indices b)) - startIndexCount)%float in
  {| mb_type := mb_type b; positions := positions b; normals := normals b;
     textureCoordinates := textureCoordinates b; colors := colors b;
     extrusionAxis := extrusionAxis b; indices := indices b;
     edgeIndices := edgeIndices b;
     groups :=
       if gt count 0%float then
         groups b ++ [ {| start := startIndexCount; count := count;
                          technique := techniqueIndex; featureId := featureId;
                          renderOrderOffset := None |} ]
       else groups b;
     texts := texts b; stringCatalog := stringCatalog b;
     imageTextures := imageTextures b;
     featureIds := if m_gatherFeatureIds then featureIds b ++ [featureId] else featureIds b;
     featureStarts :=
       if m_gatherFeatureIds then featureStarts b ++ [startIndexCount] else featureStarts b;
     objInfos := if m_gatherFeatureIds then objInfos b ++ [entries env] else objInfos b |}.

Definition applyPolygon (technique : Technique) (techniqueIndex : Z)
    (featureId : option number) (env : MapEnv) (extents : number) (polygon : list Ring)
  : M unit :=
  meshBuffers <- read (buffers_of techniqueIndex) ;;
  let startIndexCount := of_nat (length (indices meshBuffers)) in
  for_each (ring_groups polygon) (triangulateRingGroup technique techniqueIndex env extents) ;;;
  push_buffers techniqueIndex (finish_polygon techniqueIndex featureId env startIndexCount).

(** [applyPolygonTechnique(polygons, technique, techniqueIndex, featureId,
    env, extents)]. *)
Definition applyPolygonTechnique (polygons : list (list Ring)) (technique : Technique)
    (techniqueIndex : Z) (featureId : option number) (env : MapEnv) (extents : number)
  : M unit :=
  let isExtruded := isExtrudedPolygonTechnique technique in
  let geometryType := if isExtruded then ExtrudedPolygon else Polygon in
  meshBuffers <- findOrCreateMeshBuffersM techniqueIndex geometryType ;;
  match meshBuffers with
  | None => ret tt
  | Some _ =>
      for_each polygons (applyPolygon technique techniqueIndex featureId env extents)
  end.

(** [new Ring(extents, vertexStride, ringContour)] for an outline. *)
Definition ring_of (computeTexCoordsFunc : option TextureCoordinateType) (extents : number)
    (outline : list Vector2) : Ring :=
  let vertexStride := if bool_decide (is_Some computeTexCoordsFunc) then 4%nat else 2%nat in
  let ringContour :=
    flat_map (fun coord =>
      [v2_x coord; v2_y coord]
      ++ match computeTexCoordsFunc with
         | Some f => let uv := computeTexCoords f coord extents in [fst uv; snd uv]
         | None => []
         end) outline in
  {| ring_extents := extents; ring_vertexStride := vertexStride; contour := ringContour;
     winding := Ring_winding ringContour vertexStride |}.

Definition world_point (extents x y : number) : list number :=
  let w := webMercatorTile2TargetWorld extents m_decodeInfo {| v2_x := x; v2_y := y |} in
  [v3_x w; v3_y w; v3_z w].

(** The outline of a ring as lines: the edges along the tile's border are
    left out.  The state of the loop is [(lines, line)]. *)
Definition outline_step (extents : number) (ring : Ring)
    (state : list (list number) * list number) (i : nat) : list (list number) * list number :=
  let count := (length (contour ring) / ring_vertexStride ring)%nat in
  let nextIdx := ((i + 1) mod count)%nat in
  let currX := at_ (contour ring) (i * ring_vertexStride ring) in
  let currY := at_ (contour ring) (i * ring_vertexStride ring + 1) in
  let nextX := at_ (contour ring) (nextIdx * ring_vertexStride ring) in
  let nextY := at_ (contour ring) (nextIdx * ring_vertexStride ring + 1) in
  let isOutline := insideExtents currX currY nextX nextY (ring_extents ring) in
  let state1 :=
    if negb isOutline && nonempty (snd state) then (fst state ++ [snd state], [])
    else if isOutline && negb (nonempty (snd state))
    then (fst state, snd state ++ world_point extents currX currY)
    else state in
  if isOutline then (fst state1, snd state1 ++ world_point extents nextX nextY) else state1.

Definition outline_lines (extents : number) (lines : list (list number)) (ring : Ring)
  : list (list number) :=
  let count := (length (contour ring) / ring_vertexStride ring)%nat in
  let state := fold_left (outline_step extents ring) (List.seq 0 count) (lines, []) in
  if nonempty (snd state) then fst state ++ [snd state] else fst state.

(** The callback of [techniques.forEach] in [processPolygonFeature].  A
    technique of the emitter's type always has an index, so the internal
    error "No technique index" cannot be raised. *)
Definition processPolygonTechnique (extents : number) (geometry : list IPolygonGeometry)
    (env : MapEnv) (featureId : option number) (technique : option Technique) : M unit :=
  match technique with
  | None => ret tt
  | Some technique =>
      let techniqueIndex := _index technique in
      let isExtruded := isExtrudedPolygonTechnique technique in
      let isFilled := isFillTechnique technique in
      let isLine :=
        bool_decide (name technique = solid_line_technique)
        || bool_decide (name technique = dashed_line_technique)
        || bool_decide (name technique = line_technique) in
      let isPolygon := isExtruded || isFilled || isStandardTechnique technique in
      let computeTexCoordsFunc := getComputeTexCoordsFunc technique in
      let polygons :=
        map (fun polygon => map (ring_of computeTexCoordsFunc extents) (rings polygon))
          geometry in
      if isPolygon then
        applyPolygonTechnique polygons technique techniqueIndex featureId env extents
      else if isLine then
        for_each polygons (fun polygonRings =>
          let lines := fold_left (outline_lines extents) polygonRings [] in
          if nonempty lines then applyLineTechniqueM technique featureId lines env None
          else ret tt)
      else ret tt
  end.

(** [processPolygonFeature(layer, extents, geometry, env, techniques,
    featureId)]. *)
Definition processPolygonFeature (extents : number) (geometry : list IPolygonGeometry)
    (env : MapEnv) (techniques : list (option Technique)) (featureId : option number)
  : M unit :=
  processFeatureCommon env ;;;
  for_each techniques (processPolygonTechnique extents geometry env featureId).

(** *** A failed triangulation stays within its ring group *)

(** [c] returns normally from every state. *)
Definition returns (c : M unit) : Prop := forall e, exists e', c e = (Normal tt, e').

Lemma returns_ret : returns (ret tt).
Proof. intros e. now exists e. Qed.

Lemma returns_modify (f : Emitter -> Emitter) : returns (modify f).
Proof. intros e. now exists (f e). Qed.

Lemma returns_bind (c : M unit) (k : unit -> M unit) :
  returns c -> returns (k tt) -> returns (bind c k).
Proof.
  intros Hc Hk e. destruct (Hc e) as [e1 H1]. destruct (Hk e1) as [e2 H2].
  exists e2. unfold bind. now rewrite H1.
Qed.

Lemma returns_read {A} (f : Emitter -> A) (k : A -> M unit) :
  (forall a, returns (k a)) -> returns (bind (read f) k).
Proof. intros Hk e. unfold bind, read. apply Hk. Qed.

Lemma returns_for_each {A} (xs : list A) (body : A -> M unit) :
  (forall x, returns (body x)) -> returns (for_each xs body).
Proof.
  intros Hbody. induction xs as [|x xs IH]; cbn [for_each].
  - apply returns_ret.
  - apply returns_bind; [apply Hbody | exact IH].
Qed.

(** The heart of the matter: whatever the body of a [try] does, the
    statement returns when its handler does. *)
Lemma returns_try_catch (body : M unit) (handler : string -> M unit) :
  (forall err, returns (handler err)) -> returns (try_catch body handler).
Proof.
  intros Hh e. unfold try_catch.
  destruct (body e) as [[[]|err] e1]; [now exists e1 | apply Hh].
Qed.

Lemma returns_triangulateRingGroup (technique : Technique) (techniqueIndex : Z)
    (env : MapEnv) (extents : number) (group : Ring * list Ring) :
  returns (triangulateRingGroup technique techniqueIndex env extents group).
Proof.
  unfold triangulateRingGroup. apply returns_read. intros meshBuffers.
  apply returns_try_catch. intros err. apply returns_modify.
Qed.

Lemma returns_applyPolygon (technique : Technique) (techniqueIndex : Z)
    (featureId : option number) (env : MapEnv) (extents : number) (polygon : list Ring) :
  returns (applyPolygon technique techniqueIndex featureId env extents polygon).
Proof.
  unfold applyPolygon. apply returns_read. intros meshBuffers.
  apply returns_bind; [|apply returns_modify].
  apply returns_for_each. intros group. apply returns_triangulateRingGroup.
Qed.

Lemma returns_applyPolygonTechnique (polygons : list (list Ring)) (technique : Technique)
    (techniqueIndex : Z) (featureId : option number) (env : MapEnv) (extents : number) :
  returns (applyPolygonTechnique polygons technique techniqueIndex featureId env extents).
Proof.
  intros e. unfold applyPolygonTechnique, bind at 1, findOrCreateMeshBuffersM.
  destruct (findOrCreateMeshBuffers techniqueIndex _ (m_meshBuffers e)) as [[m' lg] [b|]].
  - apply returns_for_each. intros polygon. apply returns_applyPolygon.
  - eexists. reflexivity.
Qed.

Lemma returns_processFeatureCommon (env : MapEnv) : returns (processFeatureCommon env).
Proof. intros e. destruct (processFeatureCommon_paths env e) as (e' & H & _). now exists e'. Qed.

Lemma returns_processPolygonFeature (extents : number) (geometry : list IPolygonGeometry)
    (env : MapEnv) (techniques : list (option Technique)) (featureId : option number) :
  returns (processPolygonFeature extents geometry env techniques featureId).
Proof.
  unfold processPolygonFeature.
  apply returns_bind; [apply returns_processFeatureCommon|].
  apply returns_for_each. intros [technique|]; [|apply returns_ret].
  unfold processPolygonTechnique.
  destruct (isExtrudedPolygonTechnique technique || isFillTechnique technique
            || isStandardTechnique technique).
  - apply returns_applyPolygonTechnique.
  - destruct (bool_decide (name technique = solid_line_technique)
              || bool_decide (name technique = dashed_line_technique)
              || bool_decide (name technique = line_technique)); [|apply returns_ret].
    apply returns_for_each. intros polygonRings.
    destruct (nonempty _); [apply returns_modify | apply returns_ret].
Qed.

(** The state in which a computation leaves the emitter. *)
Definition state_after {A} (c : M A) (e : Emitter) : Emitter := snd (c e).

Lemma for_each_returns_fold {A} (xs : list A) (body : A -> M unit) (e : Emitter) :
  (forall x, returns (body x)) ->
  for_each xs body e = (Normal tt, fold_left (fun s x => state_after (body x) s) xs e).
Proof.
  intros Hbody. revert e. induction xs as [|x xs IH]; intros e; cbn [for_each fold_left].
  - reflexivity.
  - unfold bind. destruct (Hbody x e) as [e1 H1]. unfold state_after at 2.
    rewrite H1. cbn [snd]. apply IH.
Qed.

(** C5.  In [applyPolygonTechnique] a failure of the triangulation of one
    ring group (an outer ring and its holes), or of anything else inside
    the [try] block, is caught and logged, and the turn of that ring group
    returns normally.  Hence every ring group of a polygon gets its turn,
    in order, whether earlier ones failed or not; so does every polygon of
    the feature; and [processPolygonFeature] returns normally, so that the
    decoder goes on with the next feature: a degenerate ring never aborts
    the decode of the tile. *)
Theorem triangulation_failure_is_contained (polygons : list (list Ring))
    (technique : Technique) (techniqueIndex : Z) (featureId : option number)
    (env : MapEnv) (extents : number) (e : Emitter) :
  (forall group err e0 e1,
     tryTriangulate technique techniqueIndex env extents
       (of_nat (length (positions (buffers_of techniqueIndex e0))) / 3)%float group e0
       = (Throw err, e1) ->
     triangulateRingGroup technique techniqueIndex env extents group e0
       = (Normal tt, push_log [log_error "cannot triangulate geometry"] e1))
  /\ (forall polygon e0,
        applyPolygon technique techniqueIndex featureId env extents polygon e0
        = (Normal tt,
           state_after
             (push_buffers techniqueIndex
                (finish_polygon techniqueIndex featureId env
                   (of_nat (length (indices (buffers_of techniqueIndex e0))))))
             (fold_left
                (fun s group =>
                   state_after (triangulateRingGroup technique techniqueIndex env extents group) s)
                (ring_groups polygon) e0)))
  /\ applyPolygonTechnique polygons technique techniqueIndex featureId env extents e
     = (let found :=
          findOrCreateMeshBuffersM techniqueIndex
            (if isExtrudedPolygonTechnique technique then ExtrudedPolygon else Polygon) e in
        (Normal tt,
         match fst found with
         | Normal (Some _) =>
             fold_left
               (fun s polygon =>
                  state_after (applyPolygon technique techniqueIndex featureId env extents polygon) s)
               polygons (snd found)
         | _ => snd found
         end))
  /\ (forall geometry techniques,
        exists e',
          processPolygonFeature extents geometry env techniques featureId e = (Normal tt, e')).
Proof.
  split; [|split; [|split]].
  - intros group err e0 e1 Htry.
    unfold triangulateRingGroup, bind, read, try_catch. now rewrite Htry.
  - intros polygon e0. unfold applyPolygon, bind at 1, read.
    unfold bind.
    rewrite (for_each_returns_fold (ring_groups polygon) _ e0)
      by (intros group; apply returns_triangulateRingGroup).
    reflexivity.
  - unfold applyPolygonTechnique, bind at 1. cbv zeta.
    destruct (findOrCreateMeshBuffersM techniqueIndex _ e) as [[[b|]|err] e1] eqn:Hfind;
      cbn [fst snd].
    + apply for_each_returns_fold. intros polygon. apply returns_applyPolygon.
    + reflexivity.
    + unfold findOrCreateMeshBuffersM in Hfind.
      destruct (findOrCreateMeshBuffers techniqueIndex _ (m_meshBuffers e)) as [[m' lg] r].
      discriminate.
  - intros geometry techniques. apply returns_processPolygonFeature.
Qed.

(** *** Point features *)

(** The fields that [processPointFeature] reads of a technique taken as a
    [PoiTechnique], beside the ones of [Technique]. *)
Record PoiTechnique : Type := mkPoiTechnique {
  as_technique : Technique;
  poiName : option string;
  poiNameField : option string
}.

(** [composeTechniqueTextureName] of harp-datasource-protocol. *)
Variable composeTechniqueTextureName : option Value -> Technique -> string.

(** The image of a POI, chosen before the loop over the positions; the
    casts of the source take the looked up values for strings. *)
Definition pointImageTexture (env : MapEnv) (technique : PoiTechnique) : option string :=
  let t := as_technique technique in
  if isPoiTechnique t then
    match poiName technique with
    | Some poiName => Some poiName
    | None =>
        match poiNameField technique with
        | Some field => String_ <$> env_lookup env field
        | None =>
            match imageTextureField t with
            | Some field => Some (composeTechniqueTextureName (env_lookup env field) t)
            | None => imageTexture t
            end
        end
    end
  else None.

(** [name && typeof name === "string"]: the name of the feature when it is
    a string that is not empty. *)
Definition pointName (env : MapEnv) (t : Technique) : option string :=
  let name :=
    match label t with
    | Some textLabel => env_lookup env textLabel
    | None => VString <$> getFeatureName env (useAbbreviation t) (useIsoCode t) m_languages
    end in
  match name with
  | Some (VString s) => if String.eqb s "" then None else Some s
  | _ => None
  end.

Definition push_text (entry : number) (b : MeshBuffers) : MeshBuffers :=
  {| mb_type := mb_type b; positions := positions b; normals := normals b;
     textureCoordinates := textureCoordinates b; colors := colors b;
     extrusionAxis := extrusionAxis b; indices := indices b;
     edgeIndices := edgeIndices b; groups := groups b; texts := texts b ++ [entry];
     stringCatalog := stringCatalog b; imageTextures := imageTextures b;
     featureIds := featureIds b; featureStarts := featureStarts b;
     objInfos := objInfos b |}.

Definition push_imageTexture (entry : number) (b : MeshBuffers) : MeshBuffers :=
  {| mb_type := mb_type b; positions := positions b; normals := normals b;
     textureCoordinates := textureCoordinates b; colors := colors b;
     extrusionAxis := extrusionAxis b; indices := indices b;
     edgeIndices := edgeIndices b; groups := groups b; texts := texts b;
     stringCatalog := stringCatalog b; imageTextures := imageTextures b ++ [entry];
     featureIds := featureIds b; featureStarts := featureStarts b;
     objInfos := objInfos b |}.

Definition push_position (w : Vector3) (b : MeshBuffers) : MeshBuffers :=
  {| mb_type := mb_type b; positions := positions b ++ [v3_x w; v3_y w; v3_z w];
     normals := normals b;
     textureCoordinates := textureCoordinates b; colors := colors b;
     extrusionAxis := extrusionAxis b; indices := indices b;
     edgeIndices := edgeIndices b; groups := groups b; texts := texts b;
     stringCatalog := stringCatalog b; imageTextures := imageTextures b;
     featureIds := featureIds b; featureStarts := featureStarts b;
     objInfos := objInfos b |}.

Definition push_feature (featureId : option number) (objInfo : ValueMap) (b : MeshBuffers)
  : MeshBuffers :=
  {| mb_type := mb_type b; positions := positions b; normals := normals b;
     textureCoordinates := textureCoordinates b; colors := colors b;
     extrusionAxis := extrusionAxis b; indices := indices b;
     edgeIndices := edgeIndices b; groups := groups b; texts := texts b;
     stringCatalog := stringCatalog b; imageTextures := imageTextures b;
     featureIds := featureIds b ++ [featureId]; featureStarts := featureStarts b;
     objInfos := objInfos b ++ [objInfo] |}.

(** [array.push(meshBuffers.addText(text))]. *)
Definition push_catalogued (push : number -> MeshBuffers -> MeshBuffers) (text : string)
    (b : MeshBuffers) : MeshBuffers :=
  push (of_nat (fst (addText text b))) (snd (addText text b)).

(** The body of the loop over the positions of a point feature.  The
    source guards the image texture with [if (isPoiTechnique)], which
    tests the function and not its result on the technique: the branch is
    taken for every technique. *)
Definition add_point (technique : Technique) (imageTexture : option string) (extents : number)
    (env : MapEnv) (featureId : option number) (b : MeshBuffers) (pos : Vector2) : MeshBuffers :=
  let shouldCreateTextGeometries := isTextTechnique technique || isPoiTechnique technique in
  let b1 :=
    if shouldCreateTextGeometries then
      match pointName env technique with
      | Some name => push_catalogued push_text name b
      | None => push_text INVALID_ARRAY_INDEX b
      end
    else b in
  let b2 := push_position (webMercatorTile2TargetWorld extents m_decodeInfo pos) b1 in
  let b3 := if m_gatherFeatureIds then push_feature featureId (entries env) b2 else b2 in
  match imageTexture with
  | None => push_imageTexture INVALID_ARRAY_INDEX b3
  | Some texture => push_catalogued push_imageTexture texture b3
  end.

Definition add_points (technique : PoiTechnique) (extents : number) (geometry : list Vector2)
    (env : MapEnv) (featureId : option number) (b : MeshBuffers) : MeshBuffers :=
  fold_left
    (add_point (as_technique technique) (pointImageTexture env technique) extents env featureId)
    geometry b.

Definition processPointFeature (layer : string) (extents : number) (geometry : list Vector2)
    (env : MapEnv) (techniques : list (option PoiTechnique)) (featureId : option number)
  : M unit :=
  processFeatureCommon env ;;;
  for_each techniques (fun technique =>
    match technique with
    | None => ret tt
    | Some technique =>
        let techniqueIndex := _index (as_technique technique) in
        meshBuffers <- findOrCreateMeshBuffersM techniqueIndex Point ;;
        match meshBuffers with
        | None => ret tt
        | Some _ =>
            push_buffers techniqueIndex (add_points technique extents geometry env featureId)
        end
    end).













(** *** The sources of a tile and the frame of a point feature *)

(** What a decode has emitted, and the state beside the sources. *)
Definition outputs (e : Emitter)
  : list Geometry * list TextGeometry * list TextPathGeometry * list PoiGeometry
    * list LinesGeometry * list LinesGeometry * list LinesGeometry :=
  (m_geometries e, m_textGeometries e, m_textPathGeometries e, m_poiGeometries e,
   m_simpleLines e, m_solidLines e, m_dashedLines e).

Lemma processFeatureCommon_effect (env : MapEnv) (e : Emitter) :
  processFeatureCommon env e = (Normal tt, e)
  \/ exists source,
       env_lookup env "source" = Some (VString source) /\ source <> ""%string
       /\ (source ∉ m_sources e)
       /\ processFeatureCommon env e = (Normal tt, push_source source e).
Proof.
  unfold processFeatureCommon.
  destruct (env_lookup env "source") as [[source| | |]|]; try (now left).
  destruct (String.eqb source "") eqn:Hempty; cbn [negb]; [now left|].
  unfold bind, read, when.
  destruct (existsb (String.eqb source) (m_sources e)) eqn:Hseen; cbn [negb]; [now left|].
  right. exists source. split; [reflexivity|].
  split; [now apply String.eqb_neq|]. split; [|reflexivity].
  intros Hin. apply list_elem_of_In in Hin.
  assert (existsb (String.eqb source) (m_sources e) = true); [|congruence].
  apply existsb_exists. exists source. split; [exact Hin | apply String.eqb_refl].
Qed.

Lemma processFeatureCommon_seen (env : MapEnv) (e : Emitter) (source : string) :
  env_lookup env "source" = Some (VString source) -> source <> ""%string ->
  source ∈ m_sources (snd (processFeatureCommon env e)).
Proof.
  intros Hlook Hne. unfold processFeatureCommon. rewrite Hlook.
  apply String.eqb_neq in Hne. rewrite Hne. cbn [negb]. unfold bind, read, when.
  destruct (existsb (String.eqb source) (m_sources e)) eqn:Hseen; cbn.
  - apply existsb_exists in Hseen. destruct Hseen as (s & Hin & Heq).
    apply String.eqb_eq in Heq. subst s. now apply list_elem_of_In.
  - apply elem_of_app. right. apply list_elem_of_singleton. reflexivity.
Qed.

Lemma processFeatureCommon_frame (env : MapEnv) (e : Emitter) :
  fst (processFeatureCommon env e) = Normal tt
  /\ m_meshBuffers (snd (processFeatureCommon env e)) = m_meshBuffers e
  /\ outputs (snd (processFeatureCommon env e)) = outputs e.
Proof.
  destruct (processFeatureCommon_effect env e) as [->|(source & _ & _ & _ & ->)]; easy.
Qed.

(** X3.  [processFeatureCommon] keeps the copyright sources of a tile a
    set: it returns normally; the source of the feature is among the
    sources afterwards when it is a string that is not empty; nothing is
    added otherwise, and never a source that the tile has already; the
    sources that were there keep their places; nothing else of the emitter
    changes. *)
Theorem sources_without_duplicates (env : MapEnv) (e : Emitter) :
  let e' := snd (processFeatureCommon env e) in
  fst (processFeatureCommon env e) = Normal tt
  /\ (forall source, env_lookup env "source" = Some (VString source) ->
        source <> ""%string -> source ∈ m_sources e')
  /\ (forall source, source ∈ m_sources e' ->
        source ∈ m_sources e
        \/ (env_lookup env "source" = Some (VString source) /\ source <> ""%string))
  /\ (exists added, m_sources e' = m_sources e ++ added)
  /\ (NoDup (m_sources e) -> NoDup (m_sources e'))
  /\ (m_meshBuffers e', outputs e', m_log e') = (m_meshBuffers e, outputs e, m_log e).
Proof.
  cbv zeta. split; [|split; [intros; now apply processFeatureCommon_seen|]].
  - destruct (processFeatureCommon_effect env e) as [->|(source & _ & _ & _ & ->)];
      reflexivity.
  - destruct (processFeatureCommon_effect env e) as [->|(source & Hlook & Hne & Hnew & ->)];
      cbn [snd].
    + split; [now left|]. split; [exists []; now rewrite app_nil_r|]. now split.
    + split; [|split; [now exists [source]|split; [|reflexivity]]].
      * cbn. intros s Hin. apply elem_of_app in Hin. destruct Hin as [Hin|Hin]; [now left|].
        apply list_elem_of_singleton in Hin. subst s. now right.
      * intros Hnd. cbn. apply NoDup_app. split; [exact Hnd|].
        split; [|apply NoDup_singleton].
        intros s Hs Hin. apply list_elem_of_singleton in Hin. now subst s.
Qed.

(** The turn of one technique of a point feature. *)
Definition point_turn (extents : number) (geometry : list Vector2) (env : MapEnv)
    (featureId : option number) (technique : option PoiTechnique) : M unit :=
  match technique with
  | None => ret tt
  | Some technique =>
      let techniqueIndex := _index (as_technique technique) in
      meshBuffers <- findOrCreateMeshBuffersM techniqueIndex Point ;;
      match meshBuffers with
      | None => ret tt
      | Some _ =>
          push_buffers techniqueIndex (add_points technique extents geometry env featureId)
      end
  end.

(** The buffers of [index] after a turn of [techniques] from [m] to [m']:
    untouched when no technique has the index or when they are no point
    buffers. *)
Definition point_frame (techniques : list (option PoiTechnique)) (e e' : Emitter) : Prop :=
  outputs e' = outputs e /\ m_sources e' = m_sources e
  /\ (forall index,
        Forall (fun technique => forall t, technique = Some t ->
                                 _index (as_technique t) <> index) techniques ->
        map_get index (m_meshBuffers e') = map_get index (m_meshBuffers e))
  /\ (forall index b, map_get index (m_meshBuffers e) = Some b -> mb_type b <> Point ->
        map_get index (m_meshBuffers e') = Some b).

Lemma point_turn_frame (extents : number) (geometry : list Vector2) (env : MapEnv)
    (featureId : option number) (technique : option PoiTechnique) (e : Emitter) :
  exists e', point_turn extents geometry env featureId technique e = (Normal tt, e')
             /\ point_frame [technique] e e'.
Proof.
  destruct technique as [technique|]; cbn [point_turn].
  - unfold bind, findOrCreateMeshBuffersM.
    pose proof (findOrCreateMeshBuffers_spec (_index (as_technique technique)) Point
                  (m_meshBuffers e)) as Hspec.
    destruct (findOrCreateMeshBuffers (_index (as_technique technique)) Point
                (m_meshBuffers e)) as [[m' lg] [buffers|]].
    + destruct Hspec as (Hty & Hget & Hother & Hsame).
      eexists. split; [reflexivity|]. unfold point_frame. cbn. rewrite Hget.
      split; [reflexivity|]. split; [reflexivity|]. split.
      * intros index Hall. apply Forall_cons in Hall. destruct Hall as [Hne _].
        specialize (Hne technique eq_refl).
        rewrite map_get_set_ne by assumption. now apply Hother.
      * intros index b Hb Hnot.
        destruct (decide (_index (as_technique technique) = index)) as [<-|Hne].
        -- apply Hsame in Hb. congruence.
        -- rewrite map_get_set_ne by assumption. now rewrite Hother.
    + destruct Hspec as [-> _]. eexists. split; [reflexivity|].
      unfold point_frame. cbn. destruct e; cbn. easy.
  - exists e. split; [reflexivity|]. unfold point_frame. easy.
Qed.

Lemma point_frame_trans (technique : option PoiTechnique)
    (techniques : list (option PoiTechnique)) (e1 e2 e3 : Emitter) :
  point_frame [technique] e1 e2 -> point_frame techniques e2 e3 ->
  point_frame (technique :: techniques) e1 e3.
Proof.
  intros (Ho1 & Hs1 & Hi1 & Ht1) (Ho2 & Hs2 & Hi2 & Ht2).
  split; [congruence|]. split; [congruence|]. split.
  - intros index Hall. apply Forall_cons in Hall. destruct Hall as [Hhead Hrest].
    rewrite Hi2 by assumption. apply Hi1. now apply Forall_singleton.
  - intros index b Hb Hnot. apply Ht2; [|assumption]. now apply Ht1.
Qed.

(** X4.  A point feature never throws and emits nothing by itself: it
    leaves every geometry and line list of the emitter as it was, adds at
    most its source, and writes only point buffers of the indices of its
    techniques; buffers of another index and buffers of another geometry
    type are found after it as they were before (a technique index that is
    taken by another geometry type is passed over). *)
Theorem point_feature_frame (layer : string) (extents : number) (geometry : list Vector2)
    (env : MapEnv) (techniques : list (option PoiTechnique)) (featureId : option number)
    (e : Emitter) :
  exists e',
    processPointFeature layer extents geometry env techniques featureId e = (Normal tt, e')
    /\ point_frame techniques (snd (processFeatureCommon env e)) e'
    /\ outputs e' = outputs e
    /\ (forall index b, map_get index (m_meshBuffers e) = Some b -> mb_type b <> Point ->
          map_get index (m_meshBuffers e') = Some b).
Proof.
  unfold processPointFeature, bind at 1.
  pose proof (processFeatureCommon_frame env e) as Hstep.
  destruct (processFeatureCommon env e) as [c e0] eqn:Hcommon. cbn [snd fst] in *.
  destruct Hstep as (-> & Hmesh & Hout).
  change (fun technique : option PoiTechnique => _)
    with (point_turn extents geometry env featureId).
  assert (Hloop : forall e1, exists e',
            for_each techniques (point_turn extents geometry env featureId) e1
            = (Normal tt, e') /\ point_frame techniques e1 e').
  { induction techniques as [|technique rest IH]; intros e1; cbn [for_each].
    - exists e1. split; [reflexivity|]. unfold point_frame. easy.
    - destruct (point_turn_frame extents geometry env featureId technique e1)
        as (e2 & Hrun & Hframe).
      destruct (IH e2) as (e3 & Hrun3 & Hframe3).
      exists e3. unfold bind. rewrite Hrun. split; [exact Hrun3|].
      now apply point_frame_trans with e2. }
  destruct (Hloop e0) as (e' & Hrun & Hframe).
  exists e'. split; [exact Hrun|]. split; [exact Hframe|].
  destruct Hframe as (Ho & _ & _ & Ht). split; [congruence|].
  intros index b Hb Hnot. apply Ht; [|assumption]. now rewrite Hmesh.
Qed.

(** *** Line geometries are shared per technique and render order offset *)

(** What [linesGeometry.find] compares. *)
Definition line_key (g : LinesGeometry) : Z * option number :=
  (lines_technique g, lines_renderOrderOffset g).

Definition joins (techniqueIndex : Z) (renderOrderOffset : option Value) (g : LinesGeometry)
  : bool :=
  Z.eqb (lines_technique g) techniqueIndex
  && same_renderOrderOffset (lines_renderOrderOffset g) renderOrderOffset.

(** [featureIds] and [featureStarts] are both absent or of one length. *)
Definition ids_in_step (g : LinesGeometry) : Prop :=
  length <$> lines_featureIds g = length <$> lines_featureStarts g.

Lemma extend_linesGeometry_found (linesGeometry : list LinesGeometry) (techniqueIndex : Z)
    (renderOrderOffset : option Value) (gatherFeatureIds : bool) (featureId : option number)
    (lines : list (list number)) (uvs : option (list (list number))) :
  existsb (joins techniqueIndex renderOrderOffset) linesGeometry = true ->
  exists linesGeometry',
    extend_linesGeometry linesGeometry techniqueIndex renderOrderOffset gatherFeatureIds
      featureId lines uvs = Some linesGeometry'
    /\ map line_key linesGeometry' = map line_key linesGeometry
    /\ map lines_type linesGeometry' = map lines_type linesGeometry
    /\ (Forall ids_in_step linesGeometry -> Forall ids_in_step linesGeometry').
Proof.
  induction linesGeometry as [|aLine rest IH]; cbn [existsb extend_linesGeometry];
    [discriminate|].
  unfold joins at 1.
  destruct (Z.eqb (lines_technique aLine) techniqueIndex
            && same_renderOrderOffset (lines_renderOrderOffset aLine) renderOrderOffset).
  - intros _. eexists. split; [reflexivity|].
    unfold ids_in_step.
    destruct gatherFeatureIds, (lines_featureIds aLine) as [ids|] eqn:Hids,
      (lines_featureStarts aLine) as [starts|] eqn:Hstarts;
      (split; [reflexivity|]); (split; [reflexivity|]);
      intros Hall; apply Forall_cons in Hall; destruct Hall as [Hhead Hrest];
      apply Forall_cons; (split; [|exact Hrest]); cbn; rewrite ?Hids, ?Hstarts in *;
      cbn in *; try assumption.
    rewrite !length_app. cbn. congruence.
  - cbn [orb]. intros Hrest. destruct (IH Hrest) as (rest' & -> & Hkeys & Htypes & Hstep).
    eexists. split; [reflexivity|]. cbn. rewrite Hkeys, Htypes.
    split; [reflexivity|]. split; [reflexivity|].
    intros Hall. apply Forall_cons in Hall. destruct Hall as [Hhead Hall].
    apply Forall_cons. split; [exact Hhead | now apply Hstep].
Qed.

Lemma extend_linesGeometry_fresh (linesGeometry : list LinesGeometry) (techniqueIndex : Z)
    (renderOrderOffset : option Value) (gatherFeatureIds : bool) (featureId : option number)
    (lines : list (list number)) (uvs : option (list (list number))) :
  existsb (joins techniqueIndex renderOrderOffset) linesGeometry = false ->
  extend_linesGeometry linesGeometry techniqueIndex renderOrderOffset gatherFeatureIds
    featureId lines uvs = None.
Proof.
  induction linesGeometry as [|aLine rest IH]; cbn [existsb extend_linesGeometry];
    [reflexivity|].
  unfold joins at 1.
  destruct (Z.eqb (lines_technique aLine) techniqueIndex
            && same_renderOrderOffset (lines_renderOrderOffset aLine) renderOrderOffset);
    cbn [orb]; [discriminate|].
  intros Hrest. now rewrite IH.
Qed.

(** [technique.renderOrderBiasProperty ? env.lookup(...) : 0]. *)
Definition renderOrderOffset_of (technique : Technique) (env : MapEnv) : option Value :=
  match renderOrderBiasProperty technique with
  | Some property =>
      if String.eqb property "" then Some (VNumber 0%float) else env_lookup env property
  | None => Some (VNumber 0%float)
  end.

(** The calls of [lineGroup.add] that the lines of a feature make: every
    line once, in order, with the texture coordinates of its place
    ([uvs[i]], which is [undefined] beyond the array). *)
Definition added_lines (lines : list (list number)) (uvs : option (list (list number)))
  : list (list number * option (list number)) :=
  imap (fun i aLine => (aLine, uvs ≫= (fun uvLists => uvLists !! i))) lines.

Definition with_lines (lines : list (list number)) (uvs : option (list (list number)))
    (lineGroup : LineGroup) : LineGroup :=
  fold_left (fun g call => LineGroup_add (center m_decodeInfo) (fst call) (snd call) g)
    (added_lines lines uvs) lineGroup.

Lemma add_lines_calls (lines : list (list number)) (uvs : option (list (list number)))
    (lineGroup : LineGroup) :
  add_lines lines uvs lineGroup = with_lines lines uvs lineGroup.
Proof.
  unfold with_lines, added_lines. revert uvs lineGroup.
  induction lines as [|aLine rest IH]; intros uvs lineGroup; [reflexivity|].
  cbn [add_lines imap fold_left fst snd]. destruct uvs as [uvLists|].
  - rewrite IH. cbn [mbind option_bind].
    replace (uvLists !! 0%nat) with (head uvLists) by now destruct uvLists.
    f_equal. apply imap_ext. intros i line _. cbn. f_equal.
    now destruct uvLists.
  - rewrite IH. reflexivity.
Qed.

(** What a call does to the geometry it finds: the feature is recorded
    when ids are gathered and the geometry has both arrays, with the
    index count of the line group before the lines as its start. *)
Definition joined (gatherFeatureIds : bool) (featureId : option number)
    (lines : list (list number)) (uvs : option (list (list number)))
    (g g' : LinesGeometry) : Prop :=
  lines_lines g' = with_lines lines uvs (lines_lines g)
  /\ lines_type g' = lines_type g /\ line_key g' = line_key g
  /\ (lines_featureIds g', lines_featureStarts g')
     = match gatherFeatureIds, lines_featureIds g, lines_featureStarts g with
       | true, Some ids, Some starts =>
           (Some (ids ++ [featureId]),
            Some (starts ++ [of_nat (length (lg_indices (lines_lines g)))]))
       | _, _, _ => (lines_featureIds g, lines_featureStarts g)
       end.

Lemma extend_linesGeometry_first (before after : list LinesGeometry) (g : LinesGeometry)
    (techniqueIndex : Z) (renderOrderOffset : option Value) (gatherFeatureIds : bool)
    (featureId : option number) (lines : list (list number))
    (uvs : option (list (list number))) :
  Forall (fun earlier => joins techniqueIndex renderOrderOffset earlier = false) before ->
  joins techniqueIndex renderOrderOffset g = true ->
  exists g',
    extend_linesGeometry (before ++ g :: after) techniqueIndex renderOrderOffset
      gatherFeatureIds featureId lines uvs = Some (before ++ g' :: after)
    /\ joined gatherFeatureIds featureId lines uvs g g'.
Proof.
  intros Hbefore Hjoins. induction before as [|earlier before IH].
  - cbn [app extend_linesGeometry]. unfold joins in Hjoins. rewrite Hjoins.
    eexists. split; [reflexivity|]. unfold joined. rewrite <- add_lines_calls.
    unfold line_key.
    destruct gatherFeatureIds, (lines_featureIds g) eqn:Hids,
      (lines_featureStarts g) eqn:Hstarts;
      cbn; rewrite ?Hids, ?Hstarts; repeat split; reflexivity.
  - apply Forall_cons in Hbefore. destruct Hbefore as [Hearlier Hbefore].
    destruct (IH Hbefore) as (g' & Hrun & Hjoined). exists g'. split; [|exact Hjoined].
    change ((earlier :: before) ++ g :: after) with (earlier :: (before ++ g :: after)).
    cbn [extend_linesGeometry]. unfold joins in Hearlier. rewrite Hearlier, Hrun.
    reflexivity.
Qed.

(** X5.  [applyLineTechnique] keeps one line geometry per technique index
    and render order offset: when a geometry of the list has the index and
    the offset of the call, the lines join it and the list keeps its
    length, keys and types; otherwise exactly one geometry with that key is
    appended.  The stored offset is [Number(offset)] but the search
    compares with the offset as looked up, so the new geometry is found by
    the next call when the offset is absent or a number equal to itself
    (always for a technique without bias property), and then the next call
    appends nothing.  The feature ids and feature starts of every geometry
    stay both absent or of one length.  The lines join the first geometry
    with the key: its line group gets every line of the call once, in
    order, with the texture coordinates of its place, and the geometries
    before and after it are untouched; a new geometry gets them in a new
    line group. *)
Theorem line_geometries_are_shared (linesGeometry : list LinesGeometry) (technique : Technique)
    (techniqueIndex : Z) (gatherFeatureIds : bool) (lineType : LineType)
    (featureId : option number) (lines : list (list number)) (env : MapEnv)
    (uvs : option (list (list number))) :
  let renderOrderOffset := renderOrderOffset_of technique env in
  let found := existsb (joins techniqueIndex renderOrderOffset) linesGeometry in
  let linesGeometry' :=
    applyLineTechnique linesGeometry technique techniqueIndex gatherFeatureIds lineType
      featureId lines env uvs in
  map line_key linesGeometry' =
    map line_key linesGeometry
    ++ (if found then [] else [(techniqueIndex, Number_ <$> renderOrderOffset)])
  /\ map lines_type linesGeometry' =
       map lines_type linesGeometry
       ++ (if found then []
           else [match lineType with Complex => SolidLine | Simple => Line end])
  /\ (same_renderOrderOffset (Number_ <$> renderOrderOffset) renderOrderOffset = true ->
      existsb (joins techniqueIndex renderOrderOffset) linesGeometry' = true)
  /\ (renderOrderBiasProperty technique = None ->
      forall lineType' featureId' lines' uvs',
        map line_key (applyLineTechnique linesGeometry' technique techniqueIndex
                        gatherFeatureIds lineType' featureId' lines' env uvs')
        = map line_key linesGeometry')
  /\ (Forall ids_in_step linesGeometry -> Forall ids_in_step linesGeometry')
  /\ (forall before g after,
        linesGeometry = before ++ g :: after ->
        Forall (fun earlier => joins techniqueIndex renderOrderOffset earlier = false) before ->
        joins techniqueIndex renderOrderOffset g = true ->
        exists g',
          linesGeometry' = before ++ g' :: after
          /\ joined gatherFeatureIds featureId lines uvs g g')
  /\ (found = false ->
      exists g',
        linesGeometry' = linesGeometry ++ [g']
        /\ lines_lines g'
           = with_lines lines uvs
               (LineGroup_new (bool_decide (is_Some uvs)) (bool_decide (lineType = Simple)))
        /\ (lines_featureIds g', lines_featureStarts g')
           = if gatherFeatureIds && negb (transient technique)
             then (Some [featureId], Some [0%float]) else (None, None)).
Proof.
  cbv zeta.
  assert (Hkeys : forall lg lineType0 featureId0 lines0 uvs0,
    let found := existsb (joins techniqueIndex (renderOrderOffset_of technique env)) lg in
    let lg' := applyLineTechnique lg technique techniqueIndex gatherFeatureIds lineType0
                 featureId0 lines0 env uvs0 in
    map line_key lg' =
      map line_key lg
      ++ (if found then []
          else [(techniqueIndex, Number_ <$> renderOrderOffset_of technique env)])
    /\ map lines_type lg' =
         map lines_type lg
         ++ (if found then []
             else [match lineType0 with Complex => SolidLine | Simple => Line end])
    /\ (same_renderOrderOffset (Number_ <$> renderOrderOffset_of technique env)
          (renderOrderOffset_of technique env) = true ->
        existsb (joins techniqueIndex (renderOrderOffset_of technique env)) lg' = true)
    /\ (Forall ids_in_step lg -> Forall ids_in_step lg')).
  { intros lg lineType0 featureId0 lines0 uvs0. cbv zeta.
    unfold applyLineTechnique. fold (renderOrderOffset_of technique env).
    destruct (existsb (joins techniqueIndex (renderOrderOffset_of technique env)) lg)
      eqn:Hfound.
    - destruct (extend_linesGeometry_found lg techniqueIndex
                  (renderOrderOffset_of technique env) gatherFeatureIds featureId0 lines0 uvs0
                  Hfound) as (lg' & -> & Hk & Ht & Hstep).
      rewrite !app_nil_r. split; [exact Hk|]. split; [exact Ht|]. split; [|exact Hstep].
      intros _. clear -Hfound Hk.
      rewrite <- Hfound.
      assert (Hjoin : forall l, existsb (joins techniqueIndex (renderOrderOffset_of technique env)) l
                = existsb (fun k => Z.eqb (fst k) techniqueIndex
                                    && same_renderOrderOffset (snd k)
                                         (renderOrderOffset_of technique env))
                    (map line_key l)).
      { intros l. induction l as [|g l IHl]; cbn; [reflexivity|]. now rewrite IHl. }
      now rewrite !Hjoin, Hk.
    - rewrite (extend_linesGeometry_fresh lg techniqueIndex
                 (renderOrderOffset_of technique env) gatherFeatureIds featureId0 lines0 uvs0
                 Hfound).
      rewrite !map_app. cbn [map line_key lines_technique lines_renderOrderOffset lines_type].
      split; [reflexivity|]. split; [reflexivity|]. split.
      + intros Hsame. rewrite existsb_app. cbn [existsb]. unfold joins at 2.
        cbn [lines_technique lines_renderOrderOffset].
        rewrite Z.eqb_refl, Hsame. cbn. now rewrite orb_true_r.
      + intros Hall. apply Forall_app. split; [exact Hall|].
        apply Forall_singleton. unfold ids_in_step. cbn.
        now destruct (gatherFeatureIds && negb (transient technique)). }
  destruct (Hkeys linesGeometry lineType featureId lines uvs) as (Hk & Ht & Hnext & Hstep).
  split; [exact Hk|]. split; [exact Ht|]. split; [exact Hnext|].
  split; [|split; [exact Hstep|split]].
  - intros Hbias lineType' featureId' lines' uvs'.
    destruct (Hkeys (applyLineTechnique linesGeometry technique techniqueIndex
                       gatherFeatureIds lineType featureId lines env uvs) lineType'
                featureId' lines' uvs') as (Hk' & _).
    rewrite Hk', Hnext; [now rewrite app_nil_r|].
    unfold renderOrderOffset_of. now rewrite Hbias.
  - intros before g after -> Hbefore Hjoins.
    destruct (extend_linesGeometry_first before after g techniqueIndex
                (renderOrderOffset_of technique env) gatherFeatureIds featureId lines uvs
                Hbefore Hjoins) as (g' & Hrun & Hjoined).
    exists g'. split; [|exact Hjoined].
    unfold applyLineTechnique. fold (renderOrderOffset_of technique env). now rewrite Hrun.
  - intros Hfresh. unfold applyLineTechnique. fold (renderOrderOffset_of technique env).
    rewrite (extend_linesGeometry_fresh linesGeometry techniqueIndex
               (renderOrderOffset_of technique env) gatherFeatureIds featureId lines uvs
               Hfresh).
    eexists. split; [reflexivity|]. cbn [lines_lines lines_featureIds lines_featureStarts].
    rewrite add_lines_calls. split; [reflexivity|].
    now destruct (gatherFeatureIds && negb (transient technique)).
Qed.

(** *** Rings, footprints and outlines of polygons *)

(** X8.  The loop over [ringIndex] deals every ring of a polygon to
    exactly one ring group, in order: the groups, each read as its outer
    ring followed by its holes, are the polygon again.  A ring opens a
    group exactly when it has the winding of the first ring of the
    polygon, so every outer ring has that winding and every hole the
    opposite one; no group is without outer ring. *)
Theorem ring_groups_partition (polygon : list Ring) :
  flat_map (fun group => fst group :: snd group) (ring_groups polygon) = polygon
  /\ (forall first, head polygon = Some first ->
        Forall (fun group =>
                  winding (fst group) = winding first
                  /\ Forall (fun hole => winding hole = negb (winding first)) (snd group))
               (ring_groups polygon))
  /\ length (ring_groups polygon)
     = length (List.filter (fun ring => bool_decide (Some (winding ring)
                                                     = winding <$> head polygon)) polygon).
Proof.
  destruct polygon as [|first rest]; [cbn; split; [reflexivity | split; [constructor | reflexivity]]|].
  cbn [ring_groups head fmap option_fmap option_map].
  assert (Hfrom : forall rest outer holeRings,
    winding outer = winding first ->
    Forall (fun hole => winding hole = negb (winding first)) holeRings ->
    flat_map (fun group => fst group :: snd group) (ring_groups_from outer holeRings rest)
      = outer :: holeRings ++ rest
    /\ Forall (fun group =>
                 winding (fst group) = winding first
                 /\ Forall (fun hole => winding hole = negb (winding first)) (snd group))
              (ring_groups_from outer holeRings rest)
    /\ length (ring_groups_from outer holeRings rest)
       = S (length (List.filter (fun ring => bool_decide (Some (winding ring)
                                                          = Some (winding first))) rest))).
  { clear rest. intros rest. induction rest as [|ring rest IH]; intros outer holeRings Hout Hholes;
      cbn [ring_groups_from].
    - cbn. rewrite !app_nil_r. split; [reflexivity|]. split; [|reflexivity].
      constructor; [now split | constructor].
    - cbn [List.filter]. rewrite Hout.
      destruct (Bool.eqb (winding ring) (winding first)) eqn:Hw; cbn [negb].
      + apply Bool.eqb_prop in Hw. rewrite bool_decide_eq_true_2 by congruence.
        destruct (IH ring [] Hw (List.Forall_nil _)) as (Hflat & Hall & Hlen).
        cbn [flat_map fst snd length]. rewrite Hflat, Hlen. cbn [app].
        split; [reflexivity|]. split; [|reflexivity].
        constructor; [now split | exact Hall].
      + apply Bool.eqb_false_iff in Hw.
        rewrite bool_decide_eq_false_2 by congruence.
        assert (Hopp : winding ring = negb (winding first))
          by (destruct (winding ring), (winding first); cbn; congruence).
        destruct (IH outer (holeRings ++ [ring]) Hout) as (Hflat & Hall & Hlen).
        { apply Forall_app. split; [exact Hholes | now apply Forall_singleton]. }
        rewrite Hflat, <- app_assoc. now split. }
  destruct (Hfrom rest first [] eq_refl (List.Forall_nil _)) as (Hflat & Hall & Hlen).
  split; [exact Hflat|]. split; [now intros ? [= <-]|].
  cbn [List.filter]. rewrite bool_decide_eq_true_2 by reflexivity. exact Hlen.
Qed.

(** The number of vertices of a contour, and the vertex offsets of the
    rings that follow [start] vertices. *)
Definition vertex_count (featureStride : nat) (ring : Ring) : nat :=
  (length (contour ring) / featureStride)%nat.

Fixpoint offsets_from (start : nat) (counts : list nat) : list nat :=
  match counts with
  | [] => []
  | count :: rest => start :: offsets_from (start + count) rest
  end.

Lemma length_offsets_from (counts : list nat) (start : nat) :
  length (offsets_from start counts) = length counts.
Proof.
  revert start. induction counts as [|count rest IH]; intros start; cbn;
    [reflexivity | now rewrite IH].
Qed.

Lemma length_contour_vertices (ringContour : list number) (featureStride vertexOffset : nat)
    (extents : number) (walls : bool) :
  length (contour_vertices ringContour featureStride vertexOffset extents walls)
  = ((length ringContour / featureStride) * (featureStride + 2))%nat.
Proof.
  unfold contour_vertices.
  rewrite (flat_map_constant_length (c := (featureStride + 2)%nat)).
  - now rewrite length_seq.
  - intros i _. unfold contour_vertex. rewrite length_app, length_map, length_seq. reflexivity.
Qed.

Lemma add_holes_layout (holeRings : list Ring) (featureStride : nat) (extents : number)
    (walls : bool) (vertices holes : list number) (n : nat) :
  length vertices = (n * (featureStride + 2))%nat ->
  let result := add_holes holeRings featureStride extents walls vertices holes in
  length (fst result)
  = ((n + list_sum (map (vertex_count featureStride) holeRings)) * (featureStride + 2))%nat
  /\ snd result
     = holes ++ map of_nat (offsets_from n (map (vertex_count featureStride) holeRings)).
Proof.
  cbv zeta. revert vertices holes n.
  induction holeRings as [|hole rest IH]; intros vertices holes n Hlen;
    cbn [add_holes map offsets_from list_sum fst snd].
  - rewrite Nat.add_0_r, app_nil_r. now split.
  - rewrite Hlen, Nat.div_mul by lia.
    destruct (IH (vertices
                  ++ contour_vertices (contour hole) featureStride n extents walls)
                 (holes ++ [of_nat n]) (n + vertex_count featureStride hole)%nat)
      as [Hv Hh].
    { rewrite length_app, length_contour_vertices, Hlen. unfold vertex_count. lia. }
    rewrite Hv, Hh, <- app_assoc. split; [|reflexivity].
    unfold list_sum. cbn [fold_right]. lia.
Qed.

(** X9.  The footprint handed to [earcut] for a ring group whose contours
    hold whole vertices: it has [vertexStride] numbers for every vertex
    of the outer ring and of the holes, and the hole indices are the
    numbers of vertices that precede each hole, the first being the vertex
    count of the outer ring; there is one index per hole. *)
Theorem footprint_layout (technique : Technique) (extents : number)
    (group : Ring * list Ring) :
  let featureStride :=
    if bool_decide (is_Some (getTextureCoordinateType technique)) then 4%nat else 2%nat in
  let vertexStride := (featureStride + 2)%nat in
  Forall (fun ring => (length (contour ring) mod featureStride = 0)%nat)
         (fst group :: snd group) ->
  let vertices := fst (footprint technique extents group) in
  let holes := snd (footprint technique extents group) in
  length vertices
  = (list_sum (map (vertex_count featureStride) (fst group :: snd group)) * vertexStride)%nat
  /\ holes = map of_nat (offsets_from (vertex_count featureStride (fst group))
                           (map (vertex_count featureStride) (snd group)))
  /\ length holes = length (snd group).
Proof.
  cbv zeta. intros _. unfold footprint.
  set (featureStride :=
         if bool_decide (is_Some (getTextureCoordinateType technique)) then 4%nat else 2%nat).
  set (walls := negb (bool_decide (boundaryWalls technique = Some false))).
  destruct (add_holes_layout (snd group) featureStride extents walls
              (contour_vertices (contour (fst group)) featureStride 0 extents walls) []
              (vertex_count featureStride (fst group))) as [Hv Hh].
  { apply length_contour_vertices. }
  rewrite Hv, Hh. cbn [app map list_sum]. split; [reflexivity|]. split; [reflexivity|].
  now rewrite length_map, length_offsets_from, length_map.
Qed.

(** Whether the edge from vertex [i] of a ring to the next one is part of
    the outline: [isOutline] in [processPolygonFeature]. *)
Definition outline_edge (ring : Ring) (i : nat) : bool :=
  let count := (length (contour ring) / ring_vertexStride ring)%nat in
  let nextIdx := ((i + 1) mod count)%nat in
  insideExtents (at_ (contour ring) (i * ring_vertexStride ring))
    (at_ (contour ring) (i * ring_vertexStride ring + 1))
    (at_ (contour ring) (nextIdx * ring_vertexStride ring))
    (at_ (contour ring) (nextIdx * ring_vertexStride ring + 1)) (ring_extents ring).

(** A line of [k + 2] points, and the number of edges of a line. *)
Definition polyline (aLine : list number) : Prop :=
  exists k, length aLine = (3 * (k + 2))%nat.

Definition segments (aLine : list number) : nat := (length aLine / 3 - 1)%nat.

Lemma segments_polyline (aLine : list number) (k : nat) :
  length aLine = (3 * (k + 2))%nat -> segments aLine = S k.
Proof.
  intros Hlen. unfold segments. rewrite Hlen, Nat.mul_comm, Nat.div_mul by lia. lia.
Qed.

Lemma outline_step_edges (extents : number) (ring : Ring) (lines added : list (list number))
    (line : list number) (i n : nat) :
  Forall polyline added -> line = [] \/ polyline line ->
  (list_sum (map segments added) + segments line = n)%nat ->
  exists added' line',
    outline_step extents ring (lines ++ added, line) i = (lines ++ added', line')
    /\ Forall polyline added' /\ (line' = [] \/ polyline line')
    /\ (list_sum (map segments added') + segments line'
        = n + (if outline_edge ring i then 1 else 0))%nat.
Proof.
  intros Hadded Hline Hsum. unfold outline_step. fold (outline_edge ring i).
  cbn [fst snd].
  destruct (outline_edge ring i); cbn [negb andb].
  - destruct Hline as [->|[k Hk]].
    + cbn [nonempty negb app fst snd]. exists added. eexists. split; [reflexivity|].
      split; [exact Hadded|]. split; [right; now exists 0%nat|].
      rewrite (segments_polyline _ 0) by reflexivity.
      change (segments []) with 0%nat in Hsum. lia.
    + assert (Hne : nonempty line = true) by (destruct line; [cbn in Hk; lia | reflexivity]).
      rewrite Hne. cbn [negb fst snd]. exists added. eexists. split; [reflexivity|].
      split; [exact Hadded|].
      assert (Hlen : forall x y, length (line ++ world_point extents x y) = (3 * (S k + 2))%nat).
      { intros x y. rewrite length_app, Hk. cbn [world_point length]. lia. }
      split; [right; now exists (S k)|].
      rewrite (segments_polyline _ _ (Hlen _ _)). rewrite (segments_polyline _ _ Hk) in Hsum.
      lia.
  - destruct Hline as [->|[k Hk]].
    + cbn [nonempty]. exists added, []. split; [reflexivity|].
      split; [exact Hadded|]. split; [now left|]. lia.
    + assert (Hne : nonempty line = true) by (destruct line; [cbn in Hk; lia | reflexivity]).
      rewrite Hne. exists (added ++ [line]), []. split; [now rewrite app_assoc|].
      split; [apply Forall_app; split; [exact Hadded | apply Forall_singleton; now exists k]|].
      split; [now left|].
      rewrite map_app, list_sum_app. change (segments []) with 0%nat.
      change (list_sum (map segments [line])) with (segments line + 0)%nat. lia.
Qed.

(** X10.  The outline of a ring as lines, for a ring whose contour holds
    whole vertices: the lines that were collected stay, every line that
    is added has at least two points, and the added lines have together
    exactly one segment for every edge of the ring that does not lie
    along the border of the tile (on or beyond one side of the extents):
    no border edge is drawn and no inner edge is lost. *)
Theorem outline_keeps_inner_edges (extents : number) (lines : list (list number))
    (ring : Ring) :
  (length (contour ring) mod ring_vertexStride ring = 0)%nat ->
  exists added,
    outline_lines extents lines ring = lines ++ added
    /\ Forall polyline added
    /\ list_sum (map segments added)
       = length (List.filter (outline_edge ring)
                   (List.seq 0 (length (contour ring) / ring_vertexStride ring))).
Proof.
  intros _. unfold outline_lines.
  assert (Hloop : forall steps added line n,
    Forall polyline added -> line = [] \/ polyline line ->
    (list_sum (map segments added) + segments line = n)%nat ->
    exists added' line',
      fold_left (outline_step extents ring) steps (lines ++ added, line)
      = (lines ++ added', line')
      /\ Forall polyline added' /\ (line' = [] \/ polyline line')
      /\ (list_sum (map segments added') + segments line'
          = n + length (List.filter (outline_edge ring) steps))%nat).
  { induction steps as [|i rest IH]; intros added line n Hadded Hline Hsum;
      cbn [fold_left List.filter].
    - exists added, line. cbn [length]. rewrite Nat.add_0_r. now repeat split.
    - destruct (outline_step_edges extents ring lines added line i n Hadded Hline Hsum)
        as (added1 & line1 & -> & Hadded1 & Hline1 & Hsum1).
      destruct (IH added1 line1 _ Hadded1 Hline1 Hsum1)
        as (added2 & line2 & -> & Hadded2 & Hline2 & Hsum2).
      exists added2, line2. split; [reflexivity|]. split; [exact Hadded2|].
      split; [exact Hline2|]. rewrite Hsum2.
      destruct (outline_edge ring i); cbn [length]; lia. }
  destruct (Hloop (List.seq 0 (length (contour ring) / ring_vertexStride ring)) [] [] 0%nat)
    as (added & line & Hrun & Hadded & Hline & Hsum); [constructor | now left | reflexivity|].
  rewrite app_nil_r in Hrun. rewrite Hrun. cbn [fst snd].
  destruct Hline as [->|[k Hk]].
  - cbn [nonempty]. exists added. split; [reflexivity|]. split; [exact Hadded|].
    change (segments []) with 0%nat in Hsum. lia.
  - assert (Hne : nonempty line = true) by (destruct line; [cbn in Hk; lia | reflexivity]).
    rewrite Hne. exists (added ++ [line]). split; [now rewrite app_assoc|].
    split; [apply Forall_app; split; [exact Hadded | apply Forall_singleton; now exists k]|].
    rewrite map_app, list_sum_app.
    change (list_sum (map segments [line])) with (segments line + 0)%nat. lia.
Qed.

(** *** The vertex and index buffers of a polygon *)

(** More collaborators: [webMercatorTile2TargetWorld] with its optional
    last argument, and [targetProjection.getScaleFactor]. *)
Variable webMercatorTile2TargetWorld5 : number -> DecodeInfo -> Vector2 -> bool -> Vector3.
Variable getScaleFactor : Vector3 -> number.

Definition v3_add (a b : Vector3) : Vector3 :=
  {| v3_x := v3_x a + v3_x b; v3_y := v3_y a + v3_y b; v3_z := v3_z a + v3_z b |}%float.

Definition v3_sub (a b : Vector3) : Vector3 :=
  {| v3_x := v3_x a - v3_x b; v3_y := v3_y a - v3_y b; v3_z := v3_z a - v3_z b |}%float.

(** [v.multiplyScalar(s)] and [v.normalize()] of [THREE.Vector3]; the
    latter is [divideScalar(length() || 1)], a multiplication by the
    inverse. *)
Definition v3_scale (v : Vector3) (s : number) : Vector3 :=
  {| v3_x := v3_x v * s; v3_y := v3_y v * s; v3_z := v3_z v * s |}%float.

Definition v3_normalize (v : Vector3) : Vector3 :=
  let len := PrimFloat.sqrt (v3_x v * v3_x v + v3_y v * v3_y v + v3_z v * v3_z v)%float in
  let divisor := if PrimFloat.eqb len 0 || PrimFloat.is_nan len then 1%float else len in
  v3_scale v (1 / divisor)%float.

Definition v3_toArray (v : Vector3) : list number := [v3_x v; v3_y v; v3_z v].

(** The locals of [applyPolygonTechnique] that the assembly of the buffers
    reads: [isExtruded], [texCoordType !== undefined],
    [constantHeight === true], [vertexColors === true], [minHeight],
    [height], the components of [color] and [tempTileOrigin]. *)
Record PolygonLocals : Type := mkPolygonLocals {
  isExtruded : bool;
  hasTexCoords : bool;
  constantHeight : bool;
  vertexColors : bool;
  minHeight : number;
  height : number;
  color_r : number;
  color_g : number;
  color_b : number;
  tempTileOrigin : Vector3
}.

Definition add_vertex_data (newPositions newNormals newTexCoords newAxis newColors : list number)
    (b : MeshBuffers) : MeshBuffers :=
  {| mb_type := mb_type b; positions := positions b ++ newPositions;
     normals := normals b ++ newNormals;
     textureCoordinates := textureCoordinates b ++ newTexCoords;
     colors := colors b ++ newColors;
     extrusionAxis := extrusionAxis b ++ newAxis; indices := indices b;
     edgeIndices := edgeIndices b; groups := groups b; texts := texts b;
     stringCatalog := stringCatalog b; imageTextures := imageTextures b;
     featureIds := featureIds b; featureStarts := featureStarts b;
     objInfos := objInfos b |}.

(** One turn of the loop that assembles the vertex buffer, for the vertex
    that starts at [i] in [vertices]. *)
Definition assembleVertex (locals : PolygonLocals) (featureStride : nat) (extents : number)
    (vertices : list number) (b : MeshBuffers) (i : nat) : MeshBuffers :=
  let tmpV3 :=
    webMercatorTile2TargetWorld5 extents m_decodeInfo
      {| v2_x := at_ vertices i; v2_y := at_ vertices (i + 1) |} true in
  let scaleFactor :=
    if isExtruded locals && negb (constantHeight locals)
    then getScaleFactor (v3_add (tempTileOrigin locals) tmpV3)
    else 1%float in
  let tempVertNormal :=
    if isSpherical m_decodeInfo then v3_normalize (v3_add tmpV3 (center m_decodeInfo))
    else {| v3_x := 0; v3_y := 0; v3_z := 1 |}%float in
  let tempFootDisp := v3_scale tempVertNormal (minHeight locals * scaleFactor)%float in
  let tempRoofDisp := v3_scale tempVertNormal (height locals * scaleFactor)%float in
  let uv := if hasTexCoords locals then [at_ vertices (i + 2); at_ vertices (i + 3)] else [] in
  let normal := if m_enableElevationOverlay then v3_toArray tempVertNormal else [] in
  let foot := add_vertex_data (v3_toArray (v3_add tmpV3 tempFootDisp)) normal uv [] [] b in
  if isExtruded locals then
    add_vertex_data (v3_toArray (v3_add tmpV3 tempRoofDisp)) normal uv
      ([0; 0; 0]%float ++ v3_toArray (v3_sub tempRoofDisp tempFootDisp))
      (if vertexColors locals
       then [color_r locals; color_g locals; color_b locals;
             color_r locals; color_g locals; color_b locals]
       else [])
      foot
  else foot.

(** The values of [i] in [for (let i = 0; i < length; i += stride)]. *)
Definition strides (length stride : nat) : list nat :=
  map (fun k => (k * stride)%nat) (List.seq 0 ((length + stride - 1) / stride)).

Definition assembleVertices (locals : PolygonLocals) (featureStride : nat) (extents : number)
    (vertices : list number) (b : MeshBuffers) : MeshBuffers :=
  fold_left (assembleVertex locals featureStride extents vertices)
    (strides (length vertices) (featureStride + 2)) b.

Definition push_indices (newIndices : list number) (b : MeshBuffers) : MeshBuffers :=
  {| mb_type := mb_type b; positions := positions b; normals := normals b;
     textureCoordinates := textureCoordinates b; colors := colors b;
     extrusionAxis := extrusionAxis b; indices := indices b ++ newIndices;
     edgeIndices := edgeIndices b; groups := groups b; texts := texts b;
     stringCatalog := stringCatalog b; imageTextures := imageTextures b;
     featureIds := featureIds b; featureStarts := featureStarts b;
     objInfos := objInfos b |}.

(** The loop that adds the footprint or roof indices: when extruding, the
    vertices are duplicated, the even ones at the bottom and the odd ones
    at the top. *)
Definition assembleIndices (locals : PolygonLocals) (polygonBaseVertex : number)
    (triangles : list number) (b : MeshBuffers) : MeshBuffers :=
  fold_left (fun b i =>
    let vertexIndex (t : number) :=
      if isExtruded locals then (polygonBaseVertex + t * 2 + 1)%float
      else (polygonBaseVertex + t)%float in
    push_indices [vertexIndex (at_ triangles i); vertexIndex (at_ triangles (i + 1));
                  vertexIndex (at_ triangles (i + 2))] b)
    (strides (length triangles) 3) b.

(** The sizes of the vertex arrays of mesh buffers. *)
Record MeshSizes : Type := mkMeshSizes {
  n_mesh_positions : nat; n_mesh_normals : nat; n_mesh_texCoords : nat;
  n_mesh_axis : nat; n_mesh_colors : nat
}.

Definition mesh_sizes (b : MeshBuffers) : MeshSizes :=
  {| n_mesh_positions := length (positions b); n_mesh_normals := length (normals b);
     n_mesh_texCoords := length (textureCoordinates b);
     n_mesh_axis := length (extrusionAxis b); n_mesh_colors := length (colors b) |}.

(** The sizes after [n] footprint vertices were assembled. *)
Definition grown (locals : PolygonLocals) (n : nat) (sizes : MeshSizes) : MeshSizes :=
  let copies := if isExtruded locals then 2%nat else 1%nat in
  {| n_mesh_positions := n_mesh_positions sizes + 3 * copies * n;
     n_mesh_normals :=
       n_mesh_normals sizes + (if m_enableElevationOverlay then 3 * copies * n else 0);
     n_mesh_texCoords :=
       n_mesh_texCoords sizes + (if hasTexCoords locals then 2 * copies * n else 0);
     n_mesh_axis := n_mesh_axis sizes + (if isExtruded locals then 6 * n else 0);
     n_mesh_colors :=
       n_mesh_colors sizes
       + (if isExtruded locals && vertexColors locals then 6 * n else 0) |}.

(** What is not a vertex array. *)
Definition index_part (b : MeshBuffers)
  : GeometryType * list number * list number * list Group * list number
    * list (option string) * list number * list (option number) * list number
    * list ValueMap :=
  (mb_type b, indices b, edgeIndices b, groups b, texts b, stringCatalog b, imageTextures b,
   featureIds b, featureStarts b, objInfos b).

(** Mesh buffers whose optional vertex arrays go with the positions, as
    the polygons of one technique fill them: each is as long as its
    flags say, so it is empty or matches the positions. *)
Definition mesh_aligned (locals : PolygonLocals) (b : MeshBuffers) : Prop :=
  length (normals b) = (if m_enableElevationOverlay then length (positions b) else 0%nat)
  /\ (3 * length (textureCoordinates b)
      = if hasTexCoords locals then 2 * length (positions b) else 0)%nat
  /\ length (extrusionAxis b) = (if isExtruded locals then length (positions b) else 0%nat)
  /\ length (colors b)
     = (if isExtruded locals && vertexColors locals then length (positions b) else 0%nat).

Lemma assembleVertex_sizes (locals : PolygonLocals) (featureStride : nat) (extents : number)
    (vertices : list number) (b : MeshBuffers) (i : nat) :
  mesh_sizes (assembleVertex locals featureStride extents vertices b i)
  = grown locals 1 (mesh_sizes b)
  /\ index_part (assembleVertex locals featureStride extents vertices b i) = index_part b.
Proof.
  unfold assembleVertex, grown, mesh_sizes.
  destruct (isExtruded locals), (hasTexCoords locals), (vertexColors locals),
    m_enableElevationOverlay; cbn; rewrite ?length_app; cbn; rewrite ?length_app; cbn;
    (split; [f_equal; lia | reflexivity]).
Qed.

Lemma grown_grown (locals : PolygonLocals) (n k : nat) (sizes : MeshSizes) :
  grown locals n (grown locals k sizes) = grown locals (k + n) sizes.
Proof.
  unfold grown. cbn.
  destruct (isExtruded locals), (hasTexCoords locals), (vertexColors locals),
    m_enableElevationOverlay; cbn; f_equal; lia.
Qed.

(** X16.  The assembly of the vertex buffer of a polygon keeps the
    vertex arrays of the mesh buffers in step.  Every footprint vertex
    (one per [vertexStride] numbers of the footprint) adds one position,
    or two when the technique extrudes, and with every position a normal
    when the elevation overlay is enabled and a pair of texture
    coordinates when the technique has them; when extruding it adds six
    extrusion axis numbers, and six color numbers if the technique has
    vertex colors.  Nothing else is written.  So buffers whose optional
    arrays match the positions, as new buffers do, still match them
    afterwards, which is what [createGeometries] asserts of normals,
    colors and extrusion axis. *)
Theorem mesh_arrays_stay_aligned (locals : PolygonLocals) (featureStride : nat)
    (extents : number) (vertices : list number) (b : MeshBuffers) :
  let vertexStride := (featureStride + 2)%nat in
  let b' := assembleVertices locals featureStride extents vertices b in
  let n := ((length vertices + vertexStride - 1) / vertexStride)%nat in
  mesh_sizes b' = grown locals n (mesh_sizes b)
  /\ index_part b' = index_part b
  /\ (forall k, length vertices = (k * vertexStride)%nat -> n = k)
  /\ (mesh_aligned locals b -> mesh_aligned locals b')
  /\ (forall type, mesh_aligned locals (new_MeshBuffers type))
  /\ (mesh_aligned locals b' ->
      (normals b' = [] \/ length (normals b') = length (positions b'))
      /\ (colors b' = [] \/ length (colors b') = length (positions b'))
      /\ (extrusionAxis b' = [] \/ length (extrusionAxis b') = length (positions b'))
      /\ (textureCoordinates b' = []
          \/ (3 * length (textureCoordinates b') = 2 * length (positions b'))%nat)).
Proof.
  cbv zeta. unfold assembleVertices, strides.
  set (n := ((length vertices + (featureStride + 2) - 1) / (featureStride + 2))%nat).
  assert (Hloop : forall steps b0,
    mesh_sizes (fold_left (assembleVertex locals featureStride extents vertices) steps b0)
    = grown locals (length steps) (mesh_sizes b0)
    /\ index_part (fold_left (assembleVertex locals featureStride extents vertices) steps b0)
       = index_part b0).
  { induction steps as [|i steps IH]; intros b0; cbn [fold_left length].
    - split; [|reflexivity]. unfold grown, mesh_sizes. cbn.
      destruct (isExtruded locals), (hasTexCoords locals), (vertexColors locals),
        m_enableElevationOverlay; cbn; f_equal; lia.
    - destruct (IH (assembleVertex locals featureStride extents vertices b0 i)) as [Hs Hi].
      destruct (assembleVertex_sizes locals featureStride extents vertices b0 i)
        as [Hs1 Hi1].
      rewrite Hs, Hi, Hs1, Hi1, grown_grown. now split. }
  destruct (Hloop (map (fun k => (k * (featureStride + 2))%nat) (List.seq 0 n)) b)
    as [Hsizes Hindex].
  rewrite length_map, length_seq in Hsizes.
  set (b' := fold_left _ _ b) in *.
  assert (Halign : forall n0 b1 b2, mesh_sizes b2 = grown locals n0 (mesh_sizes b1) ->
                   mesh_aligned locals b1 -> mesh_aligned locals b2).
  { intros n0 b1 b2 Hgrown (Hn & Ht & Ha & Hc). unfold mesh_aligned.
    injection Hgrown as Hp' Hn' Ht' Ha' Hc'. rewrite Hp', Hn', Ht', Ha', Hc'.
    clear Hp' Hn' Ht' Ha' Hc'. cbn [n_mesh_positions n_mesh_normals n_mesh_texCoords
                                      n_mesh_axis n_mesh_colors mesh_sizes].
    destruct (isExtruded locals), (hasTexCoords locals), (vertexColors locals),
      m_enableElevationOverlay; cbn in *; repeat split; lia. }
  split; [exact Hsizes|]. split; [exact Hindex|]. split; [|split; [|split]].
  - intros k Hk. subst n. rewrite Hk.
    replace (k * (featureStride + 2) + (featureStride + 2) - 1)%nat
      with ((featureStride + 1) + k * (featureStride + 2))%nat by lia.
    rewrite Nat.div_add by lia. rewrite Nat.div_small by lia. reflexivity.
  - now apply Halign with n.
  - intros type. unfold mesh_aligned. cbn.
    destruct (isExtruded locals), (hasTexCoords locals), (vertexColors locals),
      m_enableElevationOverlay; cbn; repeat split.
  - intros (Hn & Ht & Ha & Hc).
    assert (Hnil : forall l : list number, length l = 0%nat -> l = [])
      by (intros [|? ?]; [reflexivity | discriminate]).
    destruct (isExtruded locals), (hasTexCoords locals), (vertexColors locals),
      m_enableElevationOverlay; cbn in *; repeat split;
      first [right; lia | left; apply Hnil; lia].
Qed.

(** X17.  The footprint or roof indices of a polygon: three indices are
    added for every triangle, nothing else is written, and no triangle of
    the triangulation is left out when the triangulation holds whole
    triangles. *)
Theorem triangle_indices (locals : PolygonLocals) (polygonBaseVertex : number)
    (triangles : list number) (b : MeshBuffers) :
  let b' := assembleIndices locals polygonBaseVertex triangles b in
  let n := ((length triangles + 3 - 1) / 3)%nat in
  length (indices b') = (length (indices b) + 3 * n)%nat
  /\ (exists added, indices b' = indices b ++ added)
  /\ (forall k, length triangles = (3 * k)%nat ->
        length (indices b') = (length (indices b) + length triangles)%nat)
  /\ mesh_sizes b' = mesh_sizes b
  /\ (groups b', featureIds b', featureStarts b', objInfos b', edgeIndices b')
     = (groups b, featureIds b, featureStarts b, objInfos b, edgeIndices b).
Proof.
  cbv zeta. unfold assembleIndices, strides.
  set (n := ((length triangles + 3 - 1) / 3)%nat).
  set (step := fun (b0 : MeshBuffers) (i : nat) => push_indices _ b0).
  assert (Hloop : forall steps b0,
    (exists added, indices (fold_left step steps b0) = indices b0 ++ added
                   /\ length added = (3 * length steps)%nat)
    /\ mesh_sizes (fold_left step steps b0) = mesh_sizes b0
    /\ (groups (fold_left step steps b0), featureIds (fold_left step steps b0),
        featureStarts (fold_left step steps b0), objInfos (fold_left step steps b0),
        edgeIndices (fold_left step steps b0))
       = (groups b0, featureIds b0, featureStarts b0, objInfos b0, edgeIndices b0)).
  { induction steps as [|i steps IH]; intros b0; cbn [fold_left length].
    - split; [exists []; now rewrite app_nil_r | now split].
    - destruct (IH (step b0 i)) as ((added & Hadded & Hlen) & Hsizes & Hrest).
      rewrite Hadded, Hsizes, Hrest. subst step. cbn [push_indices indices].
      split; [|now split].
      eexists. rewrite <- app_assoc. split; [reflexivity|].
      rewrite length_app, Hlen. cbn. lia. }
  destruct (Hloop (map (fun k => (k * 3)%nat) (List.seq 0 n)) b)
    as ((added & Hadded & Hlen) & Hsizes & Hrest).
  rewrite length_map, length_seq in Hlen.
  rewrite Hadded, length_app, Hlen.
  split; [reflexivity|]. split; [now exists added|]. split; [|now split].
  intros k Hk. subst n. rewrite Hk.
  replace (3 * k + 3 - 1)%nat with (2 + k * 3)%nat by lia.
  rewrite Nat.div_add by lia. cbn. lia.
Qed.

(** *** Extruded lines *)

(** The loop over the lines of a feature in the extruded line branch. *)
Definition extrude_lines (lineWidth : number) (addCircle : bool) (start : number)
    (featureId : option number) (env : MapEnv) (lines : list (list number))
    (b : MeshBuffers) : MeshBuffers :=
  fold_left (fun b aLine => extrude_line lineWidth addCircle start featureId env aLine b)
    lines b.

Lemma extrude_lines_features (lineWidth : number) (addCircle : bool) (start : number)
    (featureId : option number) (env : MapEnv) (lines : list (list number))
    (b : MeshBuffers) :
  let b' := extrude_lines lineWidth addCircle start featureId env lines b in
  let n := if m_gatherFeatureIds then length lines else 0%nat in
  featureIds b' = featureIds b ++ repeat featureId n
  /\ featureStarts b' = featureStarts b ++ repeat start n
  /\ objInfos b' = objInfos b ++ repeat (entries env) n
  /\ (mb_type b', groups b', normals b', textureCoordinates b', colors b', extrusionAxis b',
      edgeIndices b', texts b', stringCatalog b', imageTextures b')
     = (mb_type b, groups b, normals b, textureCoordinates b, colors b, extrusionAxis b,
        edgeIndices b, texts b, stringCatalog b, imageTextures b).
Proof.
  cbv zeta. unfold extrude_lines. revert b.
  induction lines as [|aLine lines IH]; intros b; cbn [fold_left length].
  - destruct m_gatherFeatureIds; cbn; rewrite ?app_nil_r; now repeat split.
  - destruct (IH (extrude_line lineWidth addCircle start featureId env aLine b))
      as (Hids & Hstarts & Hinfos & Hrest).
    rewrite Hids, Hstarts, Hinfos, Hrest. unfold extrude_line.
    destruct m_gatherFeatureIds; cbn; rewrite <- ?app_assoc; now repeat split.
Qed.

(** X21.  An extruded line feature, for a technique index that is free or
    holds extruded line buffers and a technique with a line width: the
    buffers get exactly one group for the feature, also when it has no
    line, which starts at the number of indices before the feature; when
    feature ids are gathered, the feature id, the feature start and the
    object info are recorded once per line of the feature, and every
    such feature start is the start of the group; otherwise they are not
    recorded.  Nothing is emitted, and the call returns. *)
Theorem extruded_line_groups (technique : Technique) (lines : list (list number))
    (env : MapEnv) (featureId : option number) (wantCircle : bool) (e : Emitter)
    (width : number) :
  lineWidth technique = Some width ->
  (forall b, map_get (_index technique) (m_meshBuffers e) = Some b ->
             mb_type b = ExtrudedLine) ->
  let before :=
    default (new_MeshBuffers ExtrudedLine) (map_get (_index technique) (m_meshBuffers e)) in
  let start := of_nat (length (indices before)) in
  let n := if m_gatherFeatureIds then length lines else 0%nat in
  exists e' after,
    processExtrudedLine technique lines env featureId wantCircle e = (Normal tt, e')
    /\ map_get (_index technique) (m_meshBuffers e') = Some after
    /\ groups after
       = groups before
         ++ [ {| start := start; count := (of_nat (length (indices after)) - start)%float;
                 technique := _index technique; featureId := featureId;
                 renderOrderOffset := None |} ]
    /\ featureIds after = featureIds before ++ repeat featureId n
    /\ featureStarts after = featureStarts before ++ repeat start n
    /\ objInfos after = objInfos before ++ repeat (entries env) n
    /\ mb_type after = ExtrudedLine
    /\ outputs e' = outputs e.
Proof.
  intros Hwidth Htype. cbv zeta. unfold processExtrudedLine, bind, findOrCreateMeshBuffersM.
  unfold findOrCreateMeshBuffers.
  assert (Hfill : forall b0 : MeshBuffers,
    let addCircle := wantCircle && match caps technique with
                                   | Some c => String.eqb c "Circle"
                                   | None => true
                                   end in
    let start := of_nat (length (indices b0)) in
    let filled :=
      fold_left (fun b aLine => extrude_line width addCircle start featureId env aLine b)
        lines b0 in
    let after :=
      push_group {| start := start; count := (of_nat (length (indices filled)) - start)%float;
                    technique := _index technique; featureId := featureId;
                    renderOrderOffset := None |} filled in
    let n := if m_gatherFeatureIds then length lines else 0%nat in
    groups after
    = groups b0
      ++ [ {| start := start; count := (of_nat (length (indices after)) - start)%float;
              technique := _index technique; featureId := featureId;
              renderOrderOffset := None |} ]
    /\ featureIds after = featureIds b0 ++ repeat featureId n
    /\ featureStarts after = featureStarts b0 ++ repeat start n
    /\ objInfos after = objInfos b0 ++ repeat (entries env) n
    /\ mb_type after = mb_type b0).
  { intros b0. cbv zeta.
    destruct (extrude_lines_features width
                (wantCircle && match caps technique with
                               | Some c => String.eqb c "Circle"
                               | None => true
                               end)
                (of_nat (length (indices b0))) featureId env lines b0)
      as (Hids & Hstarts & Hinfos & Hrest).
    unfold extrude_lines in Hids, Hstarts, Hinfos, Hrest.
    injection Hrest as Hty Hgroups _ _ _ _ _ _ _ _.
    unfold push_group, set_groups.
    cbn [groups featureIds featureStarts objInfos mb_type indices].
    rewrite Hgroups, Hids, Hstarts, Hinfos, Hty. now repeat split. }
  destruct (map_get (_index technique) (m_meshBuffers e)) as [b0|] eqn:Hget;
    cbn [default from_option id].
  - rewrite bool_decide_eq_false_2 by (intros Hne; apply Hne; now apply Htype).
    rewrite Hwidth. unfold push_buffers, modify.
    eexists. eexists. split; [reflexivity|].
    cbn [m_meshBuffers set_meshBuffers push_log]. rewrite Hget, map_get_set_eq.
    split; [reflexivity|].
    destruct (Hfill b0) as (Hgroups & Hids & Hstarts & Hinfos & Hty).
    split; [exact Hgroups|]. split; [exact Hids|]. split; [exact Hstarts|].
    split; [exact Hinfos|]. split; [rewrite Hty; now apply Htype | reflexivity].
  - rewrite Hwidth. unfold push_buffers, modify.
    eexists. eexists. split; [reflexivity|].
    cbn [m_meshBuffers set_meshBuffers push_log]. rewrite !map_get_set_eq.
    split; [reflexivity|].
    destruct (Hfill (new_MeshBuffers ExtrudedLine))
      as (Hgroups & Hids & Hstarts & Hinfos & Hty).
    split; [exact Hgroups|]. split; [exact Hids|]. split; [exact Hstarts|].
    split; [exact Hinfos|]. split; [exact Hty | reflexivity].
Qed.

(** *** The three lists of lines *)

(** The lists of simple, solid and dashed lines of the emitter. *)
Definition line_lists (e : Emitter)
  : list LinesGeometry * list LinesGeometry * list LinesGeometry :=
  (m_simpleLines e, m_solidLines e, m_dashedLines e).

(** Every geometry is of the type of its list: [Line] for the simple
    lines, [SolidLine] for the solid and the dashed lines. *)
Definition line_lists_typed (e : Emitter) : Prop :=
  Forall (fun g => lines_type g = Line) (m_simpleLines e)
  /\ Forall (fun g => lines_type g = SolidLine) (m_solidLines e)
  /\ Forall (fun g => lines_type g = SolidLine) (m_dashedLines e).

(** [c] keeps [P], whether it returns or throws. *)
Definition keeps {A} (P : Emitter -> Prop) (c : M A) : Prop :=
  forall e, P e -> P (snd (c e)).

Lemma keeps_ret {A} (P : Emitter -> Prop) (a : A) : keeps P (ret a).
Proof. now intros e. Qed.

Lemma keeps_bind {A B} (P : Emitter -> Prop) (c : M A) (k : A -> M B) :
  keeps P c -> (forall a, keeps P (k a)) -> keeps P (bind c k).
Proof.
  intros Hc Hk e He. unfold bind. specialize (Hc e He).
  destruct (c e) as [[a|message] e1]; [now apply Hk | exact Hc].
Qed.

Lemma keeps_for_each {A} (P : Emitter -> Prop) (xs : list A) (body : A -> M unit) :
  (forall x, keeps P (body x)) -> keeps P (for_each xs body).
Proof.
  intros Hbody. induction xs as [|x xs IH]; cbn [for_each]; [apply keeps_ret|].
  apply keeps_bind; [apply Hbody | intros _; exact IH].
Qed.

Lemma keeps_lines {A} (c : M A) :
  (forall e, line_lists (snd (c e)) = line_lists e) -> keeps line_lists_typed c.
Proof.
  intros Hframe e He. specialize (Hframe e). unfold line_lists in Hframe.
  injection Hframe as H1 H2 H3. unfold line_lists_typed. now rewrite H1, H2, H3.
Qed.

Lemma applyLineTechnique_types (linesGeometry : list LinesGeometry) (technique : Technique)
    (techniqueIndex : Z) (gatherFeatureIds : bool) (lineType : LineType)
    (featureId : option number) (lines : list (list number)) (env : MapEnv)
    (uvs : option (list (list number))) (type : GeometryType) :
  type = match lineType with Complex => SolidLine | Simple => Line end ->
  Forall (fun g => lines_type g = type) linesGeometry ->
  Forall (fun g => lines_type g = type)
    (applyLineTechnique linesGeometry technique techniqueIndex gatherFeatureIds lineType
       featureId lines env uvs).
Proof.
  intros Htype Hall. unfold applyLineTechnique. fold (renderOrderOffset_of technique env).
  destruct (existsb (joins techniqueIndex (renderOrderOffset_of technique env)) linesGeometry)
    eqn:Hfound.
  - destruct (extend_linesGeometry_found linesGeometry techniqueIndex
                (renderOrderOffset_of technique env) gatherFeatureIds featureId lines uvs
                Hfound) as (linesGeometry' & -> & _ & Htypes & _).
    apply (proj1 (List.Forall_map lines_type (fun t => t = type) linesGeometry')).
    rewrite Htypes.
    now apply (proj2 (List.Forall_map lines_type (fun t => t = type) linesGeometry)).
  - rewrite (extend_linesGeometry_fresh linesGeometry techniqueIndex
               (renderOrderOffset_of technique env) gatherFeatureIds featureId lines uvs
               Hfound).
    apply Forall_app. split; [exact Hall|]. apply Forall_singleton. cbn. now rewrite Htype.
Qed.

Lemma keeps_applyLineTechniqueM (technique : Technique) (featureId : option number)
    (lines : list (list number)) (env : MapEnv) (uvs : option (list (list number))) :
  keeps line_lists_typed (applyLineTechniqueM technique featureId lines env uvs).
Proof.
  intros e (Hsimple & Hsolid & Hdashed). unfold applyLineTechniqueM, modify. cbn [snd].
  unfold line_lists_typed.
  destruct (bool_decide (name technique = line_technique)); cbn.
  - split; [|now split]. now apply applyLineTechnique_types.
  - destruct (bool_decide (name technique = solid_line_technique)); cbn.
    + split; [assumption|]. split; [|assumption]. now apply applyLineTechnique_types.
    + split; [assumption|]. split; [assumption|]. now apply applyLineTechnique_types.
Qed.

Lemma keeps_processLineTechnique (lines uvs : list (list number)) (env : MapEnv)
    (featureId : option number) (wantCircle : bool) (technique : option Technique) :
  keeps line_lists_typed (processLineTechnique lines uvs env featureId wantCircle technique).
Proof.
  unfold processLineTechnique. destruct technique as [technique|]; [|apply keeps_ret].
  destruct (bool_decide (name technique = line_technique)
            || bool_decide (name technique = solid_line_technique)
            || bool_decide (name technique = dashed_line_technique));
    [apply keeps_applyLineTechniqueM|].
  destruct (isTextTechnique technique || isPoiTechnique technique
            || isLineMarkerTechnique technique).
  { unfold processLineLabels. destruct (resolveText env technique); [|apply keeps_ret].
    destruct (Nat.eqb _ 0); [apply keeps_ret|].
    destruct (isTextTechnique technique); apply keeps_for_each; intros aLine;
      now apply keeps_lines. }
  destruct (isExtrudedLineTechnique technique); [|now apply keeps_lines].
  unfold processExtrudedLine. apply keeps_bind.
  { apply keeps_lines. intros e. unfold findOrCreateMeshBuffersM.
    now destruct (findOrCreateMeshBuffers _ _ _) as [[m' lg] r]. }
  intros [meshBuffers|]; [|apply keeps_ret].
  destruct (lineWidth technique); [now apply keeps_lines | apply keeps_ret].
Qed.

(** X22.  The three lists of lines keep their types through line
    features: in a new emitter, and after any line feature whether it
    returns or its assertion throws, every geometry among the simple
    lines is of type [Line] and every geometry among the solid and the
    dashed lines is of type [SolidLine].  So the geometry that
    [getDecodedTile] makes of a group of lines, which takes its type from
    the list and not from the group, has the type of the group. *)
Theorem line_lists_keep_their_types (extents : number) (geometry : list ILineGeometry)
    (env : MapEnv) (techniques : list (option Technique)) (featureId : option number)
    (e : Emitter) :
  line_lists_typed new_Emitter
  /\ (line_lists_typed e ->
      let e' := snd (processLineFeature extents geometry env techniques featureId e) in
      line_lists_typed e'
      /\ map geo_type
           (map (lines_geometry m_gatherFeatureIds true) (m_simpleLines e')
            ++ map (lines_geometry m_gatherFeatureIds false) (m_solidLines e')
            ++ map (lines_geometry m_gatherFeatureIds false) (m_dashedLines e'))
         = map lines_type (m_simpleLines e' ++ m_solidLines e' ++ m_dashedLines e')).
Proof.
  split; [repeat split; constructor|]. intros He. cbv zeta.
  assert (Hkept : line_lists_typed
                    (snd (processLineFeature extents geometry env techniques featureId e))).
  { revert e He. change (keeps line_lists_typed
                           (processLineFeature extents geometry env techniques featureId)).
    unfold processLineFeature. apply keeps_bind.
    { apply keeps_lines. intros e0.
      now destruct (processFeatureCommon_effect env e0) as [->|(source & _ & _ & _ & ->)]. }
    intros _. apply keeps_bind; [now apply keeps_lines|].
    intros tc. apply keeps_for_each. intros technique. apply keeps_processLineTechnique. }
  split; [exact Hkept|].
  destruct Hkept as (Hsimple & Hsolid & Hdashed).
  assert (Hmap : forall (simple : bool) (type : GeometryType) (lg : list LinesGeometry),
            type = (if simple then Line else SolidLine) ->
            Forall (fun g => lines_type g = type) lg ->
            map geo_type (map (lines_geometry m_gatherFeatureIds simple) lg)
            = map lines_type lg).
  { intros simple type lg Htype Hall. induction Hall as [|g lg Hg _ IH]; [reflexivity|].
    cbn [map]. rewrite IH, Hg, Htype. reflexivity. }
  rewrite !map_app.
  rewrite (Hmap true Line _ eq_refl Hsimple), (Hmap false SolidLine _ eq_refl Hsolid),
    (Hmap false SolidLine _ eq_refl Hdashed).
  reflexivity.
Qed.

(** *** From outlines to footprints *)

Lemma ring_of_contour (computeTexCoordsFunc : option TextureCoordinateType) (extents : number)
    (outline : list Vector2) :
  let ring := ring_of computeTexCoordsFunc extents outline in
  ring_vertexStride ring = (if bool_decide (is_Some computeTexCoordsFunc) then 4 else 2)%nat
  /\ length (contour ring) = (length outline * ring_vertexStride ring)%nat.
Proof.
  cbv zeta. unfold ring_of. cbn [ring_vertexStride contour]. split; [reflexivity|].
  apply flat_map_constant_length. intros coord _.
  destruct computeTexCoordsFunc; [rewrite bool_decide_eq_true_2 by (now eexists)
                                 |rewrite bool_decide_eq_false_2 by (intros [? ?]; discriminate)];
    reflexivity.
Qed.

Lemma compute_func_stride (technique : Technique) :
  getTextureCoordinateType technique <> Some FeatureSpace ->
  (if bool_decide (is_Some (getComputeTexCoordsFunc technique)) then 4 else 2)%nat
  = (if bool_decide (is_Some (getTextureCoordinateType technique)) then 4 else 2)%nat.
Proof.
  unfold getComputeTexCoordsFunc.
  destruct (getTextureCoordinateType technique) as [[]|]; intros Hne;
    try contradiction; reflexivity.
Qed.

(** X23.  From the outlines of a polygon to the footprint of a ring
    group, for a technique whose texture coordinates are absent, in tile
    space or equirectangular (the types for which [processPolygonFeature]
    computes coordinates; for another type it builds contours of two
    numbers per vertex, which [applyPolygonTechnique] reads as four): the
    rings have the stride that [applyPolygonTechnique] reads and hold one
    vertex per point of their outline; the footprint has [vertexStride]
    numbers per point of the outlines of the group, and the hole indices
    are the numbers of points that precede each hole. *)
Theorem footprint_of_outlines (technique : Technique) (extents : number)
    (outer : list Vector2) (holes : list (list Vector2)) :
  getTextureCoordinateType technique <> Some FeatureSpace ->
  let func := getComputeTexCoordsFunc technique in
  let group := (ring_of func extents outer, map (ring_of func extents) holes) in
  let featureStride :=
    if bool_decide (is_Some (getTextureCoordinateType technique)) then 4%nat else 2%nat in
  Forall (fun ring => ring_vertexStride ring = featureStride) (fst group :: snd group)
  /\ map (vertex_count featureStride) (fst group :: snd group) = map length (outer :: holes)
  /\ length (fst (footprint technique extents group))
     = (list_sum (map length (outer :: holes)) * (featureStride + 2))%nat
  /\ snd (footprint technique extents group)
     = map of_nat (offsets_from (length outer) (map length holes)).
Proof.
  intros Htype. cbv zeta.
  set (func := getComputeTexCoordsFunc technique).
  set (featureStride :=
         if bool_decide (is_Some (getTextureCoordinateType technique)) then 4%nat else 2%nat).
  assert (Hpos : (featureStride <> 0)%nat) by (subst featureStride; now destruct (bool_decide _)).
  assert (Hring : forall outline,
            ring_vertexStride (ring_of func extents outline) = featureStride
            /\ vertex_count featureStride (ring_of func extents outline) = length outline).
  { intros outline. destruct (ring_of_contour func extents outline) as [Hstride Hlen].
    subst func. rewrite compute_func_stride in Hstride by exact Htype.
    fold featureStride in Hstride. split; [exact Hstride|].
    unfold vertex_count. rewrite Hlen, Hstride. now apply Nat.div_mul. }
  assert (Hcounts : map (vertex_count featureStride) (map (ring_of func extents) holes)
                    = map length holes).
  { rewrite map_map. apply map_ext. intros outline. apply Hring. }
  split; [|split].
  - constructor; [apply Hring|]. apply Forall_forall. intros ring Hin.
    apply list_elem_of_In, in_map_iff in Hin as (outline & <- & _). apply Hring.
  - cbn [fst snd map]. rewrite Hcounts. f_equal. apply Hring.
  - unfold footprint. fold featureStride. cbn [fst snd].
    destruct (add_holes_layout (map (ring_of func extents) holes) featureStride extents
                (negb (bool_decide (boundaryWalls technique = Some false)))
                (contour_vertices (contour (ring_of func extents outer)) featureStride 0
                   extents (negb (bool_decide (boundaryWalls technique = Some false)))) []
                (length outer)) as [Hv Hh].
    { rewrite length_contour_vertices.
      change (length (contour (ring_of func extents outer)) / featureStride)%nat
        with (vertex_count featureStride (ring_of func extents outer)).
      now rewrite (proj2 (Hring outer)). }
    rewrite Hv, Hh, Hcounts. cbn [app map list_sum]. split; reflexivity.
Qed.

(** *** The texture coordinates of a line feature *)

(** The first technique that has a function for its texture coordinates,
    with the techniques after it. *)
Fixpoint first_textured (techniques : list (option Technique))
  : option (Technique * list (option Technique)) :=
  match techniques with
  | [] => None
  | None :: rest => first_textured rest
  | Some technique :: rest =>
      if bool_decide (is_Some (getComputeTexCoordsFunc technique)) then Some (technique, rest)
      else first_textured rest
  end.

(** The type of the last technique, after [type]. *)
Fixpoint last_type (techniques : list (option Technique))
    (type : option TextureCoordinateType) : option TextureCoordinateType :=
  match techniques with
  | [] => type
  | None :: rest => last_type rest type
  | Some technique :: rest => last_type rest (getTextureCoordinateType technique)
  end.

(** Whether all techniques have the texture coordinate type [type]. *)
Definition same_type (type : option TextureCoordinateType)
    (techniques : list (option Technique)) : bool :=
  forallb (fun technique =>
             match technique with
             | Some t => bool_decide (type = getTextureCoordinateType t)
             | None => true
             end) techniques.

Lemma selectTexCoords_untextured (techniques : list (option Technique))
    (type : option TextureCoordinateType) :
  first_textured techniques = None ->
  selectTexCoords techniques None type = Normal (None, last_type techniques type).
Proof.
  revert type. induction techniques as [|[technique|] rest IH]; intros type;
    cbn [first_textured selectTexCoords last_type]; [reflexivity| |apply IH].
  destruct (getComputeTexCoordsFunc technique) as [func|] eqn:Hfunc.
  - rewrite bool_decide_eq_true_2 by (now eexists). discriminate.
  - rewrite bool_decide_eq_false_2 by (intros [? ?]; discriminate). apply IH.
Qed.

Lemma selectTexCoords_textured (techniques : list (option Technique))
    (func : TextureCoordinateType) (type : option TextureCoordinateType) :
  assert true "" = Normal tt ->
  (same_type type techniques = true ->
   selectTexCoords techniques (Some func) type = Normal (Some func, type))
  /\ (forall message, assert false "" = Throw message ->
      same_type type techniques = false ->
      selectTexCoords techniques (Some func) type = Throw message).
Proof.
  intros Hassert. unfold same_type.
  induction techniques as [|[technique|] rest [IHsame IHthrow]];
    cbn [forallb selectTexCoords]; [now split | |now split].
  destruct (bool_decide (type = getTextureCoordinateType technique)); cbn [andb].
  - rewrite Hassert. now split.
  - split; [discriminate|]. intros message Hthrow _. now rewrite Hthrow.
Qed.

(** X24.  The loop that opens [processLineFeature], for an assertion
    that lets a true condition pass.  Until a technique has a function
    for its texture coordinates, nothing is checked.  The first technique
    that has one decides the function and the type for the feature, and
    only the techniques after it are checked: when they all have its
    type the loop returns; when one has another type (also no type at
    all) and the assertion throws on a false condition, the feature is
    abandoned with that error.  So the outcome depends on the order of
    the techniques. *)
Theorem texture_coordinate_choice (techniques : list (option Technique)) :
  assert true "" = Normal tt ->
  match first_textured techniques with
  | None =>
      selectTexCoords techniques None None = Normal (None, last_type techniques None)
  | Some (technique, rest) =>
      let type := getTextureCoordinateType technique in
      (same_type type rest = true ->
       selectTexCoords techniques None None = Normal (getComputeTexCoordsFunc technique, type))
      /\ (forall message, assert false "" = Throw message ->
          same_type type rest = false ->
          selectTexCoords techniques None None = Throw message)
  end.
Proof.
  intros Hassert.
  assert (Hgeneral : forall type,
    match first_textured techniques with
    | None => selectTexCoords techniques None type = Normal (None, last_type techniques type)
    | Some (technique, rest) =>
        (same_type (getTextureCoordinateType technique) rest = true ->
         selectTexCoords techniques None type
         = Normal (getComputeTexCoordsFunc technique, getTextureCoordinateType technique))
        /\ (forall message, assert false "" = Throw message ->
            same_type (getTextureCoordinateType technique) rest = false ->
            selectTexCoords techniques None type = Throw message)
    end); [|apply Hgeneral].
  induction techniques as [|[technique|] rest IH]; intros type;
    cbn [first_textured selectTexCoords]; [reflexivity| |apply IH].
  destruct (getComputeTexCoordsFunc technique) as [func|] eqn:Hfunc.
  - rewrite bool_decide_eq_true_2 by (now eexists). rewrite Hfunc.
    apply (selectTexCoords_textured rest func (getTextureCoordinateType technique) Hassert).
  - rewrite bool_decide_eq_false_2 by (intros [? ?]; discriminate).
    specialize (IH (getTextureCoordinateType technique)).
    destruct (first_textured rest) as [[t rest']|]; [exact IH|].
    cbn [last_type]. exact IH.
Qed.

End FeatureProcessing.

(** *** A worked tile

    A tile of 1000 by 1000 meters shown at 250 pixels (4 meters per
    pixel), projected by the identity, with stand-ins for the
    collaborators. *)

Definition example_decodeInfo : DecodeInfo :=
  {| tileKey_level := 14; tileSizeOnScreen := 250%float;
     projectedTileBounds_min := {| v2_x := 0%float; v2_y := 0%float |};
     projectedTileBounds_max := {| v2_x := 1000%float; v2_y := 1000%float |};
     center := {| v3_x := 500%float; v3_y := 500%float; v3_z := 0%float |};
     isSpherical := false |}.

Definition example_assert (condition : bool) (message : string) : Completion unit :=
  if condition then Normal tt else Throw message.

Definition example_project (extents : number) (info : DecodeInfo) (pos : Vector2) : Vector3 :=
  {| v3_x := v2_x pos; v3_y := v2_y pos; v3_z := 0%float |}.

Definition example_lineGroup : LineGroup :=
  {| lg_vertices := []; lg_indices := []; lg_stride := 3%float; lg_vertexAttributes := [] |}.

Definition example_technique (n : TechniqueName) (i : Z) : Technique :=
  {| name := n; _index := i; label := Some "name"%string; useAbbreviation := false;
     useIsoCode := false; imageTexture := None; imageTextureField := None;
     imageTexturePrefix := None; imageTexturePostfix := None; lineWidth := None;
     caps := None; renderOrderBiasProperty := None; transient := false;
     boundaryWalls := None |}.

(** A street named "Main Street", and a polyline of 1000 meters. *)
Definition example_env : MapEnv :=
  {| entries := [("name"%string, VString "Main Street")] |}.

Definition example_long_line : ILineGeometry :=
  {| line_positions := [ {| v2_x := 0%float; v2_y := 0%float |};
                         {| v2_x := 1000%float; v2_y := 0%float |} ] |}.






(** A feature whose techniques disagree on the texture coordinates does
    not reach the main loop.  With the elevation overlay enabled a solid
    line technique asks for tile-space texture coordinates and a text
    technique for none; [processLineFeature] asserts that only one type is
    used, and when the assertion throws the feature is abandoned before
    any label: the 1000 meter line gets no text path. *)
Definition example_overlay_processLineFeature : M unit :=
  processLineFeature example_decodeInfo true true true None example_assert example_project
    (fun _ _ _ _ => None) (fun _ => ""%string) (fun _ => 0%float) (fun _ => 0%float)
    (fun _ => None) (fun _ _ _ => (0%float, 0%float)) (fun _ _ p i _ => (p, i))
    (fun _ _ => example_lineGroup) (fun _ _ _ g => g)
    512%float [example_long_line] example_env
    [Some (example_technique solid_line_technique 1);
     Some (example_technique text_technique 3)] (Some 42%float).

Lemma texture_assertion_precedes_labels :
  resolveText None (fun _ _ _ _ => None) (fun _ => ""%string) example_env
    (example_technique text_technique 3) = Some "Main Street"%string
  /\ ge (diagonal_sqr (world_line example_decodeInfo example_project 512%float example_long_line))
        (label_threshold example_decodeInfo "Main Street"
         * label_threshold example_decodeInfo "Main Street")%float = true
  /\ fst (example_overlay_processLineFeature new_Emitter) = Throw ""
  /\ m_textPathGeometries (snd (example_overlay_processLineFeature new_Emitter)) = [].
Proof. vm_compute. repeat split. Qed.

(** A triangulation that refuses footprints of fewer than three vertices,
    and an emission that appends the triangles to the index buffer of the
    technique. *)
Definition example_earcut (vertices holes : list number) (vertexStride : nat)
  : Completion (list number) :=
  if Nat.ltb (length vertices / vertexStride) 3
  then Throw "degenerate ring"
  else Normal [0; 1; 2]%float.

Definition example_emitRingGroup (technique : Technique) (techniqueIndex : Z) (env : MapEnv)
    (extents polygonBaseVertex : number) (vertices triangles : list number) : M unit :=
  push_buffers techniqueIndex (fun b =>
    {| mb_type := mb_type b; positions := positions b ++ vertices; normals := normals b;
       textureCoordinates := textureCoordinates b; colors := colors b;
       extrusionAxis := extrusionAxis b; indices := indices b ++ triangles;
       edgeIndices := edgeIndices b; groups := groups b; texts := texts b;
       stringCatalog := stringCatalog b; imageTextures := imageTextures b;
       featureIds := featureIds b; featureStarts := featureStarts b;
       objInfos := objInfos b |}).

Definition example_ring (points : list number) (w : bool) : Ring :=
  {| ring_extents := 4096%float; ring_vertexStride := 2; contour := points; winding := w |}.

(** A polygon of two outer rings: a degenerate one of two vertices, then
    a triangle. *)
Definition example_polygon : list Ring :=
  [ example_ring [10; 10; 20; 20]%float true;
    example_ring [10; 10; 100; 10; 100; 100]%float true ].

Definition example_applyPolygonTechnique : M unit :=
  applyPolygonTechnique true false (fun _ => None) example_earcut example_emitRingGroup
    [example_polygon] (example_technique fill_technique 1) 1 (Some 7%float) example_env
    4096%float.

(** The degenerate ring is logged, the triangle after it is emitted, and
    the polygon gets its group. *)
Lemma triangulation_failure_is_contained_witness :
  fst (example_applyPolygonTechnique new_Emitter) = Normal tt
  /\ m_log (snd (example_applyPolygonTechnique new_Emitter))
     = [log_error "cannot triangulate geometry"]
  /\ (indices <$> map_get 1 (m_meshBuffers (snd (example_applyPolygonTechnique new_Emitter))))
     = Some [0; 1; 2]%float
  /\ (length <$> (groups <$> map_get 1 (m_meshBuffers (snd (example_applyPolygonTechnique new_Emitter)))))
     = Some 1%nat.
Proof.
  destruct (triangulation_failure_is_contained example_decodeInfo true false example_project
              (fun _ => 0%float) (fun _ => None) (fun _ _ _ => (0%float, 0%float))
              (fun _ _ => example_lineGroup) (fun _ _ _ g => g) (fun _ _ => true)
              example_earcut example_emitRingGroup
              [example_polygon] (example_technique fill_technique 1) 1 (Some 7%float)
              example_env 4096%float new_Emitter) as (_ & _ & Hall & _).
  unfold example_applyPolygonTechnique. rewrite Hall.
  vm_compute. repeat split.
Defined.

(** A triangle with a triangular hole, for a fill technique without
    texture coordinates: two numbers per vertex of a contour. *)
Definition example_outer_ring : Ring :=
  example_ring [0; 0; 100; 0; 100; 100]%float true.

Definition example_hole_ring : Ring :=
  example_ring [60; 20; 80; 20; 80; 40]%float false.

Lemma footprint_layout_witness :
  length (fst (footprint false (fun _ => None) (example_technique fill_technique 1)
                 4096%float (example_outer_ring, [example_hole_ring]))) = 24%nat
  /\ snd (footprint false (fun _ => None) (example_technique fill_technique 1)
            4096%float (example_outer_ring, [example_hole_ring])) = [of_nat 3]
  /\ length (snd (footprint false (fun _ => None) (example_technique fill_technique 1)
                    4096%float (example_outer_ring, [example_hole_ring]))) = 1%nat.
Proof.
  apply (footprint_layout false (fun _ => None) (example_technique fill_technique 1)
           4096%float (example_outer_ring, [example_hole_ring])).
  repeat constructor.
Defined.

(** The first edge of the triangle runs along the lower border of the
    tile; the two others are drawn as one line of three points. *)
Lemma outline_keeps_inner_edges_witness :
  exists added,
    outline_lines example_decodeInfo example_project 4096%float [] example_outer_ring
    = [] ++ added
    /\ Forall polyline added
    /\ list_sum (map segments added) = 2%nat.
Proof.
  apply (outline_keeps_inner_edges example_decodeInfo example_project 4096%float []
           example_outer_ring).
  reflexivity.
Defined.

(** An extruded line technique of width 2, and a triangulation that
    copies the line and adds one index per number. *)
Definition example_extruded_line : Technique :=
  {| name := extruded_line_technique; _index := 4; label := None; useAbbreviation := false;
     useIsoCode := false; imageTexture := None; imageTextureField := None;
     imageTexturePrefix := None; imageTexturePostfix := None; lineWidth := Some 2%float;
     caps := None; renderOrderBiasProperty := None; transient := false;
     boundaryWalls := None |}.

Definition example_triangulateLine (aLine : list number) (lineWidth : number)
    (positions indices : list number) (addCircle : bool) : list number * list number :=
  (positions ++ aLine, indices ++ map (fun _ => 0%float) aLine).

Lemma extruded_line_groups_witness :
  exists e' after,
    processExtrudedLine true example_triangulateLine example_extruded_line
      [[0; 0; 0; 1; 1; 0]%float; [5; 5; 0; 6; 6; 0]%float] example_env (Some 7%float) true
      new_Emitter = (Normal tt, e')
    /\ map_get 4 (m_meshBuffers e') = Some after
    /\ groups after
       = [ {| start := of_nat 0; count := (of_nat (length (indices after)) - of_nat 0)%float;
              technique := 4; featureId := Some 7%float; renderOrderOffset := None |} ]
    /\ featureIds after = [Some 7%float; Some 7%float]
    /\ featureStarts after = [of_nat 0; of_nat 0]
    /\ objInfos after = [entries example_env; entries example_env]
    /\ mb_type after = ExtrudedLine
    /\ outputs e' = outputs new_Emitter.
Proof.
  apply (extruded_line_groups true example_triangulateLine example_extruded_line
           [[0; 0; 0; 1; 1; 0]%float; [5; 5; 0; 6; 6; 0]%float] example_env (Some 7%float)
           true new_Emitter 2%float).
  - reflexivity.
  - intros b Hb. discriminate Hb.
Defined.


(** A square with a triangular hole, for a fill technique with
    equirectangular texture coordinates: four numbers per vertex of a
    contour, six per vertex of the footprint. *)
Definition example_equirectangular (technique : Technique) : option TextureCoordinateType :=
  Some EquirectangularSpace.

Definition example_texCoords (info : DecodeInfo) (tilePos : Vector2) (extents : number)
  : number * number :=
  ((v2_x tilePos / extents)%float, (v2_y tilePos / extents)%float).

Definition example_winding (contour : list number) (stride : nat) : bool := true.

Definition example_square : list Vector2 :=
  [ {| v2_x := 0; v2_y := 0 |}; {| v2_x := 100; v2_y := 0 |};
    {| v2_x := 100; v2_y := 100 |}; {| v2_x := 0; v2_y := 100 |} ]%float.

Definition example_hole : list Vector2 :=
  [ {| v2_x := 60; v2_y := 20 |}; {| v2_x := 80; v2_y := 20 |};
    {| v2_x := 80; v2_y := 40 |} ]%float.

Definition example_group : Ring * list Ring :=
  (ring_of example_decodeInfo example_texCoords example_winding (Some EquirectangularSpace)
     4096%float example_square,
   map (ring_of example_decodeInfo example_texCoords example_winding
          (Some EquirectangularSpace) 4096%float) [example_hole]).

Lemma footprint_of_outlines_witness :
  Forall (fun ring => ring_vertexStride ring = 4%nat) (fst example_group :: snd example_group)
  /\ map (vertex_count 4) (fst example_group :: snd example_group) = [4; 3]%nat
  /\ length (fst (footprint false example_equirectangular (example_technique fill_technique 1)
                    4096%float example_group)) = 42%nat
  /\ snd (footprint false example_equirectangular (example_technique fill_technique 1)
            4096%float example_group) = [of_nat 4].
Proof.
  apply (footprint_of_outlines example_decodeInfo false example_equirectangular
           example_texCoords example_winding (example_technique fill_technique 1)
           4096%float example_square [example_hole]).
  discriminate.
Defined.

(** A feature drawn by an untextured line, a line textured in tile space
    and another untextured line: the second technique decides, and the
    third is checked against it. *)
Definition example_line_textures (technique : Technique) : option TextureCoordinateType :=
  if bool_decide (name technique = solid_line_technique) then Some TileSpace else None.

Definition example_line_techniques : list (option Technique) :=
  [ Some (example_technique line_technique 0);
    Some (example_technique solid_line_technique 1);
    Some (example_technique line_technique 2) ].

Lemma texture_coordinate_choice_witness :
  (same_type false example_line_textures (Some TileSpace)
     [Some (example_technique line_technique 2)] = true ->
   selectTexCoords false example_assert example_line_textures example_line_techniques
     None None = Normal (Some TileSpace, Some TileSpace))
  /\ (forall message, example_assert false "" = Throw message ->
      same_type false example_line_textures (Some TileSpace)
        [Some (example_technique line_technique 2)] = false ->
      selectTexCoords false example_assert example_line_textures example_line_techniques
        None None = Throw message).
Proof.
  apply (texture_coordinate_choice false example_assert example_line_textures
           example_line_techniques).
  reflexivity.
Defined.

End OmvDecodedTileEmitter.

(** ** The tile object renderer *)

Module TileObjectRenderer.
Import JS.

(** *** Stencil values *)

Definition DEFAULT_STENCIL_VALUE : Z := 1.

Section Stencil.

(** Render orders, as a JavaScript [Map] compares its keys. *)
Context {RenderOrder : Type} `{Countable RenderOrder}.

(** [m_renderOrderStencilValues] and [m_stencilValue]. *)
Record StencilState : Type := mkStencilState {
  m_renderOrderStencilValues : gmap RenderOrder Z;
  m_stencilValue : Z
}.

(** [prepareRender()]. *)
Definition prepareRender (st : StencilState) : StencilState :=
  {| m_stencilValue := DEFAULT_STENCIL_VALUE; m_renderOrderStencilValues := ∅ |}.

(** [allocateStencilValue(renderOrder)]. *)
Definition allocateStencilValue (renderOrder : RenderOrder) (st : StencilState)
  : Z * StencilState :=
  let stencilValue := m_stencilValue st in
  (stencilValue,
   {| m_stencilValue := m_stencilValue st + 1;
      m_renderOrderStencilValues :=
        <[renderOrder := stencilValue]> (m_renderOrderStencilValues st) |}).

(** [getStencilValue(renderOrder)]. *)
Definition getStencilValue (renderOrder : RenderOrder) (st : StencilState)
  : Z * StencilState :=
  match m_renderOrderStencilValues st !! renderOrder with
  | Some stencilValue => (stencilValue, st)
  | None => allocateStencilValue renderOrder st
  end.

(** The queries of a frame, in order: the values returned and the state
    they leave. *)
Fixpoint getStencilValues (renderOrders : list RenderOrder) (st : StencilState)
  : list Z * StencilState :=
  match renderOrders with
  | [] => ([], st)
  | renderOrder :: rest =>
      let r := getStencilValue renderOrder st in
      let rs := getStencilValues rest (snd r) in
      (fst r :: fst rs, snd rs)
  end.

(** The distinct render orders of a sequence of queries, in the order of
    their first occurrence, after those already [seen]. *)
Fixpoint first_seen (seen : list RenderOrder) (renderOrders : list RenderOrder)
  : list RenderOrder :=
  match renderOrders with
  | [] => seen
  | renderOrder :: rest =>
      first_seen (if decide (renderOrder ∈ seen) then seen else seen ++ [renderOrder]) rest
  end.

(** The position of the first occurrence of [x] in [l] (the length of [l]
    when there is none). *)
Fixpoint rank (x : RenderOrder) (l : list RenderOrder) : nat :=
  match l with
  | [] => 0
  | y :: l' => if decide (x = y) then 0%nat else S (rank x l')
  end.

(** The state of a frame in which the render orders [seen] were queried,
    in the order of their first occurrence. *)
Definition allocated (seen : list RenderOrder) (st : StencilState) : Prop :=
  m_stencilValue st = 1 + Z.of_nat (length seen)
  /\ forall renderOrder,
       m_renderOrderStencilValues st !! renderOrder
       = if decide (renderOrder ∈ seen) then Some (1 + Z.of_nat (rank renderOrder seen))
         else None.

(** *** Stencil values: one per distinct render order, from 1 upwards *)

Lemma rank_app_in (x : RenderOrder) (l l' : list RenderOrder) :
  x ∈ l -> rank x (l ++ l') = rank x l.
Proof.
  induction l as [|y l IH]; intros Hin; [now apply elem_of_nil in Hin|].
  cbn. destruct (decide (x = y)); [reflexivity|].
  apply elem_of_cons in Hin as [?|Hin]; [contradiction|]. now rewrite IH.
Qed.

Lemma rank_app_fresh (x : RenderOrder) (l : list RenderOrder) :
  x ∉ l -> rank x (l ++ [x]) = length l.
Proof.
  induction l as [|y l IH]; intros Hnin; cbn.
  - now destruct (decide (x = x)).
  - destruct (decide (x = y)) as [->|Hne].
    + exfalso. apply Hnin. apply elem_of_cons. now left.
    + rewrite IH; [reflexivity|]. intros Hin. apply Hnin. apply elem_of_cons. now right.
Qed.

Lemma rank_lookup (x : RenderOrder) (l : list RenderOrder) :
  x ∈ l -> l !! rank x l = Some x.
Proof.
  induction l as [|y l IH]; intros Hin; [now apply elem_of_nil in Hin|].
  cbn. destruct (decide (x = y)) as [->|Hne]; [reflexivity|].
  apply elem_of_cons in Hin as [?|Hin]; [contradiction|]. now apply IH.
Qed.

Lemma rank_injective (x y : RenderOrder) (l : list RenderOrder) :
  x ∈ l -> y ∈ l -> rank x l = rank y l -> x = y.
Proof.
  intros Hx Hy Heq. apply rank_lookup in Hx, Hy. rewrite Heq in Hx. congruence.
Qed.

Lemma first_seen_extends (seen renderOrders : list RenderOrder) :
  exists later, first_seen seen renderOrders = seen ++ later.
Proof.
  revert seen. induction renderOrders as [|k rest IH]; intros seen; cbn.
  - exists []. now rewrite app_nil_r.
  - destruct (decide (k ∈ seen)).
    + apply IH.
    + destruct (IH (seen ++ [k])) as [later Hlater]. exists (k :: later).
      rewrite Hlater. now rewrite <- app_assoc.
Qed.

Lemma first_seen_elem (seen renderOrders : list RenderOrder) (x : RenderOrder) :
  x ∈ first_seen seen renderOrders <-> x ∈ seen \/ x ∈ renderOrders.
Proof.
  revert seen. induction renderOrders as [|k rest IH]; intros seen; cbn.
  - rewrite elem_of_nil. tauto.
  - rewrite IH, elem_of_cons. destruct (decide (k ∈ seen)) as [Hin|Hnin].
    + split; [tauto|]. intros [?|[->|?]]; tauto.
    + rewrite elem_of_app, list_elem_of_singleton. tauto.
Qed.

Lemma first_seen_NoDup (seen renderOrders : list RenderOrder) :
  NoDup seen -> NoDup (first_seen seen renderOrders).
Proof.
  revert seen. induction renderOrders as [|k rest IH]; intros seen Hnd; cbn; [assumption|].
  apply IH. destruct (decide (k ∈ seen)) as [Hin|Hnin]; [assumption|].
  apply NoDup_app. split; [assumption|]. split; [|apply NoDup_singleton].
  intros x Hx Hk. apply list_elem_of_singleton in Hk. now subst.
Qed.

Lemma prepareRender_allocated (st : StencilState) : allocated [] (prepareRender st).
Proof.
  split; [reflexivity|]. intros k. cbn. rewrite lookup_empty.
  destruct (decide (k ∈ [])) as [Hin|]; [now apply elem_of_nil in Hin | reflexivity].
Qed.

(** One query: a render order seen before gets its value back, a new one
    gets the next value. *)
Lemma getStencilValue_allocated (seen : list RenderOrder) (st : StencilState)
    (renderOrder : RenderOrder) :
  allocated seen st ->
  let seen' := if decide (renderOrder ∈ seen) then seen else seen ++ [renderOrder] in
  fst (getStencilValue renderOrder st) = 1 + Z.of_nat (rank renderOrder seen')
  /\ allocated seen' (snd (getStencilValue renderOrder st)).
Proof.
  intros [Hnext Hmap]. cbv zeta. unfold getStencilValue.
  pose proof (Hmap renderOrder) as Hk.
  destruct (decide (renderOrder ∈ seen)) as [Hin|Hnin]; rewrite Hk; cbn [fst snd].
  - split; [reflexivity | now split].
  - unfold allocateStencilValue. cbn [fst snd]. rewrite rank_app_fresh by assumption.
    split; [assumption|]. split; cbn.
    + rewrite length_app. cbn. lia.
    + intros k. destruct (decide (k = renderOrder)) as [->|Hne].
      * rewrite lookup_insert_eq.
        destruct (decide (renderOrder ∈ seen ++ [renderOrder])) as [_|Hn].
        -- rewrite rank_app_fresh by assumption. now rewrite Hnext.
        -- exfalso. apply Hn, elem_of_app. right. now apply list_elem_of_singleton.
      * rewrite lookup_insert_ne by congruence. rewrite Hmap.
        destruct (decide (k ∈ seen)) as [Hks|Hks].
        -- destruct (decide (k ∈ seen ++ [renderOrder])) as [_|Hn].
           ++ now rewrite rank_app_in.
           ++ exfalso. apply Hn, elem_of_app. now left.
        -- destruct (decide (k ∈ seen ++ [renderOrder])) as [Hy|_]; [|reflexivity].
           apply elem_of_app in Hy as [?|Hy]; [contradiction|].
           apply list_elem_of_singleton in Hy. contradiction.
Qed.

Lemma getStencilValues_allocated (renderOrders seen : list RenderOrder) (st : StencilState) :
  allocated seen st ->
  fst (getStencilValues renderOrders st)
    = map (fun k => 1 + Z.of_nat (rank k (first_seen seen renderOrders))) renderOrders
  /\ allocated (first_seen seen renderOrders) (snd (getStencilValues renderOrders st)).
Proof.
  revert seen st. induction renderOrders as [|k rest IH]; intros seen st Halloc.
  - now split.
  - cbn [getStencilValues first_seen map fst snd].
    destruct (getStencilValue_allocated seen st k Halloc) as [Hval Hnext].
    cbv zeta in Hval, Hnext.
    set (seen' := if decide (k ∈ seen) then seen else seen ++ [k]) in *.
    destruct (IH seen' _ Hnext) as [Hvals Hlast].
    split; [|assumption]. rewrite Hval, Hvals. f_equal.
    destruct (first_seen_extends seen' rest) as [later ->].
    rewrite rank_app_in; [reflexivity|].
    unfold seen'. destruct (decide (k ∈ seen)); [assumption|].
    apply elem_of_app. right. now apply list_elem_of_singleton.
Qed.

(** C7.  In a frame, which [prepareRender] opens by resetting the counter
    to 1 and emptying the map, the queries [getStencilValue] give every
    distinct render order one stencil value: the render orders in the
    order of their first occurrence get 1, 2, 3, ...; a repeated query
    returns the value of the first; different render orders have different
    values; no value is below 1; and the counter ends one above the number
    of distinct render orders. *)
Theorem stencil_allocation (st0 : StencilState) (renderOrders : list RenderOrder) :
  let frame := getStencilValues renderOrders (prepareRender st0) in
  let distinct := first_seen [] renderOrders in
  prepareRender st0 = {| m_stencilValue := 1; m_renderOrderStencilValues := ∅ |}
  /\ fst frame = map (fun k => 1 + Z.of_nat (rank k distinct)) renderOrders
  /\ NoDup distinct
  /\ (forall k, k ∈ distinct <-> k ∈ renderOrders)
  /\ (forall k1 k2, k1 ∈ renderOrders -> k2 ∈ renderOrders ->
        rank k1 distinct = rank k2 distinct -> k1 = k2)
  /\ (forall k, k ∈ renderOrders ->
        m_renderOrderStencilValues (snd frame) !! k = Some (1 + Z.of_nat (rank k distinct))
        /\ distinct !! rank k distinct = Some k)
  /\ Forall (fun stencilValue => 1 <= stencilValue) (fst frame)
  /\ m_stencilValue (snd frame) = 1 + Z.of_nat (length distinct).
Proof.
  cbv zeta.
  destruct (getStencilValues_allocated renderOrders [] (prepareRender st0)
              (prepareRender_allocated st0)) as [Hvals [Hnext Hmap]].
  assert (Hmem : forall k, k ∈ first_seen [] renderOrders <-> k ∈ renderOrders).
  { intros k. rewrite first_seen_elem, elem_of_nil. tauto. }
  split; [reflexivity|]. split; [assumption|].
  split; [apply first_seen_NoDup, NoDup_nil; exact I|].
  split; [assumption|].
  split.
  { intros k1 k2 H1 H2. apply rank_injective; now apply Hmem. }
  split.
  { intros k Hk. apply Hmem in Hk. split; [|now apply rank_lookup].
    rewrite Hmap. now destruct (decide (k ∈ first_seen [] renderOrders)). }
  split; [|assumption].
  rewrite Hvals. apply Forall_forall. intros v Hv.
  apply (list_elem_of_fmap (fun k => 1 + Z.of_nat (rank k (first_seen [] renderOrders))))
    in Hv as (k & -> & _).
  lia.
Qed.

End Stencil.

(** A frame that queries the render orders 10, 20, 10 and 5. *)
Lemma stencil_allocation_witness :
  fst (getStencilValues [10; 20; 10; 5]
         (prepareRender {| m_stencilValue := 17; m_renderOrderStencilValues := {[ 10 := 9 ]} |}))
    = [1; 2; 1; 3]
  /\ m_stencilValue
       (snd (getStencilValues [10; 20; 10; 5]
               (prepareRender {| m_stencilValue := 17;
                                 m_renderOrderStencilValues := {[ 10 := 9 ]} |})))
     = 4.
Proof.
  destruct (stencil_allocation (RenderOrder := Z)
              {| m_stencilValue := 17; m_renderOrderStencilValues := {[ 10 := 9 ]} |}
              [10; 20; 10; 5]) as (_ & Hvalues & _ & _ & _ & _ & _ & Hcounter).
  split; [rewrite Hvalues | rewrite Hcounter]; reflexivity.
Defined.

(** *** Feature groups *)

(** A value of a style property after evaluation. *)
Inductive JsValue : Type :=
| js_undefined
| js_null
| js_boolean (b : bool)
| js_number (n : number)
| js_string (s : string).

(** [Boolean(value)]. *)
Definition Boolean_ (v : JsValue) : bool :=
  match v with
  | js_undefined | js_null => false
  | js_boolean b => b
  | js_number n => negb (PrimFloat.eqb n 0 || PrimFloat.is_nan n)
  | js_string s => negb (String.eqb s "")
  end.

(** A group of a [THREE.BufferGeometry]: a range of the index buffer. *)
Record DrawGroup : Type := mkDrawGroup {
  group_start : Z;
  group_count : Z;
  materialIndex : Z
}.

(** The parts of a [THREE.BufferGeometry] that the renderer uses:
    [getIndex()?.count], [attributes.position.count] and [groups]. *)
Record BufferGeometry : Type := mkBufferGeometry {
  isBufferGeometry : bool;
  index_count : option Z;
  position_count : Z;
  geometry_groups : list DrawGroup
}.

(** [geometry.clearGroups()] and [geometry.addGroup(start, count)]. *)
Definition clearGroups (g : BufferGeometry) : BufferGeometry :=
  {| isBufferGeometry := isBufferGeometry g; index_count := index_count g;
     position_count := position_count g; geometry_groups := [] |}.

Definition with_groups (groups : list DrawGroup) (g : BufferGeometry) : BufferGeometry :=
  {| isBufferGeometry := isBufferGeometry g; index_count := index_count g;
     position_count := position_count g; geometry_groups := groups |}.

Section FeatureGroups.

(** Style expressions and their environments belong to the datasource
    protocol, feature states to the data source: [Expr], [MapEnv], the
    properties of a feature ([objInfos]), the evaluation of an expression,
    [getFeatureId], [tile.dataSource.getFeatureState] and the environment
    [new MapEnv({ $state }, new MapEnv(properties, m_env))] of a feature. *)
Variable Expr : Type.
Variable MapEnv : Type.
Variable Properties : Type.
Variable FeatureState : Type.
Variable FeatureId : Type.
Variable evaluate : Expr -> MapEnv -> JsValue.
Variable getFeatureId : Properties -> FeatureId.
Variable getFeatureState : FeatureId -> option FeatureState.
Variable featureEnv : option FeatureState -> Properties -> MapEnv -> MapEnv.

(** A property of a technique: missing, a plain value, or an expression. *)
Inductive Property : Type :=
| prop_undefined
| prop_value (v : JsValue)
| prop_expr (e : Expr).

Record IndexedTechnique : Type := mkIndexedTechnique {
  minZoomLevel : Property;
  maxZoomLevel : Property;
  enabled : Property
}.

(** [getPropertyValue(property, env)]. *)
Definition getPropertyValue (property : Property) (env : MapEnv) : JsValue :=
  match property with
  | prop_undefined => js_undefined
  | prop_value v => v
  | prop_expr e => evaluate e env
  end.

(** [object.userData.feature]: [starts] and [objInfos], when they are
    arrays. *)
Record TileFeatureData : Type := mkTileFeatureData {
  starts : option (list Z);
  objInfos : option (list Properties)
}.

Record TileObject : Type := mkTileObject {
  userData_technique : option IndexedTechnique;
  userData_feature : option TileFeatureData;
  geometry : option BufferGeometry
}.

(** The state of the loop over the features: the groups and
    [endOfLastGroup]. *)
Definition GroupState : Type := list DrawGroup * option Z.

(** [geometry.groups[geometry.groups.length - 1].count += count]. *)
Fixpoint extend_last (count : Z) (groups : list DrawGroup) : list DrawGroup :=
  match groups with
  | [] => []
  | [g] => [ {| group_start := group_start g; group_count := group_count g + count;
               materialIndex := materialIndex g |} ]
  | g :: rest => g :: extend_last count rest
  end.

(** Whether a feature is enabled: the technique's [enabled] expression in
    the environment of the feature and of its state. *)
Definition feature_enabled (m_env : MapEnv) (enabledExpr : Expr) (properties : Properties)
  : bool :=
  let featureState := getFeatureState (getFeatureId properties) in
  Boolean_ (evaluate enabledExpr (featureEnv featureState properties m_env)).

(** [starts[featureIndex] ?? 0] and [starts[featureIndex + 1] ?? finalIndex]. *)
Definition feature_start (starts : list Z) (featureIndex : nat) : Z :=
  default 0 (starts !! featureIndex).

Definition feature_end (starts : list Z) (finalIndex : Z) (featureIndex : nat) : Z :=
  default finalIndex (starts !! S featureIndex).

(** The callback of [objInfos.forEach]. *)
Definition feature_step (m_env : MapEnv) (enabledExpr : Expr) (starts : list Z)
    (finalIndex : Z) (state : GroupState) (feature : nat * Properties) : GroupState :=
  let featureIndex := fst feature in
  if negb (feature_enabled m_env enabledExpr (snd feature)) then state
  else
    let start := feature_start starts featureIndex in
    let end_ := feature_end starts finalIndex featureIndex in
    let count := end_ - start in
    let groups' :=
      if bool_decide (Some start = snd state)
      then extend_last count (fst state)
      else fst state ++ [ {| group_start := start; group_count := count; materialIndex := 0 |} ] in
    (groups', Some (start + count)).

(** The features with their indices, as [forEach] passes them. *)
Definition indexed {A} (l : list A) : list (nat * A) := combine (List.seq 0 (length l)) l.

(** [processTileObjectFeatures(tile, storageLevel, zoomLevel, object)]:
    whether the object shall be used in the scene, and the object with the
    groups of its geometry rebuilt. *)
Definition zoomLevelOutOfRange (m_env : MapEnv) (technique : option IndexedTechnique)
    (zoomLevel : number) : bool :=
  let minZoom :=
    match technique with Some t => getPropertyValue (minZoomLevel t) m_env | None => js_undefined end in
  let maxZoom :=
    match technique with Some t => getPropertyValue (maxZoomLevel t) m_env | None => js_undefined end in
  match minZoom with js_number n => lt zoomLevel n | _ => false end
  || match maxZoom with js_number n => ge zoomLevel n | _ => false end.

Definition set_geometry (g : BufferGeometry) (object : TileObject) : TileObject :=
  {| userData_technique := userData_technique object;
     userData_feature := userData_feature object; geometry := Some g |}.

Definition processTileObjectFeatures (m_env : MapEnv) (zoomLevel : number)
    (object : TileObject) : bool * TileObject :=
  let technique := userData_technique object in
  if zoomLevelOutOfRange m_env technique zoomLevel then (false, object)
  else
    match technique with
    | None => (true, object)
    | Some t =>
      match enabled t with
      | prop_undefined | prop_value js_undefined => (true, object) (* nothing to do *)
      | prop_value v => (Boolean_ v, object)
      | prop_expr enabledExpr =>
        match userData_feature object with
        | None => (Boolean_ (evaluate enabledExpr m_env), object)
        | Some feature =>
          match starts feature, objInfos feature with
          | Some starts, Some objInfos =>
            match geometry object with
            | None => (true, object)
            | Some g =>
              if negb (isBufferGeometry g) then (true, object)
              else
                let finalIndex := default (position_count g) (index_count g) in
                let state :=
                  fold_left (feature_step m_env enabledExpr starts finalIndex)
                    (indexed objInfos) (geometry_groups (clearGroups g), None) in
                (negb (Nat.eqb (length (fst state)) 0),
                 set_geometry (with_groups (fst state) g) object)
            end
          | _, _ => (true, object)
          end
        end
      end
    end.

(** *** Feature groups: the enabled ranges, merged where they touch *)

(** The index range of a feature. *)
Definition feature_range (starts : list Z) (finalIndex : Z) (featureIndex : nat) : Z * Z :=
  (feature_start starts featureIndex, feature_end starts finalIndex featureIndex).

(** The index ranges [starts[i], starts[i+1]) of the features that
    evaluate to enabled, in the order of the features. *)
Definition enabled_ranges (m_env : MapEnv) (enabledExpr : Expr) (starts : list Z)
    (finalIndex : Z) (features : list (nat * Properties)) : list (Z * Z) :=
  map (fun feature => feature_range starts finalIndex (fst feature))
    (List.filter (fun feature => feature_enabled m_env enabledExpr (snd feature)) features).

(** Ranges merged where one starts at the end of the one before. *)
Fixpoint merge_adjacent (ranges : list (Z * Z)) : list (Z * Z) :=
  match ranges with
  | [] => []
  | r :: rest =>
      match merge_adjacent rest with
      | [] => [r]
      | r' :: merged =>
          if Z.eqb (fst r') (snd r) then (fst r, snd r') :: merged else r :: r' :: merged
      end
  end.

(** The group that draws a range. *)
Definition group_of_range (r : Z * Z) : DrawGroup :=
  {| group_start := fst r; group_count := snd r - fst r; materialIndex := 0 |}.

(** An index is drawn by a group, lies in a range. *)
Definition draws (k : Z) (g : DrawGroup) : Prop :=
  group_start g <= k < group_start g + group_count g.

Definition in_range (k : Z) (r : Z * Z) : Prop := fst r <= k < snd r.

(** No range starts where the one before it ends. *)
Fixpoint separated (ranges : list (Z * Z)) : Prop :=
  match ranges with
  | r1 :: (r2 :: _) as rest => fst r2 <> snd r1 /\ separated rest
  | _ => True
  end.

Lemma merge_adjacent_head (r : Z * Z) (rest : list (Z * Z)) :
  exists e merged, merge_adjacent (r :: rest) = (fst r, e) :: merged.
Proof.
  cbn. destruct (merge_adjacent rest) as [|r' merged].
  - exists (snd r), []. now destruct r.
  - destruct (Z.eqb (fst r') (snd r)).
    + now exists (snd r'), merged.
    + exists (snd r), (r' :: merged). now destruct r.
Qed.

Lemma merge_adjacent_chain (a e e2 : Z) (rest : list (Z * Z)) :
  merge_adjacent ((a, e) :: (e, e2) :: rest) = merge_adjacent ((a, e2) :: rest).
Proof.
  cbn. destruct (merge_adjacent rest) as [|r' merged]; cbn.
  - now rewrite Z.eqb_refl.
  - destruct (Z.eqb (fst r') e2); cbn; now rewrite Z.eqb_refl.
Qed.

Lemma merge_adjacent_break (r1 r2 : Z * Z) (rest : list (Z * Z)) :
  fst r2 <> snd r1 ->
  merge_adjacent (r1 :: r2 :: rest) = r1 :: merge_adjacent (r2 :: rest).
Proof.
  intros Hne. destruct (merge_adjacent_head r2 rest) as (e & merged & Hhead).
  change (merge_adjacent (r1 :: r2 :: rest))
    with (match merge_adjacent (r2 :: rest) with
          | [] => [r1]
          | r' :: merged =>
              if Z.eqb (fst r') (snd r1) then (fst r1, snd r') :: merged
              else r1 :: r' :: merged
          end).
  rewrite Hhead. cbn [fst snd].
  destruct (Z.eqb (fst r2) (snd r1)) eqn:E; [apply Z.eqb_eq in E; contradiction|reflexivity].
Qed.

Lemma extend_last_snoc (count : Z) (groups : list DrawGroup) (g : DrawGroup) :
  extend_last count (groups ++ [g])
  = groups ++ [ {| group_start := group_start g; group_count := group_count g + count;
                   materialIndex := materialIndex g |} ].
Proof.
  induction groups as [|g0 groups IH]; [reflexivity|].
  cbn [app]. change (extend_last count (g0 :: groups ++ [g]))
    with (match groups ++ [g] with
          | [] => [ {| group_start := group_start g0; group_count := group_count g0 + count;
                       materialIndex := materialIndex g0 |} ]
          | _ :: _ => g0 :: extend_last count (groups ++ [g])
          end).
  destruct (groups ++ [g]) eqn:E; [now destruct groups|]. now rewrite IH.
Qed.

(** The loop, started with an open group that draws [(a, e)]. *)
Lemma feature_loop_open (m_env : MapEnv) (enabledExpr : Expr) (starts : list Z)
    (finalIndex : Z) (features : list (nat * Properties)) (groups : list DrawGroup)
    (a e : Z) :
  fst (fold_left (feature_step m_env enabledExpr starts finalIndex) features
         (groups ++ [group_of_range (a, e)], Some e))
  = groups ++ map group_of_range
                (merge_adjacent ((a, e) :: enabled_ranges m_env enabledExpr starts finalIndex features)).
Proof.
  revert groups a e. induction features as [|feature features IH]; intros groups a e.
  - reflexivity.
  - cbn [fold_left]. unfold feature_step at 2, enabled_ranges.
    cbn [List.filter].
    destruct (feature_enabled m_env enabledExpr (snd feature)); cbn [negb map].
    2:{ apply IH. }
    fold (enabled_ranges m_env enabledExpr starts finalIndex features).
    set (s := feature_start starts (fst feature)).
    set (e2 := feature_end starts finalIndex (fst feature)).
    replace (s + (e2 - s)) with e2 by lia.
    change (feature_range starts finalIndex (fst feature)) with (s, e2).
    cbn [fst snd]. case_bool_decide as Hs.
    + injection Hs as ->. rewrite extend_last_snoc. cbn [group_of_range fst snd group_start
        group_count materialIndex].
      replace (e - a + (e2 - e)) with (e2 - a) by lia.
      rewrite merge_adjacent_chain. apply (IH groups a e2).
    + rewrite merge_adjacent_break by (cbn; congruence).
      change {| group_start := s; group_count := e2 - s; materialIndex := 0 |}
        with (group_of_range (s, e2)).
      rewrite (IH (groups ++ [group_of_range (a, e)]) s e2).
      cbn [map]. now rewrite <- app_assoc.
Qed.

(** The loop from its start. *)
Lemma feature_loop (m_env : MapEnv) (enabledExpr : Expr) (starts : list Z)
    (finalIndex : Z) (features : list (nat * Properties)) :
  fst (fold_left (feature_step m_env enabledExpr starts finalIndex) features ([], None))
  = map group_of_range
      (merge_adjacent (enabled_ranges m_env enabledExpr starts finalIndex features)).
Proof.
  induction features as [|feature features IH]; [reflexivity|].
  cbn [fold_left]. unfold feature_step at 2, enabled_ranges. cbn [List.filter].
  destruct (feature_enabled m_env enabledExpr (snd feature)); cbn [negb map]; [|apply IH].
  fold (enabled_ranges m_env enabledExpr starts finalIndex features).
  set (s := feature_start starts (fst feature)).
  set (e2 := feature_end starts finalIndex (fst feature)).
  replace (s + (e2 - s)) with e2 by lia.
  change (feature_range starts finalIndex (fst feature)) with (s, e2).
  cbn [fst snd]. case_bool_decide as Hs; [discriminate|].
  apply (feature_loop_open m_env enabledExpr starts finalIndex features [] s e2).
Qed.

Lemma merge_adjacent_nil (ranges : list (Z * Z)) :
  merge_adjacent ranges = [] <-> ranges = [].
Proof.
  split; [|now intros ->]. destruct ranges as [|r rest]; [reflexivity|].
  destruct (merge_adjacent_head r rest) as (e & merged & ->). discriminate.
Qed.

Lemma merge_adjacent_separated (ranges : list (Z * Z)) : separated (merge_adjacent ranges).
Proof.
  induction ranges as [|r rest IH]; [exact I|]. cbn [merge_adjacent].
  destruct (merge_adjacent rest) as [|r' merged]; [exact I|].
  destruct (Z.eqb (fst r') (snd r)) eqn:E.
  - destruct merged as [|r'' merged]; [exact I|]. exact IH.
  - apply Z.eqb_neq in E. split; assumption.
Qed.

Lemma merge_adjacent_covers (ranges : list (Z * Z)) :
  Forall (fun r => fst r <= snd r) ranges ->
  Forall (fun r => fst r <= snd r) (merge_adjacent ranges)
  /\ forall k, Exists (in_range k) (merge_adjacent ranges) <-> Exists (in_range k) ranges.
Proof.
  induction ranges as [|r rest IH]; intros Hok; [now split|].
  apply Forall_cons in Hok as [Hr Hrest]. destruct (IH Hrest) as [IHok IHcov].
  cbn [merge_adjacent]. destruct (merge_adjacent rest) as [|r' merged].
  - split; [now repeat constructor|]. intros k.
    rewrite !Exists_cons, <- IHcov, Exists_nil. tauto.
  - apply Forall_cons in IHok as [Hr' Hmerged].
    destruct (Z.eqb (fst r') (snd r)) eqn:E.
    + apply Z.eqb_eq in E. split.
      * apply Forall_cons. split; [cbn; lia | assumption].
      * intros k. rewrite !Exists_cons, <- IHcov, Exists_cons.
        unfold in_range. cbn [fst snd]. split; intros H.
        -- destruct H as [H|H]; [|tauto].
           destruct (Z.lt_ge_cases k (snd r)); [left; lia | right; left; lia].
        -- destruct H as [H|[H|H]]; [left; lia | left; lia | tauto].
    + split; [repeat (apply Forall_cons; split); assumption|].
      intros k. rewrite !Exists_cons, <- IHcov, Exists_cons. tauto.
Qed.

(** C4.  When the technique's [enabled] property is an expression and the
    object carries feature data (arrays [starts] and [objInfos]) and a
    buffer geometry, and the zoom level is within the technique's range,
    the per-frame pass rebuilds the geometry's groups as follows: the index
    ranges [starts[i], starts[i+1]) of the features that evaluate to
    enabled (the last one ending at the final index of the index buffer),
    taken in order, with every range that starts where the previously
    emitted one ends merged into it, each remaining range being one group.
    No two consecutive groups touch; when no range is inverted the groups
    draw exactly the indices of the enabled features; and the function
    returns false exactly when no group remains, which is when no feature
    is enabled. *)
Theorem feature_groups_regeneration (m_env : MapEnv) (zoomLevel : number)
    (object : TileObject) (technique : IndexedTechnique) (enabledExpr : Expr)
    (feature : TileFeatureData) (featureStarts : list Z) (infos : list Properties)
    (g : BufferGeometry) :
  userData_technique object = Some technique ->
  enabled technique = prop_expr enabledExpr ->
  zoomLevelOutOfRange m_env (Some technique) zoomLevel = false ->
  userData_feature object = Some feature ->
  starts feature = Some featureStarts ->
  objInfos feature = Some infos ->
  geometry object = Some g ->
  isBufferGeometry g = true ->
  let finalIndex := default (position_count g) (index_count g) in
  let ranges := enabled_ranges m_env enabledExpr featureStarts finalIndex (indexed infos) in
  let groups := map group_of_range (merge_adjacent ranges) in
  processTileObjectFeatures m_env zoomLevel object
    = (negb (Nat.eqb (length groups) 0), set_geometry (with_groups groups g) object)
  /\ (fst (processTileObjectFeatures m_env zoomLevel object) = false <-> groups = [])
  /\ (groups = [] <-> ranges = [])
  /\ separated (merge_adjacent ranges)
  /\ (Forall (fun r => fst r <= snd r) ranges ->
      forall k, Exists (draws k) groups <-> Exists (in_range k) ranges).
Proof.
  intros Htech Henabled Hzoom Hfeature Hstarts Hinfos Hgeometry Hbuffer. cbv zeta.
  set (finalIndex := default (position_count g) (index_count g)).
  set (ranges := enabled_ranges m_env enabledExpr featureStarts finalIndex (indexed infos)).
  assert (Hrun : processTileObjectFeatures m_env zoomLevel object
                 = (negb (Nat.eqb (length (map group_of_range (merge_adjacent ranges))) 0),
                    set_geometry (with_groups (map group_of_range (merge_adjacent ranges)) g)
                      object)).
  { unfold processTileObjectFeatures.
    rewrite Htech, Hzoom, Henabled, Hfeature, Hstarts, Hinfos, Hgeometry, Hbuffer.
    cbn [negb clearGroups geometry_groups].
    fold finalIndex. now rewrite feature_loop. }
  split; [exact Hrun|]. rewrite Hrun. cbn [fst].
  split.
  { destruct (map group_of_range (merge_adjacent ranges)); cbn; split; congruence. }
  split.
  { rewrite <- merge_adjacent_nil.
    destruct (merge_adjacent ranges); cbn; split; congruence. }
  split; [apply merge_adjacent_separated|].
  intros Hok k. destruct (merge_adjacent_covers ranges Hok) as [_ Hcov].
  rewrite <- Hcov, Exists_fmap.
  assert (Himpl : forall (P Q : Z * Z -> Prop) l,
             (forall r, P r -> Q r) -> Exists P l -> Exists Q l).
  { intros P Q l HPQ HP. apply (Exists_impl P Q l HP). auto. }
  split; apply Himpl; intros r; unfold draws, in_range, compose, group_of_range; cbn; lia.
Qed.

Lemma processTileObjectFeatures_zoom (m_env : MapEnv) (zoomLevel : number)
    (object : TileObject) :
  fst (processTileObjectFeatures m_env zoomLevel object) = true ->
  zoomLevelOutOfRange m_env (userData_technique object) zoomLevel = false.
Proof.
  unfold processTileObjectFeatures.
  destruct (zoomLevelOutOfRange m_env (userData_technique object) zoomLevel);
    [discriminate | reflexivity].
Qed.

Lemma processTileObjectFeatures_technique (m_env : MapEnv) (zoomLevel : number)
    (object : TileObject) :
  userData_technique (snd (processTileObjectFeatures m_env zoomLevel object))
  = userData_technique object.
Proof.
  unfold processTileObjectFeatures.
  repeat case_match; cbn; first [reflexivity | assumption | congruence].
Qed.

Local Ltac stable_norm :=
  cbn [userData_technique userData_feature geometry fst snd set_geometry with_groups
       isBufferGeometry index_count position_count clearGroups geometry_groups negb].

Local Ltac stable_rewrite :=
  stable_norm;
  repeat match goal with
         | H : ?l = _ |- context [?l] => rewrite H; stable_norm
         end.

Local Ltac stable_untouched Hsame :=
  stable_rewrite;
  try reflexivity;
  repeat split;
  first
    [ reflexivity
    | intros; discriminate
    | intros; assumption
    | intros g' Hg; first [injection Hg as <- | subst]; apply Hsame
    | intros g' groups Hg; first [injection Hg as <- | subst];
      unfold processTileObjectFeatures; stable_rewrite; reflexivity ].

(** X13.  [processTileObjectFeatures] can run every frame: it writes
    nothing but the groups of the geometry, and what it makes of an object
    it makes again of its own result.  The groups that the geometry had
    before do not matter for the answer: they are cleared before the
    features are visited, or not looked at. *)
Theorem feature_processing_is_stable (m_env : MapEnv) (zoomLevel : number)
    (object : TileObject) :
  let result := processTileObjectFeatures m_env zoomLevel object in
  processTileObjectFeatures m_env zoomLevel (snd result) = result
  /\ userData_technique (snd result) = userData_technique object
  /\ userData_feature (snd result) = userData_feature object
  /\ (forall g, geometry object = Some g ->
        exists groups, geometry (snd result) = Some (with_groups groups g))
  /\ (geometry object = None -> geometry (snd result) = None)
  /\ (forall g groups, geometry object = Some g ->
        fst (processTileObjectFeatures m_env zoomLevel
               (set_geometry (with_groups groups g) object))
        = fst result).
Proof.
  cbv zeta.
  destruct object as [technique feature g0].
  assert (Hsame : forall g : BufferGeometry, exists groups, Some g = Some (with_groups groups g)).
  { intros g. exists (geometry_groups g). now destruct g. }
  destruct (processTileObjectFeatures m_env zoomLevel
              {| userData_technique := technique; userData_feature := feature;
                 geometry := g0 |}) as [answer object'] eqn:Hresult.
  unfold processTileObjectFeatures in Hresult. stable_norm.
  cbn [userData_technique userData_feature geometry] in Hresult.
  destruct (zoomLevelOutOfRange m_env technique zoomLevel) eqn:Hzoom.
  { injection Hresult as <- <-. split; [unfold processTileObjectFeatures|];
      stable_untouched Hsame. }
  destruct technique as [t|].
  2:{ injection Hresult as <- <-. split; [unfold processTileObjectFeatures|];
      stable_untouched Hsame. }
  destruct (enabled t) as [|v|enabledExpr] eqn:Henabled.
  { injection Hresult as <- <-. split; [unfold processTileObjectFeatures|];
      stable_untouched Hsame. }
  { destruct v; injection Hresult as <- <-;
      (split; [unfold processTileObjectFeatures|]); stable_untouched Hsame. }
  destruct feature as [feature|].
  2:{ injection Hresult as <- <-. split; [unfold processTileObjectFeatures|];
      stable_untouched Hsame. }
  destruct (starts feature) as [featureStarts|] eqn:Hstarts.
  2:{ injection Hresult as <- <-. split; [unfold processTileObjectFeatures|];
      stable_untouched Hsame. }
  destruct (objInfos feature) as [infos|] eqn:Hinfos.
  2:{ injection Hresult as <- <-. split; [unfold processTileObjectFeatures|];
      stable_untouched Hsame. }
  destruct g0 as [g|].
  2:{ injection Hresult as <- <-. split; [unfold processTileObjectFeatures|];
      stable_untouched Hsame. }
  destruct (isBufferGeometry g) eqn:Hbuffer; cbn [negb] in Hresult.
  2:{ injection Hresult as <- <-. split; [unfold processTileObjectFeatures|];
      stable_untouched Hsame. }
  injection Hresult as <- <-.
  split; [unfold processTileObjectFeatures; stable_rewrite; reflexivity|].
  stable_norm. repeat split.
  - intros g' [= <-]. eexists. reflexivity.
  - intros; discriminate.
  - intros g' groups [= <-]. unfold processTileObjectFeatures. stable_rewrite. reflexivity.
Qed.

End FeatureGroups.

(** A geometry of four features of six indices each; the state of feature
    2 disables it, so that features 0 and 1 merge into one group and
    feature 3 is a group of its own. *)
Definition example_evaluate (e : unit) (env : option bool) : JsValue :=
  match env with Some b => js_boolean b | None => js_undefined end.

Definition example_getFeatureState (id : nat) : option bool := Some (negb (Nat.eqb id 2)).

Definition example_featureEnv (state : option bool) (properties : nat) (env : option bool)
  : option bool := state.

Definition example_dynamic_technique : IndexedTechnique unit :=
  {| minZoomLevel := prop_undefined unit; maxZoomLevel := prop_undefined unit;
     enabled := prop_expr unit tt |}.

Definition example_feature : TileFeatureData nat :=
  {| starts := Some [0; 6; 12; 18]; objInfos := Some [0; 1; 2; 3]%nat |}.

Definition example_geometry : BufferGeometry :=
  {| isBufferGeometry := true; index_count := Some 24; position_count := 16;
     geometry_groups := [ {| group_start := 0; group_count := 24; materialIndex := 0 |} ] |}.

Definition example_object : TileObject unit nat :=
  {| userData_technique := Some example_dynamic_technique;
     userData_feature := Some example_feature;
     geometry := Some example_geometry |}.

Definition example_processTileObjectFeatures : bool * TileObject unit nat :=
  processTileObjectFeatures unit (option bool) nat bool nat example_evaluate id
    example_getFeatureState example_featureEnv None 15%float example_object.

Lemma feature_groups_regeneration_witness :
  fst example_processTileObjectFeatures = true
  /\ (geometry_groups <$> geometry unit nat (snd example_processTileObjectFeatures))
     = Some [ {| group_start := 0; group_count := 12; materialIndex := 0 |};
              {| group_start := 18; group_count := 6; materialIndex := 0 |} ].
Proof.
  destruct (feature_groups_regeneration unit (option bool) nat bool nat example_evaluate id
              example_getFeatureState example_featureEnv None 15%float example_object
              example_dynamic_technique tt example_feature [0; 6; 12; 18] [0; 1; 2; 3]%nat
              example_geometry eq_refl eq_refl eq_refl eq_refl eq_refl eq_refl eq_refl
              eq_refl) as (Hrun & _).
  unfold example_processTileObjectFeatures. rewrite Hrun. split; reflexivity.
Defined.

(** *** The order of opaque render items *)

Record TileKey : Type := mkTileKey { mortonCode : number }.

Record DataSource : Type := mkDataSource { dataSourceOrder : number }.

(** [MapObjectAdapter.get(object)], as far as the comparator reads it. *)
Record MapObjectAdapter : Type := mkMapObjectAdapter {
  dataSource : option DataSource;
  level : option number;
  kind : option (list string)
}.

Record Object3D : Type := mkObject3D {
  userData_tileKey : option TileKey;
  mapObjectAdapter : option MapObjectAdapter
}.

(** A shader program of three.js: an object (compared by identity, which
    [program_ref] stands for) with an [id]. *)
Record Program : Type := mkProgram { program_ref : nat; program_id : number }.

Record Material : Type := mkMaterial { material_id : number }.

(** The items of three.js render lists. *)
Record RenderItem : Type := mkRenderItem {
  groupOrder : number;
  renderOrder : number;
  program : Program;
  material : Material;
  z : number;
  id : number;
  object : Object3D
}.

Definition same_object (p q : Program) : bool := Nat.eqb (program_ref p) (program_ref q).

(** [a.object.userData.tileKey && b.object.userData.tileKey &&
    a...mortonCode() !== b...mortonCode()]. *)
Definition mortonCodes_differ (a b : RenderItem) : bool :=
  match userData_tileKey (object a), userData_tileKey (object b) with
  | Some ka, Some kb => strict_ne (mortonCode ka) (mortonCode kb)
  | _, _ => false
  end.

(** The difference of two optional numbers that are both present. *)
Definition difference (x y : option number) : number :=
  match x, y with
  | Some a, Some b => (a - b)%float
  | _, _ => PrimFloat.nan
  end.

Definition mortonCode_of (a : RenderItem) : option number :=
  mortonCode <$> userData_tileKey (object a).

(** [stableSort(a, b)]. *)
Definition stableSort (a b : RenderItem) : number :=
  if strict_ne (groupOrder a) (groupOrder b) then (groupOrder a - groupOrder b)%float
  else if strict_ne (renderOrder a) (renderOrder b) then (renderOrder a - renderOrder b)%float
  else if mortonCodes_differ a b then difference (mortonCode_of a) (mortonCode_of b)
  else if negb (same_object (program a) (program b))
  then (program_id (program a) - program_id (program b))%float
  else if strict_ne (material_id (material a)) (material_id (material b))
  then (material_id (material a) - material_id (material b))%float
  else if strict_ne (z a) (z b) then (z a - z b)%float
  else (id a - id b)%float.

Definition dataSourceOrder_of (a : RenderItem) : option number :=
  adapter ← mapObjectAdapter (object a);
  source ← dataSource adapter;
  Some (dataSourceOrder source).

Definition level_of (a : RenderItem) : option number :=
  adapter ← mapObjectAdapter (object a); level adapter.

(** [mapObjectAdapter.kind?.find(s => s === "building") !== undefined]. *)
Definition isBuilding (a : RenderItem) : bool :=
  match mapObjectAdapter (object a) with
  | Some adapter =>
      match kind adapter with
      | Some kinds => existsb (String.eqb "building") kinds
      | None => false
      end
  | None => false
  end.

Section PainterSort.

(** [BackgroundDataSource.GROUND_RENDER_ORDER]; the background data source
    is not among the sources. *)
Variable GROUND_RENDER_ORDER : number.

(** [painterSortStable(a, b)], the comparator given to
    [setOpaqueSort]. *)
Definition painterSortStable (a b : RenderItem) : number :=
  let dataSourceOrder := dataSourceOrder_of a in
  let otherDataSourceOrder := dataSourceOrder_of b in
  if match dataSourceOrder, otherDataSourceOrder with
     | Some x, Some y => strict_ne x y
     | _, _ => false
     end
  then difference dataSourceOrder otherDataSourceOrder
  else if strict_eq (renderOrder a) GROUND_RENDER_ORDER
          || strict_eq (renderOrder b) GROUND_RENDER_ORDER
  then stableSort a b
  else
    match level_of a, level_of b with
    | Some levelA, Some levelB =>
        let eitherIsBuilding := isBuilding a || isBuilding b in
        let sameLevel := strict_eq levelA levelB in
        if sameLevel || eitherIsBuilding then stableSort a b
        else (levelA - levelB)%float
    | _, _ => stableSort a b
    end.

(** What the comparator reads of an item, said without the comparator:
    the order that the data source of its object declares, its level and
    its tag "building" (all three through the adapter of its object),
    the render order of the background's ground plane, and the morton
    code of its tile. *)
Definition declares (a : RenderItem) (order : number) : Prop :=
  exists adapter source,
    mapObjectAdapter (object a) = Some adapter /\ dataSource adapter = Some source
    /\ dataSourceOrder source = order.

Definition on_level (a : RenderItem) (l : number) : Prop :=
  exists adapter, mapObjectAdapter (object a) = Some adapter /\ level adapter = Some l.

Definition tagged_building (a : RenderItem) : Prop :=
  exists adapter kinds,
    mapObjectAdapter (object a) = Some adapter /\ kind adapter = Some kinds
    /\ In "building"%string kinds.

Definition ground_plane (a : RenderItem) : Prop :=
  strict_eq (renderOrder a) GROUND_RENDER_ORDER = true.

Definition on_tile (a : RenderItem) (code : number) : Prop :=
  exists key, userData_tileKey (object a) = Some key /\ mortonCode key = code.

Lemma dataSourceOrder_of_declares (a : RenderItem) (order : number) :
  dataSourceOrder_of a = Some order <-> declares a order.
Proof.
  unfold dataSourceOrder_of, declares. split.
  - destruct (mapObjectAdapter (object a)) as [adapter|]; [|discriminate]. cbn.
    destruct (dataSource adapter) as [source|] eqn:Hsource; [|discriminate]. cbn.
    intros [= <-]. now exists adapter, source.
  - intros (adapter & source & -> & Hsource & <-). cbn. now rewrite Hsource.
Qed.

Lemma level_of_on_level (a : RenderItem) (l : number) :
  level_of a = Some l <-> on_level a l.
Proof.
  unfold level_of, on_level. split.
  - destruct (mapObjectAdapter (object a)) as [adapter|]; [|discriminate]. cbn.
    intros Hlevel. now exists adapter.
  - now intros (adapter & -> & Hlevel).
Qed.

Lemma isBuilding_tagged (a : RenderItem) : isBuilding a = true <-> tagged_building a.
Proof.
  unfold isBuilding, tagged_building. split.
  - destruct (mapObjectAdapter (object a)) as [adapter|]; [|discriminate].
    destruct (kind adapter) as [kinds|] eqn:Hkind; [|discriminate].
    intros Hfound. apply existsb_exists in Hfound as (tag & Hin & Htag).
    apply String.eqb_eq in Htag. subst tag. now exists adapter, kinds.
  - intros (adapter & kinds & -> & -> & Hin). apply existsb_exists.
    exists "building"%string. split; [exact Hin | apply String.eqb_refl].
Qed.

Lemma mortonCodes_differ_on_tiles (a b : RenderItem) :
  if mortonCodes_differ a b
  then exists ca cb,
         on_tile a ca /\ on_tile b cb /\ strict_ne ca cb = true
         /\ difference (mortonCode_of a) (mortonCode_of b) = (ca - cb)%float
  else forall ca cb, on_tile a ca -> on_tile b cb -> strict_ne ca cb = false.
Proof.
  unfold mortonCodes_differ, mortonCode_of, on_tile.
  destruct (userData_tileKey (object a)) as [ka|], (userData_tileKey (object b)) as [kb|];
    try (intros ca cb (? & [=] & _) (? & [=] & _); fail);
    try (intros ca cb (? & ? & _) (? & [=] & _); fail);
    try (intros ca cb (? & [=] & _) _; fail).
  destruct (strict_ne (mortonCode ka) (mortonCode kb)) eqn:Hne.
  - exists (mortonCode ka), (mortonCode kb). repeat split; try assumption; now eexists.
  - now intros ca cb (? & [= <-] & <-) (? & [= <-] & <-).
Qed.

(** C6.  The comparator of opaque render items orders two items first by
    the orders that their data sources declare, when both declare one and
    the two differ.  When the data sources do not decide, it orders by
    level if both items have one, the levels differ, neither item is
    tagged "building" and neither is the background's ground plane; in all
    remaining cases it is [stableSort], the tie-break chain: the group
    order decides when it differs, else the render order, else the morton
    codes of the owning tiles when both items have a tile and the codes
    differ, and only then the shader program, the material id, the depth
    and at last the object id.  So items of equal group and render order
    on tiles of different morton codes are ordered by the morton codes,
    whatever their program, material and object ids. *)
Theorem draw_order_chain (a b : RenderItem) :
  (forall x y, declares a x -> declares b y -> strict_ne x y = true ->
     painterSortStable a b = (x - y)%float)
  /\ ((forall x y, declares a x -> declares b y -> strict_ne x y = false) ->
      (forall la lb,
         on_level a la -> on_level b lb -> strict_eq la lb = false ->
         ~ tagged_building a -> ~ tagged_building b ->
         ~ ground_plane a -> ~ ground_plane b ->
         painterSortStable a b = (la - lb)%float)
      /\ (ground_plane a \/ ground_plane b \/ tagged_building a \/ tagged_building b
          \/ (forall la, ~ on_level a la) \/ (forall lb, ~ on_level b lb)
          \/ (exists la lb, on_level a la /\ on_level b lb /\ strict_eq la lb = true) ->
          painterSortStable a b = stableSort a b))
  /\ (strict_ne (groupOrder a) (groupOrder b) = true ->
      stableSort a b = (groupOrder a - groupOrder b)%float)
  /\ (strict_ne (groupOrder a) (groupOrder b) = false ->
      (strict_ne (renderOrder a) (renderOrder b) = true ->
       stableSort a b = (renderOrder a - renderOrder b)%float)
      /\ (strict_ne (renderOrder a) (renderOrder b) = false ->
          (forall ca cb, on_tile a ca -> on_tile b cb -> strict_ne ca cb = true ->
             stableSort a b = (ca - cb)%float)
          /\ ((forall ca cb, on_tile a ca -> on_tile b cb -> strict_ne ca cb = false) ->
              (program_ref (program a) <> program_ref (program b) ->
               stableSort a b = (program_id (program a) - program_id (program b))%float)
              /\ (program_ref (program a) = program_ref (program b) ->
                  (strict_ne (material_id (material a)) (material_id (material b)) = true ->
                   stableSort a b
                   = (material_id (material a) - material_id (material b))%float)
                  /\ (strict_ne (material_id (material a)) (material_id (material b)) = false ->
                      (strict_ne (z a) (z b) = true -> stableSort a b = (z a - z b)%float)
                      /\ (strict_ne (z a) (z b) = false ->
                          stableSort a b = (id a - id b)%float)))))).
Proof.
  split; [|split; [|split]].
  - intros x y Hx Hy Hne. apply dataSourceOrder_of_declares in Hx, Hy.
    unfold painterSortStable. rewrite Hx, Hy. cbn [difference]. now rewrite Hne.
  - intros Hsources.
    assert (Hfirst : match dataSourceOrder_of a, dataSourceOrder_of b with
                     | Some x, Some y => strict_ne x y
                     | _, _ => false
                     end = false).
    { destruct (dataSourceOrder_of a) as [x|] eqn:Hx; [|reflexivity].
      destruct (dataSourceOrder_of b) as [y|] eqn:Hy; [|reflexivity].
      apply Hsources; now apply dataSourceOrder_of_declares. }
    unfold painterSortStable. rewrite Hfirst. unfold ground_plane. split.
    + intros la lb Hla Hlb Hdiffer Ha Hb Hga Hgb.
      apply level_of_on_level in Hla, Hlb. rewrite Hla, Hlb, Hdiffer.
      destruct (strict_eq (renderOrder a) GROUND_RENDER_ORDER); [now contradict Hga|].
      destruct (strict_eq (renderOrder b) GROUND_RENDER_ORDER); [now contradict Hgb|].
      destruct (isBuilding a) eqn:Hba; [now apply isBuilding_tagged in Hba|].
      destruct (isBuilding b) eqn:Hbb; [now apply isBuilding_tagged in Hbb|].
      reflexivity.
    + intros Hcase.
      destruct (strict_eq (renderOrder a) GROUND_RENDER_ORDER) eqn:Hga; [reflexivity|].
      destruct (strict_eq (renderOrder b) GROUND_RENDER_ORDER) eqn:Hgb; [reflexivity|].
      cbn [orb].
      destruct (level_of a) as [la|] eqn:Hla; [|reflexivity].
      destruct (level_of b) as [lb|] eqn:Hlb; [|reflexivity].
      apply level_of_on_level in Hla, Hlb.
      destruct Hcase as [H|[H|[H|[H|[H|[H|H]]]]]]; try discriminate.
      * apply isBuilding_tagged in H. rewrite H. now destruct (strict_eq la lb).
      * apply isBuilding_tagged in H. rewrite H.
        now destruct (strict_eq la lb), (isBuilding a).
      * now destruct (H la).
      * now destruct (H lb).
      * destruct H as (la' & lb' & Hla' & Hlb' & Hsame).
        apply level_of_on_level in Hla, Hlb, Hla', Hlb'.
        rewrite Hla in Hla'. rewrite Hlb in Hlb'.
        injection Hla' as <-. injection Hlb' as <-. now rewrite Hsame.
  - intros Hgroup. unfold stableSort. now rewrite Hgroup.
  - intros Hgroup. unfold stableSort. rewrite Hgroup. split; [intros ->; reflexivity|].
    intros ->. pose proof (mortonCodes_differ_on_tiles a b) as Htiles. split.
    + intros ca cb Ha Hb Hne.
      destruct (mortonCodes_differ a b).
      * destruct Htiles as (ca' & cb' & (ka & Hka & <-) & (kb & Hkb & <-) & _ & ->).
        destruct Ha as (ka' & Hka' & <-), Hb as (kb' & Hkb' & <-). congruence.
      * rewrite (Htiles ca cb Ha Hb) in Hne. discriminate.
    + intros Hundecided.
      destruct (mortonCodes_differ a b).
      { destruct Htiles as (ca & cb & Ha & Hb & Hne & _).
        rewrite (Hundecided ca cb Ha Hb) in Hne. discriminate. }
      unfold same_object. split.
      * intros Hprogram. apply Nat.eqb_neq in Hprogram. now rewrite Hprogram.
      * intros Hprogram. apply Nat.eqb_eq in Hprogram. rewrite Hprogram. cbn [negb].
        split; [intros ->; reflexivity|]. intros ->.
        split; intros ->; reflexivity.
Qed.

End PainterSort.

(** Roads and parks of three data sources on the tiles with morton codes
    5 and 9.  In every pair the first item has the greater program,
    material and object ids, and what decides puts it first all the same:
    the declared order of the data sources, whatever level and tile; the
    level, for one data source; the tile, for one data source and level. *)
Definition example_item (order level morton ids : number) (ref : nat) : RenderItem :=
  {| groupOrder := 0%float; renderOrder := 10%float;
     program := {| program_ref := ref; program_id := ids |};
     material := {| material_id := ids |}; z := 0%float; id := ids;
     object := {| userData_tileKey := Some {| mortonCode := morton |};
                  mapObjectAdapter :=
                    Some {| dataSource := Some {| dataSourceOrder := order |};
                            level := Some level; kind := Some ["road"%string] |} |} |}.

Lemma draw_order_chain_witness :
  painterSortStable (-9007199254740991)%float
    (example_item 1%float 15%float 9%float 200%float 1)
    (example_item 2%float 14%float 5%float 100%float 2) = (1 - 2)%float
  /\ painterSortStable (-9007199254740991)%float
       (example_item 1%float 14%float 9%float 200%float 1)
       (example_item 1%float 15%float 5%float 100%float 2) = (14 - 15)%float
  /\ painterSortStable (-9007199254740991)%float
       (example_item 1%float 14%float 5%float 200%float 1)
       (example_item 1%float 14%float 9%float 100%float 2)
     = stableSort (example_item 1%float 14%float 5%float 200%float 1)
         (example_item 1%float 14%float 9%float 100%float 2)
  /\ stableSort (example_item 1%float 14%float 5%float 200%float 1)
       (example_item 1%float 14%float 9%float 100%float 2) = (5 - 9)%float.
Proof.
  assert (Hsame : forall level level' morton morton' ids ids' ref ref' x y,
            declares (example_item 1%float level morton ids ref) x ->
            declares (example_item 1%float level' morton' ids' ref') y ->
            strict_ne x y = false).
  { intros level level' morton morton' ids ids' ref ref' x y
      (? & ? & [= <-] & [= <-] & <-) (? & ? & [= <-] & [= <-] & <-). reflexivity. }
  assert (Hroad : forall order level morton ids ref,
            ~ tagged_building (example_item order level morton ids ref)).
  { intros order level morton ids ref (? & ? & [= <-] & [= <-] & [Hin|[]]). discriminate Hin. }
  split; [|split; [|split]].
  - apply (proj1 (draw_order_chain (-9007199254740991)%float
                    (example_item 1%float 15%float 9%float 200%float 1)
                    (example_item 2%float 14%float 5%float 100%float 2)));
      [now eexists; eexists | now eexists; eexists | reflexivity].
  - apply (proj1 (proj1 (proj2 (draw_order_chain (-9007199254740991)%float
                    (example_item 1%float 14%float 9%float 200%float 1)
                    (example_item 1%float 15%float 5%float 100%float 2))) (Hsame _ _ _ _ _ _ _ _)));
      [now eexists | now eexists | reflexivity | apply Hroad | apply Hroad
      | discriminate | discriminate].
  - apply (proj2 (proj1 (proj2 (draw_order_chain (-9007199254740991)%float
                    (example_item 1%float 14%float 5%float 200%float 1)
                    (example_item 1%float 14%float 9%float 100%float 2))) (Hsame _ _ _ _ _ _ _ _))).
    do 6 right. exists 14%float, 14%float. repeat split; now eexists.
  - apply (proj1 (proj2 (proj2 (proj2 (proj2 (draw_order_chain (-9007199254740991)%float
                    (example_item 1%float 14%float 5%float 200%float 1)
                    (example_item 1%float 14%float 9%float 100%float 2)))) eq_refl) eq_refl)
             5%float 9%float); [now eexists | now eexists | reflexivity].
Defined.

(** *** Rendering the objects of a tile *)

Record Vector3 : Type := mkVector3 { v_x : number; v_y : number; v_z : number }.

(** [a.add(b)] and [a.sub(b)] of [THREE.Vector3]. *)
Definition v_add (a b : Vector3) : Vector3 :=
  {| v_x := v_x a + v_x b; v_y := v_y a + v_y b; v_z := v_z a + v_z b |}%float.

Definition v_sub (a b : Vector3) : Vector3 :=
  {| v_x := v_x a - v_x b; v_y := v_y a - v_y b; v_z := v_z a - v_z b |}%float.

Section Render.

(** Render orders as before; materials are objects that several meshes
    may share, so they are named and their [stencilRef] lives in a store. *)
Context {RenderOrder : Type} `{Countable RenderOrder}.
Context {MaterialId : Type} `{Countable MaterialId}.

(** The style expressions and the feature data, as for the feature
    groups; the map object adapter of an object with its methods
    [ensureUpdated(mapView)] and [isVisible()] and the test
    [pickability === Pickability.all]; rotations. *)
Variable Expr : Type.
Variable MapEnv : Type.
Variable Properties : Type.
Variable FeatureState : Type.
Variable FeatureId : Type.
Variable evaluate : Expr -> MapEnv -> JsValue.
Variable getFeatureId : Properties -> FeatureId.
Variable featureEnv : option FeatureState -> Properties -> MapEnv -> MapEnv.
Variable Adapter : Type.
Variable MapView : Type.
Variable ensureUpdated : MapView -> Adapter -> Adapter.
Variable isVisible : Adapter -> bool.
Variable pickabilityIsAll : Adapter -> bool.
Variable Rotation : Type.

(** [object.material]: one material or an array of materials. *)
Inductive MaterialRef : Type :=
| one_material (m : MaterialId)
| material_array (ms : list MaterialId).

(** A [TileObject] as [render] reads and writes it. *)
Record SceneObject : Type := mkSceneObject {
  obj_data : TileObject Expr Properties;
  obj_visible : bool;
  obj_renderOrder : option RenderOrder;
  obj_isSolidLineMesh : bool;
  obj_material : MaterialRef;
  obj_displacement : option Vector3;
  obj_position : Vector3;
  obj_rotation : Rotation;
  obj_frustumCulled : bool;
  obj_adapter : option Adapter
}.

(** A [Tile] as [render] reads it: [willRender(storageLevel)], [objects],
    [center], [computeWorldOffsetX()], [localTangentSpace],
    [boundingBox.getRotationMatrix()], [mapView] and
    [dataSource.getFeatureState]. *)
Record Tile : Type := mkTile {
  tile_willRender : number -> bool;
  tile_objects : list SceneObject;
  tile_center : Vector3;
  tile_worldOffsetX : number;
  tile_localTangentSpace : bool;
  tile_rotationMatrix : Rotation;
  tile_mapView : MapView;
  tile_getFeatureState : FeatureId -> option FeatureState
}.

(** The stencil values of the renderer, for the render orders of this
    section. *)
Definition StencilValues : Type := @StencilState RenderOrder _ _.

(** The renderer and what it draws into: the stencil values, the
    [stencilRef] of the materials, the children of the root node, and the
    number of calls of [tile.didRender()]. *)
Record RenderState : Type := mkRenderState {
  rs_stencil : StencilValues;
  rs_stencilRef : gmap MaterialId Z;
  rs_children : list SceneObject;
  rs_didRender : nat
}.

Definition set_data (data : TileObject Expr Properties) (o : SceneObject) : SceneObject :=
  {| obj_data := data; obj_visible := obj_visible o; obj_renderOrder := obj_renderOrder o;
     obj_isSolidLineMesh := obj_isSolidLineMesh o; obj_material := obj_material o;
     obj_displacement := obj_displacement o; obj_position := obj_position o;
     obj_rotation := obj_rotation o; obj_frustumCulled := obj_frustumCulled o;
     obj_adapter := obj_adapter o |}.

Definition set_adapter (a : Adapter) (o : SceneObject) : SceneObject :=
  {| obj_data := obj_data o; obj_visible := obj_visible o; obj_renderOrder := obj_renderOrder o;
     obj_isSolidLineMesh := obj_isSolidLineMesh o; obj_material := obj_material o;
     obj_displacement := obj_displacement o; obj_position := obj_position o;
     obj_rotation := obj_rotation o; obj_frustumCulled := obj_frustumCulled o;
     obj_adapter := Some a |}.

(** [processTileObject(tile, storageLevel, zoomLevel, object,
    mapObjectAdapter)]: whether the object shall be used in the scene, and
    the object after the call. *)
Definition processTileObject (m_env : MapEnv) (tile : Tile) (zoomLevel : number)
    (object : SceneObject) : bool * SceneObject :=
  if negb (obj_visible object) then (false, object)
  else
    let features :=
      processTileObjectFeatures Expr MapEnv Properties FeatureState FeatureId evaluate
        getFeatureId (tile_getFeatureState tile) featureEnv m_env zoomLevel
        (obj_data object) in
    let object1 := set_data (snd features) object in
    if negb (fst features) then (false, object1)
    else
      match obj_adapter object1 with
      | Some mapObjectAdapter =>
          let updated := ensureUpdated (tile_mapView tile) mapObjectAdapter in
          let object2 := set_adapter updated object1 in
          if negb (isVisible updated) && negb (pickabilityIsAll updated)
          then (false, object2)
          else (true, object2)
      | None => (true, object1)
      end.

(** [mat.stencilRef = this.getStencilValue(object.renderOrder)]. *)
Definition set_stencilRef (renderOrder : RenderOrder)
    (state : StencilValues * gmap MaterialId Z) (mat : MaterialId)
  : StencilValues * gmap MaterialId Z :=
  let value := getStencilValue renderOrder (fst state) in
  (snd value, <[mat := fst value]> (snd state)).

(** [updateStencilRef(object)]. *)
Definition updateStencilRef (object : SceneObject)
    (state : StencilValues * gmap MaterialId Z) : StencilValues * gmap MaterialId Z :=
  match obj_renderOrder object with
  | Some renderOrder =>
      if obj_isSolidLineMesh object then
        match obj_material object with
        | material_array materials => fold_left (set_stencilRef renderOrder) materials state
        | one_material material => set_stencilRef renderOrder state material
        end
      else state
  | None => state
  end.

(** The placement of an object relative to the camera. *)
Definition place (tile : Tile) (cameraPosition : Vector3) (o : SceneObject) : SceneObject :=
  let atCenter :=
    match obj_displacement o with
    | Some displacement => v_add (tile_center tile) displacement
    | None => tile_center tile
    end in
  let shifted :=
    {| v_x := v_x atCenter + tile_worldOffsetX tile; v_y := v_y atCenter;
       v_z := v_z atCenter |}%float in
  {| obj_data := obj_data o; obj_visible := obj_visible o; obj_renderOrder := obj_renderOrder o;
     obj_isSolidLineMesh := obj_isSolidLineMesh o; obj_material := obj_material o;
     obj_displacement := obj_displacement o;
     obj_position := v_sub shifted cameraPosition;
     obj_rotation :=
       if tile_localTangentSpace tile then tile_rotationMatrix tile else obj_rotation o;
     obj_frustumCulled := false;
     obj_adapter := obj_adapter o |}.

(** The body of the loop of [render]: the state of the renderer and the
    objects of the tile visited so far, as they are after the visit.
    [rootNode.add(object)] appends the object to the children of the root
    node. *)
Definition render_object (m_env : MapEnv) (tile : Tile) (zoomLevel : number)
    (cameraPosition : Vector3) (state : RenderState * list SceneObject) (object : SceneObject)
  : RenderState * list SceneObject :=
  let rs := fst state in
  let processed := processTileObject m_env tile zoomLevel object in
  if negb (fst processed) then (rs, snd state ++ [snd processed])
  else
    let stencil := updateStencilRef (snd processed) (rs_stencil rs, rs_stencilRef rs) in
    let placed := place tile cameraPosition (snd processed) in
    ({| rs_stencil := fst stencil; rs_stencilRef := snd stencil;
        rs_children := rs_children rs ++ [placed]; rs_didRender := rs_didRender rs |},
     snd state ++ [placed]).

(** [render(tile, storageLevel, zoomLevel, cameraPosition, rootNode)]:
    the renderer afterwards and the objects of the tile afterwards. *)
Definition render (m_env : MapEnv) (tile : Tile) (storageLevel zoomLevel : number)
    (cameraPosition : Vector3) (rs : RenderState) : RenderState * list SceneObject :=
  if tile_willRender tile storageLevel then
    let done :=
      fold_left (render_object m_env tile zoomLevel cameraPosition) (tile_objects tile)
        (rs, []) in
    ({| rs_stencil := rs_stencil (fst done); rs_stencilRef := rs_stencilRef (fst done);
        rs_children := rs_children (fst done);
        rs_didRender := S (rs_didRender (fst done)) |},
     snd done)
  else (rs, tile_objects tile).

(** The objects of a tile that [processTileObject] lets into the scene,
    as they are after it. *)
Definition accepted (m_env : MapEnv) (tile : Tile) (zoomLevel : number)
    (objects : list SceneObject) : list SceneObject :=
  map snd (List.filter fst (map (processTileObject m_env tile zoomLevel) objects)).

(** The writes of [stencilRef] for a list of objects in the scene: the
    material written and the render order whose stencil value it gets. *)
Definition stencil_writes (objects : list SceneObject) : list (MaterialId * RenderOrder) :=
  flat_map (fun object =>
    match obj_renderOrder object with
    | Some renderOrder =>
        if obj_isSolidLineMesh object then
          match obj_material object with
          | material_array materials => map (fun mat => (mat, renderOrder)) materials
          | one_material mat => [(mat, renderOrder)]
          end
        else []
    | None => []
    end) objects.

(** The store of [stencilRef] after a list of writes, each writing the
    stencil value of its render order among the render orders [seen]. *)
Definition written (seen : list RenderOrder) (writes : list (MaterialId * RenderOrder))
    (refs : gmap MaterialId Z) : gmap MaterialId Z :=
  fold_left (fun refs write => <[fst write := 1 + Z.of_nat (rank (snd write) seen)]> refs)
    writes refs.

Lemma processTileObject_accepts (m_env : MapEnv) (tile : Tile) (zoomLevel : number)
    (object : SceneObject) :
  fst (processTileObject m_env tile zoomLevel object) = true ->
  obj_visible object = true
  /\ zoomLevelOutOfRange Expr MapEnv evaluate m_env (userData_technique _ _ (obj_data object))
       zoomLevel = false
  /\ match obj_adapter (snd (processTileObject m_env tile zoomLevel object)) with
     | Some mapObjectAdapter => isVisible mapObjectAdapter || pickabilityIsAll mapObjectAdapter = true
     | None => obj_adapter object = None
     end.
Proof.
  unfold processTileObject.
  destruct (obj_visible object); cbn [negb]; [|discriminate].
  pose proof (processTileObjectFeatures_zoom Expr MapEnv Properties FeatureState FeatureId
                evaluate getFeatureId (tile_getFeatureState tile) featureEnv m_env zoomLevel
                (obj_data object)) as Hzoom.
  destruct (fst (processTileObjectFeatures Expr MapEnv Properties FeatureState FeatureId
                   evaluate getFeatureId (tile_getFeatureState tile) featureEnv m_env
                   zoomLevel (obj_data object))); cbn [negb]; [|discriminate].
  specialize (Hzoom eq_refl). cbn [obj_adapter set_data].
  destruct (obj_adapter object) as [mapObjectAdapter|] eqn:Hadapter;
    [|intros _; cbn; rewrite ?Hadapter; now repeat split].
  destruct (isVisible (ensureUpdated (tile_mapView tile) mapObjectAdapter)) eqn:Hvisible,
           (pickabilityIsAll (ensureUpdated (tile_mapView tile) mapObjectAdapter))
             eqn:Hpick; cbn; try discriminate; intros _; rewrite ?Hvisible, ?Hpick;
    now repeat split.
Qed.

Lemma fold_left_map {A B C} (f : A -> B -> A) (g : C -> B) (l : list C) (a : A) :
  fold_left f (map g l) a = fold_left (fun a c => f a (g c)) l a.
Proof. revert a. induction l as [|c l IH]; intros a; cbn; [reflexivity | apply IH]. Qed.

(** The write of one [stencilRef], and [updateStencilRef] as the writes of
    an object. *)
Definition stencil_write (state : StencilValues * gmap MaterialId Z)
    (write : MaterialId * RenderOrder) : StencilValues * gmap MaterialId Z :=
  set_stencilRef (snd write) state (fst write).

Lemma updateStencilRef_writes (object : SceneObject)
    (state : StencilValues * gmap MaterialId Z) :
  updateStencilRef object state = fold_left stencil_write (stencil_writes [object]) state.
Proof.
  unfold updateStencilRef, stencil_writes. cbn [flat_map]. rewrite app_nil_r.
  destruct (obj_renderOrder object) as [renderOrder|]; [|reflexivity].
  destruct (obj_isSolidLineMesh object); [|reflexivity].
  destruct (obj_material object) as [mat|materials]; [reflexivity|].
  now rewrite fold_left_map.
Qed.

Lemma stencil_writes_app (objects1 objects2 : list SceneObject) :
  stencil_writes (objects1 ++ objects2) = stencil_writes objects1 ++ stencil_writes objects2.
Proof. unfold stencil_writes. apply flat_map_app. Qed.

Lemma stencil_writes_cons (object : SceneObject) (objects : list SceneObject) :
  stencil_writes (object :: objects) = stencil_writes [object] ++ stencil_writes objects.
Proof. apply (stencil_writes_app [object] objects). Qed.

Lemma stencil_writes_place (tile : Tile) (cameraPosition : Vector3)
    (objects : list SceneObject) :
  stencil_writes (map (place tile cameraPosition) objects) = stencil_writes objects.
Proof.
  induction objects as [|o objects IH]; [reflexivity|].
  change (stencil_writes (map (place tile cameraPosition) (o :: objects)))
    with (stencil_writes ([place tile cameraPosition o]
                          ++ map (place tile cameraPosition) objects)).
  change (o :: objects) with ([o] ++ objects).
  rewrite !stencil_writes_app, IH. reflexivity.
Qed.

Lemma accepted_cons (m_env : MapEnv) (tile : Tile) (zoomLevel : number)
    (object : SceneObject) (objects : list SceneObject) :
  accepted m_env tile zoomLevel (object :: objects)
  = (if fst (processTileObject m_env tile zoomLevel object)
     then [snd (processTileObject m_env tile zoomLevel object)] else [])
    ++ accepted m_env tile zoomLevel objects.
Proof.
  unfold accepted. cbn [map List.filter].
  now destruct (fst (processTileObject m_env tile zoomLevel object)).
Qed.

(** The loop of [render]: the scene gets the accepted objects, placed, in
    the order of the tile; the stencil state and the [stencilRef] store
    get the writes of the accepted objects. *)
Lemma render_loop (m_env : MapEnv) (tile : Tile) (zoomLevel : number)
    (cameraPosition : Vector3) (objects : list SceneObject) (rs : RenderState)
    (done : list SceneObject) :
  let result := fold_left (render_object m_env tile zoomLevel cameraPosition) objects
                  (rs, done) in
  let scene := accepted m_env tile zoomLevel objects in
  rs_children (fst result) = rs_children rs ++ map (place tile cameraPosition) scene
  /\ rs_didRender (fst result) = rs_didRender rs
  /\ (rs_stencil (fst result), rs_stencilRef (fst result))
     = fold_left stencil_write (stencil_writes scene) (rs_stencil rs, rs_stencilRef rs)
  /\ length (snd result) = (length done + length objects)%nat.
Proof.
  cbv zeta. revert rs done.
  induction objects as [|object objects IH]; intros rs done; cbn [fold_left].
  - unfold accepted. cbn. rewrite app_nil_r, Nat.add_0_r. now repeat split.
  - rewrite accepted_cons.
    assert (Hstep :
      render_object m_env tile zoomLevel cameraPosition (rs, done) object
      = if fst (processTileObject m_env tile zoomLevel object)
        then ({| rs_stencil :=
                   fst (updateStencilRef (snd (processTileObject m_env tile zoomLevel
                                                 object))
                          (rs_stencil rs, rs_stencilRef rs));
                 rs_stencilRef :=
                   snd (updateStencilRef (snd (processTileObject m_env tile zoomLevel
                                                 object))
                          (rs_stencil rs, rs_stencilRef rs));
                 rs_children :=
                   rs_children rs
                   ++ [place tile cameraPosition
                         (snd (processTileObject m_env tile zoomLevel object))];
                 rs_didRender := rs_didRender rs |},
              done ++ [place tile cameraPosition
                         (snd (processTileObject m_env tile zoomLevel object))])
        else (rs, done ++ [snd (processTileObject m_env tile zoomLevel object)])).
    { unfold render_object. cbn [fst snd].
      now destruct (fst (processTileObject m_env tile zoomLevel object)). }
    rewrite Hstep. clear Hstep.
    destruct (fst (processTileObject m_env tile zoomLevel object)).
    + destruct (IH {| rs_stencil :=
                        fst (updateStencilRef (snd (processTileObject m_env tile zoomLevel
                                                      object))
                               (rs_stencil rs, rs_stencilRef rs));
                      rs_stencilRef :=
                        snd (updateStencilRef (snd (processTileObject m_env tile zoomLevel
                                                      object))
                               (rs_stencil rs, rs_stencilRef rs));
                      rs_children :=
                        rs_children rs
                        ++ [place tile cameraPosition
                              (snd (processTileObject m_env tile zoomLevel object))];
                      rs_didRender := rs_didRender rs |}
                   (done ++ [place tile cameraPosition
                               (snd (processTileObject m_env tile zoomLevel object))]))
        as (Hchildren & Hdid & Hstencil & Hlen).
      rewrite Hchildren, Hdid, Hstencil, Hlen. cbn [rs_stencil rs_stencilRef rs_children
                                                    rs_didRender app map].
      split; [now rewrite <- app_assoc|]. split; [reflexivity|].
      split; [|rewrite length_app; cbn; lia].
      rewrite stencil_writes_cons, fold_left_app, <- updateStencilRef_writes.
      now destruct (updateStencilRef _ _).
    + destruct (IH rs (done ++ [snd (processTileObject m_env tile zoomLevel object)]))
        as (Hchildren & Hdid & Hstencil & Hlen).
      rewrite Hchildren, Hdid, Hstencil, Hlen. cbn [app].
      repeat split. rewrite length_app. cbn. lia.
Qed.

Lemma place_keeps (tile : Tile) (cameraPosition : Vector3) (o : SceneObject) :
  obj_frustumCulled (place tile cameraPosition o) = false
  /\ obj_data (place tile cameraPosition o) = obj_data o
  /\ obj_visible (place tile cameraPosition o) = obj_visible o
  /\ obj_adapter (place tile cameraPosition o) = obj_adapter o.
Proof. now repeat split. Qed.

Lemma processTileObject_keeps (m_env : MapEnv) (tile : Tile) (zoomLevel : number)
    (object : SceneObject) :
  obj_visible (snd (processTileObject m_env tile zoomLevel object)) = obj_visible object
  /\ userData_technique _ _ (obj_data (snd (processTileObject m_env tile zoomLevel object)))
     = userData_technique _ _ (obj_data object).
Proof.
  unfold processTileObject.
  pose proof (processTileObjectFeatures_technique Expr MapEnv Properties FeatureState
                FeatureId evaluate getFeatureId (tile_getFeatureState tile) featureEnv m_env
                zoomLevel (obj_data object)) as Htechnique.
  repeat case_match; cbn; now split.
Qed.

(** An object of the scene: it is visible, the zoom level is within the
    range of its technique, it is not culled by the frustum, and its map
    object adapter, if it has one, is visible or pickable regardless of
    visibility. *)
Definition in_scene (m_env : MapEnv) (zoomLevel : number) (o : SceneObject) : Prop :=
  obj_visible o = true
  /\ obj_frustumCulled o = false
  /\ zoomLevelOutOfRange Expr MapEnv evaluate m_env (userData_technique _ _ (obj_data o))
       zoomLevel = false
  /\ match obj_adapter o with
     | Some mapObjectAdapter =>
         isVisible mapObjectAdapter || pickabilityIsAll mapObjectAdapter = true
     | None => True
     end.

(** X14.  [render] of a tile that will not render changes nothing.
    Otherwise the children of the root node get, after those it had, the
    objects of the tile that [processTileObject] accepts, each placed
    relative to the camera, in the order of the tile; whether an object is
    accepted does not depend on the objects before it.  No other object is
    added: every added object is visible, within the zoom range of its
    technique, exempt from frustum culling, and visible or pickable for
    its adapter.  All objects of the tile are visited and [didRender] is
    called once. *)
Theorem render_fills_scene (m_env : MapEnv) (tile : Tile) (storageLevel zoomLevel : number)
    (cameraPosition : Vector3) (rs : RenderState) :
  let result := render m_env tile storageLevel zoomLevel cameraPosition rs in
  let added :=
    map (place tile cameraPosition) (accepted m_env tile zoomLevel (tile_objects tile)) in
  if tile_willRender tile storageLevel then
    rs_children (fst result) = rs_children rs ++ added
    /\ Forall (in_scene m_env zoomLevel) added
    /\ (length added <= length (tile_objects tile))%nat
    /\ length (snd result) = length (tile_objects tile)
    /\ rs_didRender (fst result) = S (rs_didRender rs)
  else result = (rs, tile_objects tile).
Proof.
  cbv zeta. unfold render.
  destruct (tile_willRender tile storageLevel); [|reflexivity].
  destruct (render_loop m_env tile zoomLevel cameraPosition (tile_objects tile) rs [])
    as (Hchildren & Hdid & _ & Hlen).
  cbn [fst snd rs_children rs_didRender].
  split; [exact Hchildren|]. split; [|split; [|split; [exact Hlen | now rewrite Hdid]]].
  - apply Forall_forall. intros placed Hin.
    apply list_elem_of_fmap in Hin as (o' & -> & Hin).
    unfold accepted in Hin. apply list_elem_of_fmap in Hin as ([ok o1] & -> & Hin).
    apply list_elem_of_In, filter_In in Hin as [Hin Hok]. cbn [fst snd] in *.
    apply in_map_iff in Hin as (o & Hprocessed & _).
    pose proof (processTileObject_accepts m_env tile zoomLevel o) as Haccepts.
    pose proof (processTileObject_keeps m_env tile zoomLevel o) as [Hvisible Htechnique].
    rewrite Hprocessed in Haccepts, Hvisible, Htechnique. cbn [fst snd] in *.
    destruct (Haccepts Hok) as (Hv & Hzoom & Hadapter).
    destruct (place_keeps tile cameraPosition o1) as (Hculled & Hdata & Hvis & Had).
    unfold in_scene. rewrite Hculled, Hdata, Hvis, Had, Hvisible, Htechnique.
    repeat split; try assumption.
    destruct (obj_adapter o1); [exact Hadapter | exact I].
  - rewrite length_map. unfold accepted. rewrite length_map.
    etransitivity; [apply filter_length_le|]. now rewrite length_map.
Qed.

Lemma written_cons (seen : list RenderOrder) (write : MaterialId * RenderOrder)
    (writes : list (MaterialId * RenderOrder)) (refs : gmap MaterialId Z) :
  written seen (write :: writes) refs
  = written seen writes (<[fst write := 1 + Z.of_nat (rank (snd write) seen)]> refs).
Proof. reflexivity. Qed.

(** Writes against a stencil state in which [seen] is allocated. *)
Lemma stencil_writes_allocated (writes : list (MaterialId * RenderOrder))
    (seen : list RenderOrder) (st : StencilValues) (refs : gmap MaterialId Z) :
  allocated seen st ->
  let final := fold_left stencil_write writes (st, refs) in
  let seen' := first_seen seen (map snd writes) in
  allocated seen' (fst final)
  /\ forall later, snd final = written (seen' ++ later) writes refs.
Proof.
  cbv zeta. revert seen st refs.
  induction writes as [|[mat renderOrder] writes IH]; intros seen st refs Hallocated;
    cbn [fold_left map first_seen snd].
  - split; [exact Hallocated | reflexivity].
  - destruct (getStencilValue_allocated seen st renderOrder Hallocated) as [Hvalue Hnext].
    cbv zeta in Hvalue, Hnext.
    set (seen1 := if decide (renderOrder ∈ seen) then seen else seen ++ [renderOrder]) in *.
    change (stencil_write (st, refs) (mat, renderOrder))
      with (snd (getStencilValue renderOrder st),
            <[mat := fst (getStencilValue renderOrder st)]> refs).
    destruct (IH seen1 (snd (getStencilValue renderOrder st))
                (<[mat := fst (getStencilValue renderOrder st)]> refs) Hnext)
      as [Hallocated' Hrefs].
    split; [exact Hallocated'|]. intros later.
    etransitivity; [apply (Hrefs later)|]. rewrite written_cons. cbn [fst snd].
    rewrite Hvalue. do 3 f_equal.
    destruct (first_seen_extends seen1 (map snd writes)) as [more ->].
    rewrite <- app_assoc. rewrite rank_app_in; [reflexivity|].
    unfold seen1. destruct (decide (renderOrder ∈ seen)); [assumption|].
    apply elem_of_app. right. now apply list_elem_of_singleton.
Qed.

Lemma written_last (seen : list RenderOrder) (before after : list (MaterialId * RenderOrder))
    (mat : MaterialId) (renderOrder : RenderOrder) (refs : gmap MaterialId Z) :
  mat ∉ map fst after ->
  written seen (before ++ (mat, renderOrder) :: after) refs !! mat
  = Some (1 + Z.of_nat (rank renderOrder seen)).
Proof.
  intros Hlast. unfold written. rewrite fold_left_app. cbn [fold_left fst snd].
  generalize (fold_left
                (fun refs0 write => <[fst write := 1 + Z.of_nat (rank (snd write) seen)]> refs0)
                before refs).
  intros refs0.
  assert (Hkeep : forall writes (refs1 : gmap MaterialId Z) value,
            mat ∉ map fst writes -> refs1 !! mat = Some value ->
            fold_left (fun refs2 write =>
                         <[fst write := 1 + Z.of_nat (rank (snd write) seen)]> refs2)
              writes refs1 !! mat = Some value).
  { induction writes as [|[m ro] writes IH]; intros refs1 value Hnot Hlook; [exact Hlook|].
    cbn [fold_left fst snd]. cbn [map fst] in Hnot. apply not_elem_of_cons in Hnot as [Hne Hnot].
    apply IH; [exact Hnot|]. now rewrite lookup_insert_ne by congruence. }
  apply Hkeep; [exact Hlast | apply lookup_insert_eq].
Qed.

Lemma written_untouched (seen : list RenderOrder) (writes : list (MaterialId * RenderOrder))
    (mat : MaterialId) (refs : gmap MaterialId Z) :
  mat ∉ map fst writes -> written seen writes refs !! mat = refs !! mat.
Proof.
  unfold written. revert refs.
  induction writes as [|[m ro] writes IH]; intros refs Hnot; [reflexivity|].
  cbn [fold_left fst snd]. cbn [map fst] in Hnot. apply not_elem_of_cons in Hnot as [Hne Hnot].
  rewrite IH by exact Hnot. now rewrite lookup_insert_ne by congruence.
Qed.

(** X15.  The stencil references that [render] writes, in a frame in
    which the render orders [seen] have their stencil values.  The writes
    are those of the accepted solid line meshes that have a render order,
    one per material, in the order of the tile.  Afterwards the render
    orders of the writes have their values too, counted on from [seen] in
    the order of their first use; a material that was written holds the
    stencil value of the render order of the last object that wrote it
    (materials may be shared), and a material that was not written holds
    what it held; two render orders of the frame have the same stencil
    value only if they are the same. *)
Theorem render_stencil_references (m_env : MapEnv) (tile : Tile)
    (storageLevel zoomLevel : number) (cameraPosition : Vector3) (rs : RenderState)
    (seen : list RenderOrder) :
  allocated seen (rs_stencil rs) ->
  let result := fst (render m_env tile storageLevel zoomLevel cameraPosition rs) in
  let writes :=
    if tile_willRender tile storageLevel
    then stencil_writes (accepted m_env tile zoomLevel (tile_objects tile))
    else [] in
  let seen' := first_seen seen (map snd writes) in
  allocated seen' (rs_stencil result)
  /\ (forall before after mat renderOrder,
        writes = before ++ (mat, renderOrder) :: after -> mat ∉ map fst after ->
        rs_stencilRef result !! mat = Some (1 + Z.of_nat (rank renderOrder seen')))
  /\ (forall mat, mat ∉ map fst writes -> rs_stencilRef result !! mat = rs_stencilRef rs !! mat)
  /\ (forall renderOrder1 renderOrder2,
        renderOrder1 ∈ seen' -> renderOrder2 ∈ seen' ->
        rank renderOrder1 seen' = rank renderOrder2 seen' -> renderOrder1 = renderOrder2)
  /\ (forall renderOrder, renderOrder ∈ seen' <->
        renderOrder ∈ seen \/ renderOrder ∈ map snd writes).
Proof.
  intros Hallocated. cbv zeta. unfold render.
  assert (Hrank : forall l (k1 k2 : RenderOrder),
            k1 ∈ l -> k2 ∈ l -> rank k1 l = rank k2 l -> k1 = k2)
    by (intros l k1 k2; apply rank_injective).
  destruct (tile_willRender tile storageLevel); cbn [fst].
  - destruct (render_loop m_env tile zoomLevel cameraPosition (tile_objects tile) rs [])
      as (_ & _ & Hstencil & _).
    cbn [rs_stencil rs_stencilRef].
    destruct (stencil_writes_allocated
                (stencil_writes (accepted m_env tile zoomLevel (tile_objects tile)))
                seen (rs_stencil rs) (rs_stencilRef rs) Hallocated) as [Hallocated' Hrefs].
    rewrite <- Hstencil in Hallocated', Hrefs. cbn [fst snd] in Hallocated', Hrefs.
    specialize (Hrefs []). rewrite app_nil_r in Hrefs.
    split; [exact Hallocated'|]. rewrite Hrefs.
    split; [intros before after mat renderOrder -> Hlast; now apply written_last|].
    split; [intros mat Hnot; now apply written_untouched|].
    split; [apply Hrank | apply first_seen_elem].
  - cbn [map first_seen]. split; [exact Hallocated|].
    split; [intros [|? ?] ? ? ? Heq; discriminate Heq|].
    split; [reflexivity|]. split; [apply Hrank|].
    intros renderOrder. rewrite elem_of_nil. tauto.
Qed.

End Render.

(** Three solid line meshes of the render orders 10, 20 and 10; the
    material 1 is shared by the first two. *)
Definition example_line_mesh (renderOrder : Z) (materials : list nat)
  : @SceneObject Z nat unit nat unit unit :=
  {| obj_data := {| userData_technique := None; userData_feature := None; geometry := None |};
     obj_visible := true; obj_renderOrder := Some renderOrder; obj_isSolidLineMesh := true;
     obj_material := material_array materials; obj_displacement := None;
     obj_position := {| v_x := 0; v_y := 0; v_z := 0 |}%float; obj_rotation := tt;
     obj_frustumCulled := true; obj_adapter := None |}.

Definition example_line_tile : @Tile Z nat unit nat unit unit unit unit unit :=
  {| tile_willRender := fun _ => true;
     tile_objects := [example_line_mesh 10 [0%nat; 1%nat]; example_line_mesh 20 [1%nat];
                      example_line_mesh 10 [2%nat]];
     tile_center := {| v_x := 0; v_y := 0; v_z := 0 |}%float;
     tile_worldOffsetX := 0%float; tile_localTangentSpace := false;
     tile_rotationMatrix := tt; tile_mapView := tt; tile_getFeatureState := fun _ => None |}.

Definition example_frame : @RenderState Z _ _ nat _ _ unit nat unit unit :=
  {| rs_stencil := prepareRender {| m_stencilValue := 5; m_renderOrderStencilValues := ∅ |};
     rs_stencilRef := ∅; rs_children := []; rs_didRender := 0 |}.

Definition example_render : @RenderState Z _ _ nat _ _ unit nat unit unit :=
  fst (render unit unit nat unit unit (fun _ _ => js_undefined) (fun _ => tt)
         (fun _ _ env => env) unit unit (fun _ adapter => adapter) (fun _ => true)
         (fun _ => false) unit tt example_line_tile 14%float 14%float
         {| v_x := 0; v_y := 0; v_z := 0 |}%float example_frame).

Lemma render_stencil_references_witness :
  rs_stencilRef unit nat unit unit example_render !! 0%nat = Some 1
  /\ rs_stencilRef unit nat unit unit example_render !! 1%nat = Some 2
  /\ rs_stencilRef unit nat unit unit example_render !! 2%nat = Some 1.
Proof.
  pose proof (render_stencil_references unit unit nat unit unit (fun _ _ => js_undefined)
                (fun _ => tt) (fun _ _ env => env) unit unit (fun _ adapter => adapter)
                (fun _ => true) (fun _ => false) unit tt example_line_tile 14%float 14%float
                {| v_x := 0; v_y := 0; v_z := 0 |}%float example_frame []
                (prepareRender_allocated _)) as (_ & Hlast & _).
  split; [|split].
  - apply (Hlast [] [(1%nat, 10); (1%nat, 20); (2%nat, 10)] 0%nat 10); [reflexivity|].
    intros Hin. repeat (apply elem_of_cons in Hin as [Hin|Hin]; [discriminate|]).
    now apply elem_of_nil in Hin.
  - apply (Hlast [(0%nat, 10); (1%nat, 10)] [(2%nat, 10)] 1%nat 20); [reflexivity|].
    intros Hin. repeat (apply elem_of_cons in Hin as [Hin|Hin]; [discriminate|]).
    now apply elem_of_nil in Hin.
  - apply (Hlast [(0%nat, 10); (1%nat, 10); (1%nat, 20)] [] 2%nat 10); [reflexivity|].
    intros Hin. now apply elem_of_nil in Hin.
Defined.

End TileObjectRenderer.

(** ** Road picking *)

Module RoadPicker.
Import JS.

Record Vector3 : Type := mkVector3 { x : number; y : number; z : number }.

(** [a.distanceTo(b)]. *)
Definition distanceTo (a b : Vector3) : number :=
  let dx := (x a - x b)%float in
  let dy := (y a - y b)%float in
  let dz := (z a - z b)%float in
  PrimFloat.sqrt (dx * dx + dy * dy + dz * dz)%float.

(** [MAX_DISTANCE_ERROR = 0.01]: the double closest to 0.01. *)
Definition MAX_DISTANCE_ERROR : number := 0x1.47ae147ae147bp-7%float.

Section Picking.

(** Collaborators that are not among the sources: the assertion of the
    utilities, the attribute values of the datasource protocol (a line
    width that may depend on the level), and [Math2D.distToSegmentSquared]. *)
Variable assert : bool -> Completion unit.
Variable LineWidth : Type.
Variable getAttributeValue : LineWidth -> number -> option number.
Variable distToSegmentSquared : number -> number -> number -> number -> number -> number -> number.

Record LineTechnique : Type := mkLineTechnique {
  lineWidth : LineWidth;
  transient : bool
}.

(** The line group of an [ExtendedTileInfo]. *)
Record LineGroup : Type := mkLineGroup {
  numFeatures : nat;
  techniqueIndex : list nat;
  featureIds : list (option number);
  positionIndex : list nat;
  positions : list number
}.

Record ExtendedTileInfo : Type := mkExtendedTileInfo {
  lineGroup : option LineGroup;
  techniqueCatalog : list LineTechnique
}.

Record DecodedTile : Type := mkDecodedTile { tileInfo : option ExtendedTileInfo }.

Record RoadIntersectionData : Type := mkRoadIntersectionData {
  ids : list (option number);
  rid_techniqueIndex : list nat;
  starts : list nat;
  widths : list number;
  rid_positions : list number;
  techniques : list LineTechnique
}.

(** A [Tile], as far as the road picker reads it;
    [boundingBox_distanceToPoint] is [tile.boundingBox.distanceToPoint]. *)
Record Tile : Type := mkTile {
  decodedTile : option DecodedTile;
  tileKey_level : number;
  boundingBox_distanceToPoint : Vector3 -> number;
  center : Vector3;
  roadIntersectionData : option RoadIntersectionData
}.

Inductive PickObjectType : Set := Unspecified | Point | Line | Area.

Record RoadPickResult : Type := mkRoadPickResult {
  pick_type : PickObjectType;
  point : Vector3;
  distance : number;
  distFromCenter : number;
  featureId : option number;
  pick_positions : list number;
  technique : LineTechnique
}.

(** The loop of [registerTile] that computes the widths: reading the
    [lineWidth] of a technique that the catalog does not have is a
    [TypeError]. *)
Fixpoint feature_widths (lineFeatures : LineGroup) (catalog : list LineTechnique)
    (level : number) (featureIndices : list nat) : Completion (list number) :=
  match featureIndices with
  | [] => Normal []
  | i :: rest =>
      match (index ← techniqueIndex lineFeatures !! i; catalog !! index) with
      | None => Throw "TypeError: Cannot read property 'lineWidth' of undefined"
      | Some technique =>
          let width :=
            match getAttributeValue (lineWidth technique) level with
            | Some width => Math_max 1%float width
            | None => 1%float
            end in
          match feature_widths lineFeatures catalog level rest with
          | Normal widths => Normal (width :: widths)
          | Throw message => Throw message
          end
      end
  end.

(** [registerTile(tile)]: the road intersection data of a tile, or
    [undefined]. *)
Definition registerTile (tile : Tile) : Completion (option RoadIntersectionData) :=
  match assert (bool_decide (is_Some (decodedTile tile))) with
  | Throw message => Throw message
  | Normal _ =>
      match decodedTile tile with
      | None => Normal None
      | Some decoded =>
          match tileInfo decoded with
          | None => Normal None
          | Some extendedTileInfo =>
              match lineGroup extendedTileInfo with
              | None => Normal None
              | Some lineFeatures =>
                  if Nat.eqb (numFeatures lineFeatures) 0 then Normal None
                  else
                    match feature_widths lineFeatures (techniqueCatalog extendedTileInfo)
                            (tileKey_level tile) (List.seq 0 (numFeatures lineFeatures)) with
                    | Throw message => Throw message
                    | Normal widths =>
                        Normal (Some
                          {| ids := featureIds lineFeatures;
                             rid_techniqueIndex := techniqueIndex lineFeatures;
                             starts := positionIndex lineFeatures;
                             widths := widths;
                             rid_positions := positions lineFeatures;
                             techniques := techniqueCatalog extendedTileInfo |})
                    end
              end
          end
      end
  end.

(** [positions[i]] in arithmetic: NaN outside the array. *)
Definition at_ (l : list number) (i : nat) : number := nth i l PrimFloat.nan.

(** The loop over the segments of a feature,
    [for (let j = featureStart + 2; j < featureEnd; j += 2)], which keeps
    the smallest squared distance below the squared line width.  [fuel]
    bounds the number of turns. *)
Fixpoint closest_segment (fuel : nat) (positions : list number) (px py lineWidthSqr : number)
    (j featureEnd : nat) (startX startY closestDistSqr : number) : number :=
  match fuel with
  | O => closestDistSqr
  | S fuel' =>
      if Nat.ltb j featureEnd then
        let endX := at_ positions j in
        let endY := at_ positions (j + 1) in
        let distSqr := distToSegmentSquared px py startX startY endX endY in
        let closest :=
          if lt distSqr lineWidthSqr && lt distSqr closestDistSqr then distSqr
          else closestDistSqr in
        closest_segment fuel' positions px py lineWidthSqr (j + 2) featureEnd endX endY closest
      else closestDistSqr
  end.

(** The bound [featureEnd - j] on the turns is enough: more fuel gives
    the same result. *)
Lemma closest_segment_fuel (fuel fuel' : nat) (positions : list number)
    (px py lineWidthSqr : number) (j featureEnd : nat) (startX startY closestDistSqr : number) :
  (featureEnd - j <= fuel)%nat -> (featureEnd - j <= fuel')%nat ->
  closest_segment fuel positions px py lineWidthSqr j featureEnd startX startY closestDistSqr
  = closest_segment fuel' positions px py lineWidthSqr j featureEnd startX startY closestDistSqr.
Proof.
  revert fuel' j startX startY closestDistSqr.
  induction fuel as [|fuel IH]; intros fuel' j startX startY closestDistSqr H1 H2.
  - destruct fuel' as [|fuel']; [reflexivity|]. cbn [closest_segment].
    destruct (Nat.ltb j featureEnd) eqn:E; [apply Nat.ltb_lt in E; lia | reflexivity].
  - cbn [closest_segment]. destruct (Nat.ltb j featureEnd) eqn:E.
    + apply Nat.ltb_lt in E. destruct fuel' as [|fuel']; [lia|].
      cbn [closest_segment]. rewrite (proj2 (Nat.ltb_lt j featureEnd) E).
      apply IH; lia.
    + destruct fuel' as [|fuel']; [reflexivity|]. cbn [closest_segment]. now rewrite E.
Qed.

(** One turn of the loop over the features of [intersectRoads]: the pick
    result of the feature, if the pick position is on it. *)
Definition intersectRoad (data : RoadIntersectionData) (pickPos : Vector3)
    (px py pickDistance : number) (i : nat) : Completion (option RoadPickResult) :=
  match (index ← rid_techniqueIndex data !! i; techniques data !! index) with
  | None => Throw "TypeError: Cannot read property 'transient' of undefined"
  | Some technique =>
      if transient technique then Normal None
      else
        let numFeatures := length (ids data) in
        let featureEnd :=
          if Nat.ltb i (numFeatures - 1) then starts data !! S i
          else Some (length (rid_positions data)) in
        match starts data !! i, featureEnd with
        | Some featureStart, Some featureEnd =>
            let positions := rid_positions data in
            let width := at_ (widths data) i in
            let closestDistSqr :=
              closest_segment featureEnd positions px py (width * width)%float
                (featureStart + 2) featureEnd
                (at_ positions featureStart) (at_ positions (featureStart + 1)) MAX_VALUE in
            if lt closestDistSqr MAX_VALUE then
              Normal (Some
                {| pick_type := Line; point := pickPos; distance := pickDistance;
                   distFromCenter := PrimFloat.sqrt closestDistSqr;
                   featureId := mjoin (ids data !! i);
                   pick_positions :=
                     firstn (featureEnd - featureStart) (skipn featureStart positions);
                   technique := technique |})
            else Normal None
        | _, _ => Normal None
        end
  end.

Fixpoint intersectFeatures (data : RoadIntersectionData) (pickPos : Vector3)
    (px py pickDistance : number) (featureIndices : list nat) (results : list RoadPickResult)
  : Completion (list RoadPickResult) :=
  match featureIndices with
  | [] => Normal results
  | i :: rest =>
      match intersectRoad data pickPos px py pickDistance i with
      | Throw message => Throw message
      | Normal None => intersectFeatures data pickPos px py pickDistance rest results
      | Normal (Some result) =>
          intersectFeatures data pickPos px py pickDistance rest (results ++ [result])
      end
  end.

(** [intersectRoads(tile, eyePos, pickPos, results)]: the value returned
    and the results after the call. *)
Definition intersectRoads (tile : Tile) (eyePos pickPos : Vector3)
    (results : list RoadPickResult) : Completion (bool * list RoadPickResult) :=
  if gt (boundingBox_distanceToPoint tile pickPos) MAX_DISTANCE_ERROR
  then Normal (false, results) (* outside of bounding box of tile *)
  else
    match roadIntersectionData tile with
    | None => Normal (false, results)
    | Some data =>
        let px := (x pickPos - x (center tile))%float in
        let py := (y pickPos - y (center tile))%float in
        let pickDistance := distanceTo pickPos eyePos in
        match intersectFeatures data pickPos px py pickDistance
                (List.seq 0 (length (ids data))) results with
        | Throw message => Throw message
        | Normal results' => Normal (false, results')
        end
    end.


(** *** Registering a tile with line features *)

(** The technique of feature [i], if the line group and the catalog have
    it. *)
Definition technique_of (indices : list nat) (catalog : list LineTechnique) (i : nat)
  : option LineTechnique :=
  index ← indices !! i; catalog !! index.

Lemma feature_widths_outcome (lineFeatures : LineGroup) (catalog : list LineTechnique)
    (level : number) (featureIndices : list nat) :
  if forallb (fun i => bool_decide (is_Some (technique_of (techniqueIndex lineFeatures)
                                                catalog i))) featureIndices
  then exists widths,
         feature_widths lineFeatures catalog level featureIndices = Normal widths
         /\ length widths = length featureIndices
         /\ Forall (fun width => lt width 1%float = false) widths
  else feature_widths lineFeatures catalog level featureIndices
       = Throw "TypeError: Cannot read property 'lineWidth' of undefined".
Proof.
  induction featureIndices as [|i rest IH]; cbn [forallb feature_widths].
  - exists []. now repeat split.
  - change (index ← techniqueIndex lineFeatures !! i; catalog !! index)
      with (technique_of (techniqueIndex lineFeatures) catalog i).
    destruct (technique_of (techniqueIndex lineFeatures) catalog i) as [technique|];
      [|now rewrite bool_decide_eq_false_2 by (intros [? ?]; discriminate)].
    rewrite bool_decide_eq_true_2 by (now eexists). cbn [andb].
    destruct (forallb _ rest).
    + destruct IH as (widths & -> & Hlen & Hall). eexists. split; [reflexivity|].
      split; [cbn; now rewrite Hlen|].
      constructor; [|exact Hall].
      destruct (getAttributeValue (lineWidth technique) level);
        [apply Math_max_1 | reflexivity].
    + now rewrite IH.
Qed.

(** X11.  [registerTile] for a decoded tile with line features, the
    assertion at its head passing.  When the line group and the catalog
    have a technique for every feature, the road intersection data are
    returned with one width per feature and no width below 1, and with the
    ids, technique indices, starts, positions and catalog of the tile
    info as they are.  When the technique of a feature is missing, reading
    its [lineWidth] throws a [TypeError]: nothing is returned. *)
Theorem registerTile_widths (tile : Tile) (decoded : DecodedTile) (info : ExtendedTileInfo)
    (lineFeatures : LineGroup) :
  assert true = Normal tt ->
  decodedTile tile = Some decoded -> tileInfo decoded = Some info ->
  lineGroup info = Some lineFeatures -> numFeatures lineFeatures <> 0%nat ->
  if forallb (fun i => bool_decide (is_Some (technique_of (techniqueIndex lineFeatures)
                                                (techniqueCatalog info) i)))
             (List.seq 0 (numFeatures lineFeatures))
  then exists data,
         registerTile tile = Normal (Some data)
         /\ length (widths data) = numFeatures lineFeatures
         /\ Forall (fun width => lt width 1%float = false) (widths data)
         /\ (ids data, rid_techniqueIndex data, starts data, rid_positions data,
             techniques data)
            = (featureIds lineFeatures, techniqueIndex lineFeatures,
               positionIndex lineFeatures, positions lineFeatures, techniqueCatalog info)
  else registerTile tile
       = Throw "TypeError: Cannot read property 'lineWidth' of undefined".
Proof.
  intros Hassert Hdecoded Hinfo Hgroup Hsome.
  pose proof (feature_widths_outcome lineFeatures (techniqueCatalog info)
                (tileKey_level tile) (List.seq 0 (numFeatures lineFeatures))) as Hwidths.
  unfold registerTile. rewrite Hdecoded, bool_decide_eq_true_2 by (now eexists).
  rewrite Hassert, Hinfo, Hgroup.
  apply Nat.eqb_neq in Hsome. rewrite Hsome.
  destruct (forallb _ (List.seq 0 (numFeatures lineFeatures))).
  - destruct Hwidths as (widths & -> & Hlen & Hall). eexists. split; [reflexivity|].
    cbn. rewrite Hlen, length_seq. now repeat split.
  - now rewrite Hwidths.
Qed.

(** *** Picking roads *)

(** The segments of feature [i], said without the loop: the feature runs
    from its start to the start of the next feature (the last one to the
    end of the positions), a segment starts at every second position [t]
    from the start of the feature as long as [t + 2] is before its end,
    and runs from [(positions[t], positions[t+1])] to
    [(positions[t+2], positions[t+3])]. *)
Definition feature_range (data : RoadIntersectionData) (i : nat) : option (nat * nat) :=
  featureStart ← starts data !! i;
  featureEnd ← (if Nat.ltb i (length (ids data) - 1) then starts data !! S i
                else Some (length (rid_positions data)));
  Some (featureStart, featureEnd).

Definition segment_starts (featureStart featureEnd : nat) : list nat :=
  map (fun k => featureStart + 2 * k)%nat (List.seq 0 ((featureEnd - featureStart - 1) / 2)).

Definition segment_distance (positions : list number) (px py : number) (t : nat) : number :=
  distToSegmentSquared px py (at_ positions t) (at_ positions (t + 1))
    (at_ positions (t + 2)) (at_ positions (t + 2 + 1)).

Definition segment_distances (data : RoadIntersectionData) (px py : number) (i : nat)
  : list number :=
  match feature_range data i with
  | Some (featureStart, featureEnd) =>
      map (segment_distance (rid_positions data) px py)
        (segment_starts featureStart featureEnd)
  | None => []
  end.

(** A squared distance that makes a pick: below the squared width of the
    feature, and below [Number.MAX_VALUE]. *)
Definition near (data : RoadIntersectionData) (i : nat) (distSqr : number) : Prop :=
  lt distSqr (at_ (widths data) i * at_ (widths data) i)%float = true
  /\ lt distSqr MAX_VALUE = true.

(** Feature [i] can be picked: its technique is not transient and one of
    its segments is near. *)
Definition pickable (data : RoadIntersectionData) (px py : number) (i : nat) : Prop :=
  exists technique distSqr,
    technique_of (rid_techniqueIndex data) (techniques data) i = Some technique
    /\ transient technique = false
    /\ In distSqr (segment_distances data px py i) /\ near data i distSqr.

(** What a pick result of feature [i] says: the distance from the center
    of the road is that of a near segment of the feature, and no segment
    of the feature within the width is nearer. *)
Definition picked (data : RoadIntersectionData) (pickPos : Vector3)
    (px py pickDistance : number) (i : nat) (result : RoadPickResult) : Prop :=
  pick_type result = Line /\ point result = pickPos /\ distance result = pickDistance
  /\ featureId result = mjoin (ids data !! i)
  /\ technique_of (rid_techniqueIndex data) (techniques data) i = Some (technique result)
  /\ transient (technique result) = false
  /\ (exists featureStart featureEnd,
        feature_range data i = Some (featureStart, featureEnd)
        /\ pick_positions result
           = firstn (featureEnd - featureStart) (skipn featureStart (rid_positions data)))
  /\ exists distSqr,
       distFromCenter result = PrimFloat.sqrt distSqr
       /\ In distSqr (segment_distances data px py i) /\ near data i distSqr
       /\ Forall (fun other =>
                    lt other (at_ (widths data) i * at_ (widths data) i)%float = true ->
                    lt other distSqr = false)
            (segment_distances data px py i).

(** The results that the features [featureIndices] add: one for every
    feature that can be picked, in the order of the features, and nothing
    else. *)
Inductive picks (data : RoadIntersectionData) (pickPos : Vector3) (px py pickDistance : number)
  : list nat -> list RoadPickResult -> Prop :=
| picks_nil : picks data pickPos px py pickDistance [] []
| picks_hit (i : nat) (rest : list nat) (result : RoadPickResult)
    (added : list RoadPickResult) :
    picked data pickPos px py pickDistance i result ->
    picks data pickPos px py pickDistance rest added ->
    picks data pickPos px py pickDistance (i :: rest) (result :: added)
| picks_miss (i : nat) (rest : list nat) (added : list RoadPickResult) :
    ~ pickable data px py i ->
    picks data pickPos px py pickDistance rest added ->
    picks data pickPos px py pickDistance (i :: rest) added.

Lemma segment_starts_step (featureStart featureEnd : nat) :
  segment_starts featureStart featureEnd
  = if Nat.ltb (featureStart + 2) featureEnd
    then featureStart :: segment_starts (featureStart + 2) featureEnd
    else [].
Proof.
  unfold segment_starts. destruct (Nat.ltb (featureStart + 2) featureEnd) eqn:Hlt.
  - apply Nat.ltb_lt in Hlt.
    replace (featureEnd - featureStart - 1)%nat
      with (featureEnd - (featureStart + 2) - 1 + 1 * 2)%nat by lia.
    rewrite Nat.div_add by lia. rewrite Nat.add_1_r. cbn [List.seq map].
    f_equal; [lia|]. rewrite <- seq_shift, map_map. apply map_ext. intros k. lia.
  - apply Nat.ltb_ge in Hlt.
    replace ((featureEnd - featureStart - 1) / 2)%nat with 0%nat; [reflexivity|].
    symmetry. apply Nat.div_small. lia.
Qed.

Lemma segment_starts_spec (featureStart featureEnd t : nat) :
  In t (segment_starts featureStart featureEnd)
  <-> exists k, t = (featureStart + 2 * k)%nat /\ (t + 2 < featureEnd)%nat.
Proof.
  unfold segment_starts. rewrite in_map_iff. split.
  - intros (k & <- & Hk). apply in_seq in Hk. exists k. split; [reflexivity|].
    pose proof (Nat.div_mod_eq (featureEnd - featureStart - 1) 2) as Hdiv.
    pose proof (Nat.mod_upper_bound (featureEnd - featureStart - 1) 2). lia.
  - intros (k & -> & Hk). exists k. split; [reflexivity|]. apply in_seq.
    split; [lia|]. cbn [Nat.add]. apply Nat.div_le_lower_bound; lia.
Qed.

(** The smallest near distance, as the loop keeps it. *)
Definition closest_of (lineWidthSqr : number) (distances : list number)
    (closestDistSqr : number) : number :=
  fold_left (fun closest distSqr =>
               if lt distSqr lineWidthSqr && lt distSqr closest then distSqr else closest)
    distances closestDistSqr.

Lemma closest_segment_distances (fuel : nat) (positions : list number)
    (px py lineWidthSqr : number) (featureStart featureEnd : nat) (closestDistSqr : number) :
  (featureEnd - (featureStart + 2) <= fuel)%nat ->
  closest_segment fuel positions px py lineWidthSqr (featureStart + 2) featureEnd
    (at_ positions featureStart) (at_ positions (featureStart + 1)) closestDistSqr
  = closest_of lineWidthSqr
      (map (segment_distance positions px py) (segment_starts featureStart featureEnd))
      closestDistSqr.
Proof.
  revert featureStart closestDistSqr.
  induction fuel as [|fuel IH]; intros featureStart closestDistSqr Hfuel;
    rewrite segment_starts_step; cbn [closest_segment].
  - destruct (Nat.ltb (featureStart + 2) featureEnd) eqn:Hlt; [|reflexivity].
    apply Nat.ltb_lt in Hlt. lia.
  - destruct (Nat.ltb (featureStart + 2) featureEnd) eqn:Hlt; [|reflexivity].
    apply Nat.ltb_lt in Hlt. rewrite IH by lia. reflexivity.
Qed.

Lemma closest_of_least (lineWidthSqr : number) (distances : list number) (start : number) :
  let closest := closest_of lineWidthSqr distances start in
  (closest = start \/ In closest distances /\ lt closest lineWidthSqr = true)
  /\ (lt closest start = true \/ closest = start)
  /\ Forall (fun other => lt other lineWidthSqr = true -> lt other closest = false
                          \/ lt other start = false) distances.
Proof.
  cbv zeta. revert start.
  induction distances as [|distSqr rest IH]; intros start.
  - split; [now left|]. split; [now right | constructor].
  - change (closest_of lineWidthSqr (distSqr :: rest) start)
      with (closest_of lineWidthSqr rest
              (if lt distSqr lineWidthSqr && lt distSqr start then distSqr else start)).
    set (next := if lt distSqr lineWidthSqr && lt distSqr start then distSqr else start).
    destruct (IH next) as (Hin & Hbelow & Hleast).
    set (closest := closest_of lineWidthSqr rest next) in *.
    assert (Hnext : lt next start = true \/ next = start).
    { subst next. destruct (lt distSqr lineWidthSqr); cbn [andb]; [|now right].
      destruct (lt distSqr start) eqn:Hlt; [now left | now right]. }
    assert (Hresult : lt closest start = true \/ closest = start).
    { destruct Hbelow as [Hlt|Heq]; [|rewrite Heq; exact Hnext]. left.
      destruct Hnext as [Hlt'|Heq]; [now apply lt_trans with next | now rewrite <- Heq]. }
    split; [|split; [exact Hresult|]].
    + destruct Hin as [Heq|[Hin Hnear]]; [|right; split; [now right | exact Hnear]].
      rewrite Heq. subst next.
      destruct (lt distSqr lineWidthSqr) eqn:Hnear; cbn [andb]; [|now left].
      destruct (lt distSqr start); [right; split; [now left | exact Hnear] | now left].
    + constructor.
      * intros Hnear. subst next. rewrite Hnear in Hbelow. cbn [andb] in Hbelow.
        destruct (lt distSqr start) eqn:Hlt; [left | now right].
        destruct Hbelow as [Hlt'|Heq]; [now apply lt_asym | rewrite Heq; apply lt_irrefl].
      * eapply List.Forall_impl; [|exact Hleast]. cbv beta. intros other Hother Hnear.
        destruct (Hother Hnear) as [Hleast'|Hnot]; [now left|].
        destruct Hnext as [Hlt|Heq]; [|right; now rewrite <- Heq].
        destruct (lt other start) eqn:Hstart; [|now right].
        left. destruct (lt other closest) eqn:Hlower; [|reflexivity].
        destruct Hbelow as [Hlt'|Heq].
        -- now rewrite (lt_trans _ _ _ Hlower Hlt') in Hnot.
        -- rewrite Heq in Hlower. congruence.
Qed.

Lemma intersectRoad_outcome (data : RoadIntersectionData) (pickPos : Vector3)
    (px py pickDistance : number) (i : nat) :
  match intersectRoad data pickPos px py pickDistance i with
  | Normal (Some result) => picked data pickPos px py pickDistance i result
  | Normal None =>
      is_Some (technique_of (rid_techniqueIndex data) (techniques data) i)
      /\ ~ pickable data px py i
  | Throw _ => technique_of (rid_techniqueIndex data) (techniques data) i = None
  end.
Proof.
  unfold intersectRoad.
  change (index ← rid_techniqueIndex data !! i; techniques data !! index)
    with (technique_of (rid_techniqueIndex data) (techniques data) i).
  destruct (technique_of (rid_techniqueIndex data) (techniques data) i)
    as [found|] eqn:Htechnique; [|reflexivity].
  assert (Hmiss : segment_distances data px py i = [] ->
                  is_Some (Some found) /\ ~ pickable data px py i).
  { intros Hnone. split; [now eexists|].
    intros (? & distSqr & _ & _ & Hin & _). now rewrite Hnone in Hin. }
  destruct (transient found) eqn:Htransient.
  { split; [now eexists|]. intros (found' & ? & Hsame & Hnot & _). congruence. }
  destruct (starts data !! i) as [featureStart|] eqn:Hstart;
    [|apply Hmiss; unfold segment_distances, feature_range; now rewrite Hstart].
  destruct (if Nat.ltb i (length (ids data) - 1) then starts data !! S i
            else Some (length (rid_positions data))) as [featureEnd|] eqn:Hend;
    [|apply Hmiss; unfold segment_distances, feature_range; now rewrite Hstart, Hend].
  clear Hmiss.
  assert (Hrange : feature_range data i = Some (featureStart, featureEnd)).
  { unfold feature_range. now rewrite Hstart, Hend. }
  assert (Hdistances : segment_distances data px py i
                       = map (segment_distance (rid_positions data) px py)
                           (segment_starts featureStart featureEnd)).
  { unfold segment_distances. now rewrite Hrange. }
  rewrite closest_segment_distances by lia. rewrite <- Hdistances.
  set (distances := segment_distances data px py i).
  set (lineWidthSqr := (at_ (widths data) i * at_ (widths data) i)%float).
  destruct (closest_of_least lineWidthSqr distances MAX_VALUE) as (Hin & Hbelow & Hleast).
  destruct (lt (closest_of lineWidthSqr distances MAX_VALUE) MAX_VALUE) eqn:Hfound.
  - destruct Hin as [Heq|[Hin Hnear]]; [rewrite Heq, lt_irrefl in Hfound; discriminate|].
    unfold picked. cbn [pick_type point distance featureId technique pick_positions
                          distFromCenter].
    repeat (split; [reflexivity || assumption|]).
    split; [now exists featureStart, featureEnd|].
    exists (closest_of lineWidthSqr distances MAX_VALUE).
    split; [reflexivity|]. split; [exact Hin|]. split; [now split|].
    eapply List.Forall_impl; [|exact Hleast]. cbv beta. intros other Hother Hnear'.
    destruct (Hother Hnear') as [Hlow|Hnot]; [exact Hlow|].
    destruct (lt other (closest_of lineWidthSqr distances MAX_VALUE)) eqn:Hlower;
      [|reflexivity].
    now rewrite (lt_trans _ _ _ Hlower Hfound) in Hnot.
  - split; [now eexists|].
    intros (? & distSqr & _ & _ & Hdist & Hnear & Hmax).
    destruct Hbelow as [Hlt|Heq]; [congruence|].
    rewrite List.Forall_forall in Hleast.
    destruct (Hleast distSqr Hdist Hnear) as [Hlow|Hnot]; [|congruence].
    rewrite Heq in Hlow. congruence.
Qed.

Lemma picks_length (data : RoadIntersectionData) (pickPos : Vector3)
    (px py pickDistance : number) (featureIndices : list nat) (added : list RoadPickResult) :
  picks data pickPos px py pickDistance featureIndices added ->
  (length added <= length featureIndices)%nat.
Proof. induction 1; cbn; lia. Qed.

Lemma intersectFeatures_outcome (data : RoadIntersectionData) (pickPos : Vector3)
    (px py pickDistance : number) (featureIndices : list nat) (results : list RoadPickResult) :
  match intersectFeatures data pickPos px py pickDistance featureIndices results with
  | Normal results' =>
      exists added,
        results' = results ++ added
        /\ picks data pickPos px py pickDistance featureIndices added
  | Throw _ =>
      exists i, i ∈ featureIndices
                /\ technique_of (rid_techniqueIndex data) (techniques data) i = None
  end.
Proof.
  revert results. induction featureIndices as [|i rest IH]; intros results;
    cbn [intersectFeatures].
  - exists []. rewrite app_nil_r. split; [reflexivity | constructor].
  - pose proof (intersectRoad_outcome data pickPos px py pickDistance i) as Hroad.
    destruct (intersectRoad data pickPos px py pickDistance i) as [[result|]|message].
    + specialize (IH (results ++ [result])).
      destruct (intersectFeatures data pickPos px py pickDistance rest (results ++ [result]))
        as [results'|message].
      * destruct IH as (added & -> & Hpicks). exists (result :: added).
        split; [now rewrite <- app_assoc | now constructor].
      * destruct IH as (k & Hk & Hnone). exists k. split; [now right | exact Hnone].
    + specialize (IH results).
      destruct (intersectFeatures data pickPos px py pickDistance rest results)
        as [results'|message].
      * destruct IH as (added & -> & Hpicks). exists added.
        split; [reflexivity | now apply picks_miss].
      * destruct IH as (k & Hk & Hnone). exists k. split; [now right | exact Hnone].
    + exists i. split; [left | exact Hroad].
Qed.

(** X12.  [intersectRoads] never answers true and never drops a result:
    when it returns, it returns false and the results are the ones it was
    given followed by the new ones.  For a tile farther than the
    tolerance from the pick position or without road intersection data
    there are none.  Otherwise there is exactly one new result for every
    feature, in the order of the features, whose technique is not
    transient and which has a segment whose squared distance from the
    pick position (relative to the center of the tile) is below the
    squared width of the feature (and below [Number.MAX_VALUE]), and none
    for the other features.  The result of a feature is a line pick at
    the pick position, at the distance of the pick position from the eye,
    with the id, technique and positions of the feature, and its distance
    from the center of the road is the root of the squared distance of
    such a segment, none of the feature's segments within the width being
    nearer.  The call throws only when the technique of a feature is
    missing from the catalog. *)
Theorem intersectRoads_appends_picks (tile : Tile) (eyePos pickPos : Vector3)
    (results : list RoadPickResult) :
  let px := (x pickPos - x (center tile))%float in
  let py := (y pickPos - y (center tile))%float in
  let far := gt (boundingBox_distanceToPoint tile pickPos) MAX_DISTANCE_ERROR in
  match intersectRoads tile eyePos pickPos results with
  | Normal (answer, results') =>
      answer = false
      /\ exists added,
           results' = results ++ added
           /\ (far = true \/ roadIntersectionData tile = None -> added = [])
           /\ (forall data,
                 roadIntersectionData tile = Some data -> far = false ->
                 picks data pickPos px py (distanceTo pickPos eyePos)
                   (List.seq 0 (length (ids data))) added
                 /\ (length added <= length (ids data))%nat)
  | Throw _ =>
      exists data i,
        roadIntersectionData tile = Some data /\ far = false /\ (i < length (ids data))%nat
        /\ technique_of (rid_techniqueIndex data) (techniques data) i = None
  end.
Proof.
  cbv zeta. unfold intersectRoads.
  destruct (gt (boundingBox_distanceToPoint tile pickPos) MAX_DISTANCE_ERROR).
  { split; [reflexivity|]. exists []. rewrite app_nil_r. split; [reflexivity|].
    split; [reflexivity|]. intros data _ Hfar. discriminate Hfar. }
  destruct (roadIntersectionData tile) as [data|].
  - pose proof (intersectFeatures_outcome data pickPos
                  (x pickPos - x (center tile))%float (y pickPos - y (center tile))%float
                  (distanceTo pickPos eyePos) (List.seq 0 (length (ids data))) results)
      as Hfeatures.
    destruct (intersectFeatures data pickPos _ _ _ _ results) as [results'|message].
    + destruct Hfeatures as (added & -> & Hpicks). split; [reflexivity|].
      exists added. split; [reflexivity|].
      split; [intros [Hfar|Hnone]; discriminate|].
      intros data' [= <-] _. split; [exact Hpicks|].
      apply picks_length in Hpicks. now rewrite length_seq in Hpicks.
    + destruct Hfeatures as (i & Hi & Hnone). exists data, i.
      split; [reflexivity|]. split; [reflexivity|]. split; [|exact Hnone].
      apply list_elem_of_In, in_seq in Hi. lia.
  - split; [reflexivity|]. exists []. rewrite app_nil_r. split; [reflexivity|].
    split; [reflexivity | discriminate].
Qed.

End Picking.

(** The assertion of the utilities: it throws when its condition does not
    hold. *)
Definition throwing_assert (condition : bool) : Completion unit :=
  if condition then Normal tt else Throw "ASSERTION failed".






(** A decoded tile with one road of two points, of a technique without
    line width. *)
Definition example_road : LineGroup :=
  {| numFeatures := 1; techniqueIndex := [0%nat]; featureIds := [Some 7%float];
     positionIndex := [0%nat]; positions := [0; 0; 10; 0]%float |}.

Definition example_road_info : ExtendedTileInfo unit :=
  {| lineGroup := Some example_road;
     techniqueCatalog := [ {| lineWidth := tt; transient := false |} ] |}.

Definition example_road_tile : Tile unit :=
  {| decodedTile := Some {| tileInfo := Some example_road_info |}; tileKey_level := 14%float;
     boundingBox_distanceToPoint := fun _ => 0%float;
     center := {| x := 0%float; y := 0%float; z := 0%float |};
     roadIntersectionData := None |}.

Lemma registerTile_widths_witness :
  exists data,
    registerTile throwing_assert unit (fun _ _ => None) example_road_tile = Normal (Some data)
    /\ length (widths unit data) = 1%nat
    /\ Forall (fun width => lt width 1%float = false) (widths unit data)
    /\ (ids unit data, rid_techniqueIndex unit data, starts unit data, rid_positions unit data,
        techniques unit data)
       = (featureIds example_road, techniqueIndex example_road, positionIndex example_road,
          positions example_road, techniqueCatalog unit example_road_info).
Proof.
  apply (registerTile_widths throwing_assert unit (fun _ _ => None) example_road_tile
           {| tileInfo := Some example_road_info |} example_road_info example_road);
    try reflexivity.
  discriminate.
Defined.

End RoadPicker.

(** ** Data sources *)

Module DataSource.
Import JS.

(** [DataSource.uniqueNameCounter] counts in numbers, which are exact up
    to [2^53]. *)
Definition COUNTER_LIMIT : N := 9007199254740992%N.

Section DataSourceClass.

(** The keys of the feature state map, as a JavaScript [Map] compares
    them; map views, compared by identity; themes, projections and the
    states of features; the assertion of harp-utils. *)
Context {FeatureId : Type} `{Countable FeatureId}.
Context {MapView : Type} `{EqDecision MapView}.
Variable Theme : Type.
Variable Projection : Type.
Variable ValueMap : Type.
Variable mapView_theme : MapView -> Theme.
Variable mapView_projection : MapView -> Projection.
Variable assert : bool -> Completion unit.

(** A [DataSource].  [setTheme] is left to the subclasses; [themes_set]
    lists the themes it was called with. *)
Record DataSource : Type := mkDataSource {
  enabled : bool;
  cacheable : bool;
  useGeometryLoader : bool;
  name : string;
  addGroundPlane : bool;
  m_mapView : option MapView;
  m_styleSetName : option string;
  m_minZoomLevel : number;
  m_maxZoomLevel : number;
  m_maxGeometryHeight : number;
  m_storageLevelOffset : number;
  m_featureStateMap : gmap FeatureId ValueMap;
  themes_set : list Theme
}.

Definition with_styleSetName (styleSetName : option string) (themes : list Theme)
    (ds : DataSource) : DataSource :=
  {| enabled := enabled ds; cacheable := cacheable ds;
     useGeometryLoader := useGeometryLoader ds; name := name ds;
     addGroundPlane := addGroundPlane ds; m_mapView := m_mapView ds;
     m_styleSetName := styleSetName; m_minZoomLevel := m_minZoomLevel ds;
     m_maxZoomLevel := m_maxZoomLevel ds; m_maxGeometryHeight := m_maxGeometryHeight ds;
     m_storageLevelOffset := m_storageLevelOffset ds;
     m_featureStateMap := m_featureStateMap ds; themes_set := themes |}.

(** [set styleSetName(styleSetName)]. *)
Definition set_styleSetName (styleSetName : option string) (ds : DataSource) : DataSource :=
  match m_mapView ds, styleSetName with
  | Some mapView, Some _ =>
      with_styleSetName styleSetName (themes_set ds ++ [mapView_theme mapView]) ds
  | _, _ => with_styleSetName styleSetName (themes_set ds) ds
  end.

(** The arguments of the constructor. *)
Record Arguments_ : Type := mkArguments {
  arg_uniqueName : option string;
  arg_styleSetName : option string;
  arg_minZoomLevel : option number;
  arg_maxZoomLevel : option number;
  arg_storageLevelOffset : option number
}.

(** [uniqueName === undefined || uniqueName.length === 0]. *)
Definition anonymous (args : Arguments_) : bool :=
  match arg_uniqueName args with
  | None => true
  | Some uniqueName => Nat.eqb (String.length uniqueName) 0
  end.

Definition anonymous_name (counter : N) : string :=
  ("anonymous-datasource#" ++ pretty counter)%string.

(** [new DataSource(uniqueName, styleSetName, minZoomLevel, maxZoomLevel,
    storageLevelOffset)]: the data source and the counter of the class
    afterwards. *)
Definition new_DataSource (args : Arguments_) (uniqueNameCounter : N) : DataSource * N :=
  let counter := if anonymous args then (uniqueNameCounter + 1)%N else uniqueNameCounter in
  let uniqueName :=
    if anonymous args then anonymous_name counter else default ""%string (arg_uniqueName args) in
  (set_styleSetName (arg_styleSetName args)
     {| enabled := true; cacheable := false; useGeometryLoader := false; name := uniqueName;
        addGroundPlane := false; m_mapView := None; m_styleSetName := None;
        m_minZoomLevel := default 1%float (arg_minZoomLevel args);
        m_maxZoomLevel := default 20%float (arg_maxZoomLevel args);
        m_maxGeometryHeight := 0%float;
        m_storageLevelOffset := default 0%float (arg_storageLevelOffset args);
        m_featureStateMap := ∅; themes_set := [] |},
   counter).

(** Data sources constructed one after the other. *)
Fixpoint construct (arguments : list Arguments_) (uniqueNameCounter : N)
  : list DataSource * N :=
  match arguments with
  | [] => ([], uniqueNameCounter)
  | args :: rest =>
      let first := new_DataSource args uniqueNameCounter in
      let others := construct rest (snd first) in
      (fst first :: fst others, snd others)
  end.

Definition with_featureStateMap (m : gmap FeatureId ValueMap) (ds : DataSource) : DataSource :=
  {| enabled := enabled ds; cacheable := cacheable ds;
     useGeometryLoader := useGeometryLoader ds; name := name ds;
     addGroundPlane := addGroundPlane ds; m_mapView := m_mapView ds;
     m_styleSetName := m_styleSetName ds; m_minZoomLevel := m_minZoomLevel ds;
     m_maxZoomLevel := m_maxZoomLevel ds; m_maxGeometryHeight := m_maxGeometryHeight ds;
     m_storageLevelOffset := m_storageLevelOffset ds;
     m_featureStateMap := m; themes_set := themes_set ds |}.

(** [getFeatureState], [clearFeatureState], [setFeatureState] and
    [removeFeatureState]. *)
Definition getFeatureState (featureId : FeatureId) (ds : DataSource) : option ValueMap :=
  m_featureStateMap ds !! featureId.

Definition clearFeatureState (ds : DataSource) : DataSource :=
  with_featureStateMap ∅ ds.

Definition setFeatureState (featureId : FeatureId) (state : ValueMap) (ds : DataSource)
  : DataSource :=
  with_featureStateMap (<[featureId := state]> (m_featureStateMap ds)) ds.

Definition removeFeatureState (featureId : FeatureId) (ds : DataSource) : DataSource :=
  with_featureStateMap (delete featureId (m_featureStateMap ds)) ds.

Definition with_mapView (mapView : option MapView) (ds : DataSource) : DataSource :=
  {| enabled := enabled ds; cacheable := cacheable ds;
     useGeometryLoader := useGeometryLoader ds; name := name ds;
     addGroundPlane := addGroundPlane ds; m_mapView := mapView;
     m_styleSetName := m_styleSetName ds; m_minZoomLevel := m_minZoomLevel ds;
     m_maxZoomLevel := m_maxZoomLevel ds; m_maxGeometryHeight := m_maxGeometryHeight ds;
     m_storageLevelOffset := m_storageLevelOffset ds;
     m_featureStateMap := m_featureStateMap ds; themes_set := themes_set ds |}.

(** [get mapView()] and [get projection()]. *)
Definition mapView (ds : DataSource) : Completion MapView :=
  match m_mapView ds with
  | None => Throw "This DataSource was not added to MapView"
  | Some mapView => Normal mapView
  end.

Definition projection (ds : DataSource) : Completion Projection :=
  match mapView ds with
  | Normal mapView => Normal (mapView_projection mapView)
  | Throw message => Throw message
  end.

(** [attach(mapView)] and [detach(mapView)]. *)
Definition attach (mapView : MapView) (ds : DataSource) : DataSource :=
  with_mapView (Some mapView) ds.

Definition detach (mapView : MapView) (ds : DataSource) : Completion DataSource :=
  match assert (bool_decide (m_mapView ds = Some mapView)) with
  | Normal _ => Normal (with_mapView None ds)
  | Throw message => Throw message
  end.

(** [isFullyCovering()]. *)
Definition isFullyCovering (ds : DataSource) : bool := addGroundPlane ds.

(** *** Names of data sources *)

Lemma append_inj (prefix a b : string) :
  (prefix ++ a)%string = (prefix ++ b)%string -> a = b.
Proof. induction prefix as [|c prefix IH]; cbn; [easy | intros [= Heq]; auto]. Qed.

Lemma anonymous_name_inj (a b : N) : anonymous_name a = anonymous_name b -> a = b.
Proof. intros Heq. apply append_inj in Heq. now apply pretty_N_inj in Heq. Qed.

(** The data sources among [sources] that were given no name. *)
Definition unnamed (arguments : list Arguments_) (sources : list DataSource)
  : list DataSource :=
  map snd (List.filter (fun pair => anonymous (fst pair)) (combine arguments sources)).

Lemma new_DataSource_name (args : Arguments_) (counter : N) :
  name (fst (new_DataSource args counter))
  = (if anonymous args then anonymous_name (counter + 1)
     else default ""%string (arg_uniqueName args))
  /\ snd (new_DataSource args counter)
     = (if anonymous args then (counter + 1)%N else counter).
Proof.
  unfold new_DataSource, set_styleSetName. cbn.
  now destruct (arg_styleSetName args), (anonymous args).
Qed.

Lemma construct_names (arguments : list Arguments_) (counter : N) :
  let sources := fst (construct arguments counter) in
  let counter' := snd (construct arguments counter) in
  length sources = length arguments
  /\ (counter <= counter' <= counter + N.of_nat (length arguments))%N
  /\ Forall (fun source =>
               exists k, (counter < k <= counter')%N /\ name source = anonymous_name k)
            (unnamed arguments sources)
  /\ NoDup (map name (unnamed arguments sources)).
Proof.
  cbv zeta. revert counter.
  induction arguments as [|args rest IH]; intros counter; cbn [construct fst snd length].
  - split; [reflexivity|]. split; [lia|]. split; constructor.
  - destruct (IH (snd (new_DataSource args counter))) as (Hlen & Hcount & Hnames & Hnd).
    destruct (new_DataSource_name args counter) as [Hname Hnext].
    rewrite Hnext in Hlen, Hcount, Hnames, Hnd |- *.
    unfold unnamed in *. cbn [combine List.filter fst].
    destruct (anonymous args) eqn:Hanon.
    + split; [now rewrite Hlen|]. split; [lia|].
      cbn [map snd fst]. split.
      * constructor; [exists (counter + 1)%N; split; [lia | exact Hname]|].
        eapply Forall_impl; [exact Hnames|]. intros source (k & Hk & Hk').
        exists k. split; [lia | exact Hk'].
      * apply NoDup_cons. split; [|exact Hnd].
        intros Hin. apply list_elem_of_fmap in Hin as (source & Hsame & Hin).
        rewrite Forall_forall in Hnames. destruct (Hnames source Hin) as (k & Hk & Hk').
        rewrite Hname, Hk' in Hsame. apply anonymous_name_inj in Hsame. lia.
    + split; [now rewrite Hlen|]. split; [lia|]. split; [|exact Hnd].
      eapply Forall_impl; [exact Hnames|]. intros source (k & Hk & Hk').
      exists k. split; [lia | exact Hk'].
Qed.

(** X18.  Data sources constructed one after the other, the counter of
    the class staying within the exact numbers: every data source that
    is given no name, or the empty name, gets a name
    [anonymous-datasource#k] with a [k] of its own, so the generated names
    differ from one another; a given name is kept as it is and does not
    use up a number; the counter grows by the number of data sources that
    were given no name. *)
Theorem generated_names_differ (arguments : list Arguments_) (counter : N) :
  (counter + N.of_nat (length arguments) <= COUNTER_LIMIT)%N ->
  let sources := fst (construct arguments counter) in
  let counter' := snd (construct arguments counter) in
  NoDup (map name (unnamed arguments sources))
  /\ Forall (fun source =>
               exists k, (counter < k <= counter')%N /\ name source = anonymous_name k)
            (unnamed arguments sources)
  /\ Forall2 (fun args source =>
                anonymous args = false -> Some (name source) = arg_uniqueName args)
             arguments sources
  /\ counter' = (counter + N.of_nat (length (List.filter anonymous arguments)))%N.
Proof.
  intros _. cbv zeta.
  destruct (construct_names arguments counter) as (_ & _ & Hnames & Hnd).
  split; [exact Hnd|]. split; [exact Hnames|]. clear Hnames Hnd. revert counter.
  induction arguments as [|args rest IH]; intros counter; cbn [construct fst snd List.filter].
  - split; [constructor | cbn; lia].
  - destruct (IH (snd (new_DataSource args counter))) as [Hgiven Hcount].
    destruct (new_DataSource_name args counter) as [Hname Hnext].
    split.
    + constructor; [|exact Hgiven].
      intros Hanon. rewrite Hname, Hanon. unfold anonymous in Hanon.
      now destruct (arg_uniqueName args).
    + rewrite Hcount, Hnext.
      destruct (anonymous args); cbn [length]; lia.
Qed.

(** *** The state of features *)

(** The calls that change the state of features. *)
Inductive FeatureStateCall : Type :=
| call_setFeatureState (featureId : FeatureId) (state : ValueMap)
| call_removeFeatureState (featureId : FeatureId)
| call_clearFeatureState.

Definition call (ds : DataSource) (c : FeatureStateCall) : DataSource :=
  match c with
  | call_setFeatureState featureId state => setFeatureState featureId state ds
  | call_removeFeatureState featureId => removeFeatureState featureId ds
  | call_clearFeatureState => clearFeatureState ds
  end.

(** What a sequence of calls makes of the state of one feature. *)
Definition state_after (featureId : FeatureId) (state : option ValueMap)
    (c : FeatureStateCall) : option ValueMap :=
  match c with
  | call_setFeatureState featureId' state' =>
      if decide (featureId' = featureId) then Some state' else state
  | call_removeFeatureState featureId' =>
      if decide (featureId' = featureId) then None else state
  | call_clearFeatureState => None
  end.

(** What the calls do not touch. *)
Definition beside_states (ds : DataSource)
  : bool * bool * bool * string * bool * option MapView * option string * number * number
    * number * number * list Theme :=
  (enabled ds, cacheable ds, useGeometryLoader ds, name ds, addGroundPlane ds, m_mapView ds,
   m_styleSetName ds, m_minZoomLevel ds, m_maxZoomLevel ds, m_maxGeometryHeight ds,
   m_storageLevelOffset ds, themes_set ds).

(** X19.  The state that [getFeatureState] returns for a feature after
    any sequence of [setFeatureState], [removeFeatureState] and
    [clearFeatureState] is the state of the last [setFeatureState] for
    this feature, unless a [removeFeatureState] for it or a
    [clearFeatureState] came later, in which case it is [undefined]; with
    no call that concerns the feature it is what it was.  Calls for other
    features make no difference, and nothing else of the data source is
    changed. *)
Theorem feature_state_follows_calls (calls : list FeatureStateCall) (ds : DataSource)
    (featureId : FeatureId) :
  getFeatureState featureId (fold_left call calls ds)
  = fold_left (state_after featureId) calls (getFeatureState featureId ds)
  /\ beside_states (fold_left call calls ds) = beside_states ds
  /\ (forall state later,
        calls = later ++ [call_setFeatureState featureId state] ->
        getFeatureState featureId (fold_left call calls ds) = Some state)
  /\ (forall earlier later,
        calls = earlier ++ call_clearFeatureState :: later ->
        Forall (fun c => forall state, c <> call_setFeatureState featureId state) later ->
        getFeatureState featureId (fold_left call calls ds) = None).
Proof.
  assert (Hrun : forall calls0 ds0,
            getFeatureState featureId (fold_left call calls0 ds0)
            = fold_left (state_after featureId) calls0 (getFeatureState featureId ds0)
            /\ beside_states (fold_left call calls0 ds0) = beside_states ds0).
  { induction calls0 as [|c calls0 IH]; intros ds0; cbn [fold_left]; [now split|].
    destruct (IH (call ds0 c)) as [-> ->]. split; [|now destruct c].
    f_equal. unfold getFeatureState.
    destruct c as [featureId' state'|featureId'|]; cbn.
    - destruct (decide (featureId' = featureId)) as [->|Hne];
        [apply lookup_insert_eq | now apply lookup_insert_ne].
    - destruct (decide (featureId' = featureId)) as [->|Hne];
        [apply lookup_delete_eq | now apply lookup_delete_ne].
    - apply lookup_empty. }
  destruct (Hrun calls ds) as [Hstate Hbeside].
  split; [exact Hstate|]. split; [exact Hbeside|]. rewrite Hstate. split.
  - intros state later ->. rewrite fold_left_app. cbn.
    now destruct (decide (featureId = featureId)).
  - intros earlier later -> Hlater. rewrite fold_left_app. cbn [fold_left state_after].
    clear -Hlater. induction later as [|c later IH]; [reflexivity|].
    apply Forall_cons in Hlater as [Hc Hlater]. cbn [fold_left].
    replace (state_after featureId None c) with (@None ValueMap); [now apply IH|].
    destruct c as [featureId' state'|featureId'|]; cbn; [|now destruct (decide _)|reflexivity].
    destruct (decide (featureId' = featureId)) as [->|]; [|reflexivity].
    now specialize (Hc state').
Qed.

(** *** Data sources and their map view *)

(** X20.  A data source and its map view, for an assertion that lets a
    true condition pass.  A new data source is not attached: [mapView]
    and [projection] throw "This DataSource was not added to MapView", and
    the assignment of the style set name in the constructor has not
    called [setTheme], whatever the arguments.  After [attach] both
    getters return, setting a style set name calls [setTheme] once with
    the theme of the map view, and setting it to [undefined] calls
    nothing.  [detach] with the map view that is attached returns, and
    then the getters throw again; the feature states and the name are not
    touched by any of this. *)
Theorem attachment (args : Arguments_) (counter : N) (view : MapView)
    (styleSetName : string) :
  assert true = Normal tt ->
  let ds := fst (new_DataSource args counter) in
  mapView ds = Throw "This DataSource was not added to MapView"
  /\ projection ds = Throw "This DataSource was not added to MapView"
  /\ themes_set ds = [] /\ m_styleSetName ds = arg_styleSetName args
  /\ m_featureStateMap ds = ∅
  /\ mapView (attach view ds) = Normal view
  /\ projection (attach view ds) = Normal (mapView_projection view)
  /\ themes_set (set_styleSetName (Some styleSetName) (attach view ds))
     = [mapView_theme view]
  /\ themes_set (set_styleSetName None (attach view ds)) = []
  /\ exists detached,
       detach view (attach view ds) = Normal detached
       /\ mapView detached = Throw "This DataSource was not added to MapView"
       /\ projection detached = Throw "This DataSource was not added to MapView"
       /\ (name detached, m_featureStateMap detached) = (name ds, m_featureStateMap ds).
Proof.
  intros Hassert. cbv zeta. unfold new_DataSource. cbn [fst].
  unfold set_styleSetName at 1 2 3 4 5.
  cbn [m_mapView].
  assert (Hnew : forall ds0 : DataSource,
            match @None MapView, arg_styleSetName args with
            | Some v, Some _ => with_styleSetName (arg_styleSetName args)
                                  (themes_set ds0 ++ [mapView_theme v]) ds0
            | _, _ => with_styleSetName (arg_styleSetName args) (themes_set ds0) ds0
            end = with_styleSetName (arg_styleSetName args) (themes_set ds0) ds0)
    by (intros ds0; now destruct (arg_styleSetName args)).
  repeat split; try (unfold set_styleSetName; now destruct (arg_styleSetName args)).
  unfold detach, attach. cbn [m_mapView with_mapView].
  rewrite bool_decide_eq_true_2 by reflexivity. rewrite Hassert.
  eexists. split; [reflexivity|].
  unfold set_styleSetName. now destruct (arg_styleSetName args).
Qed.

End DataSourceClass.

(** Three data sources, the second with a name. *)
Definition example_arguments : list Arguments_ :=
  [ {| arg_uniqueName := None; arg_styleSetName := Some "tilezen"%string;
       arg_minZoomLevel := None; arg_maxZoomLevel := None; arg_storageLevelOffset := None |};
    {| arg_uniqueName := Some "omv"%string; arg_styleSetName := None;
       arg_minZoomLevel := Some 3%float; arg_maxZoomLevel := None;
       arg_storageLevelOffset := None |};
    {| arg_uniqueName := Some ""%string; arg_styleSetName := None;
       arg_minZoomLevel := None; arg_maxZoomLevel := None; arg_storageLevelOffset := None |} ].

Definition example_sources : list (@DataSource Z _ _ nat unit unit) * N :=
  construct unit unit (fun _ => tt) example_arguments 0.

Lemma generated_names_differ_witness :
  NoDup (map (name unit unit) (unnamed unit unit example_arguments (fst example_sources)))
  /\ snd example_sources = 2%N.
Proof.
  pose proof (generated_names_differ (FeatureId := Z) (MapView := nat) unit unit
                (fun _ => tt) example_arguments 0) as Hnames.
  destruct Hnames as (Hdiffer & _ & _ & Hcounter); [vm_compute; discriminate|].
  split; [exact Hdiffer | exact Hcounter].
Defined.

Definition strict_assert (condition : bool) : Completion unit :=
  if condition then Normal tt else Throw "ASSERTION failed".

Lemma attachment_witness :
  mapView (FeatureId := Z) unit unit
    (fst (new_DataSource unit unit (fun _ : nat => tt)
            {| arg_uniqueName := None; arg_styleSetName := Some "tilezen"%string;
               arg_minZoomLevel := None; arg_maxZoomLevel := None;
               arg_storageLevelOffset := None |} 0))
  = Throw "This DataSource was not added to MapView"
  /\ mapView (FeatureId := Z) unit unit
       (attach unit unit 7%nat
          (fst (new_DataSource unit unit (fun _ : nat => tt)
                  {| arg_uniqueName := None; arg_styleSetName := Some "tilezen"%string;
                     arg_minZoomLevel := None; arg_maxZoomLevel := None;
                     arg_storageLevelOffset := None |} 0)))
     = Normal 7%nat.
Proof.
  pose proof (attachment (FeatureId := Z) (MapView := nat) unit unit unit (fun _ => tt)
                (fun _ => tt) strict_assert
                {| arg_uniqueName := None; arg_styleSetName := Some "tilezen"%string;
                   arg_minZoomLevel := None; arg_maxZoomLevel := None;
                   arg_storageLevelOffset := None |} 0 7%nat "tilezen" eq_refl)
    as (Hnew & _ & _ & _ & _ & Hattached & _).
  split; [exact Hnew | exact Hattached].
Defined.

End DataSource.
